(** * AWS App Runner deployer and serving runtime: a verification development

    Shallow embedding of
    - [src/zenml/integrations/aws/deployers/aws_deployer.py]
      (resource mapping, name sanitizing, replacement decision, status
      mapping, secret and auto-scaling management, deprovisioning, logs);
    - [src/zenml/deployers/server/runtime.py] (request-scoped outputs).

    Python values are modelled as the code has them: [int] as [Z], [str]
    as [string], [Optional[T]] as [option T], [Dict[str, T]] as
    [gmap string T] or, for the nested JSON-like answers of boto3, as the
    inductive [pyval].  The [float] arguments of the tier selection are
    read as exact rationals [Q]: the eleven tier constants are dyadic,
    comparisons are exact, and NaN and the infinities are outside this
    reading (the starting score [float("inf")] is [None]).  Along the
    list of tiers neither the CPU nor the memory decreases, and rounding
    is monotone, so as long as no score overflows the binary64 scores
    never decrease along the list either and the method returns the
    first row that meets the request, as the rational reading does
    ([selection_is_first_fit]).  Where a score overflows the two part:
    the module [Binary64] holds the method over binary64 numbers for
    that case. *)

From Stdlib Require Import Floats.PrimFloat Floats.SpecFloat Floats.FloatOps.
From Stdlib Require Import ZArith QArith Bool List Lia Lqa Sorted Permutation.
From Stdlib Require Import Strings.String Strings.Ascii.
From stdpp Require Import gmap strings.
Import ListNotations.

Local Open Scope Z_scope.

(** ** Module-level constants of aws_deployer.py *)

Definition DEFAULT_CPU : string := "0.25 vCPU".
Definition DEFAULT_MEMORY : string := "0.5 GB".
Definition DEFAULT_MIN_SIZE : Z := 1.
Definition DEFAULT_MAX_SIZE : Z := 25.
Definition DEFAULT_MAX_CONCURRENCY : Z := 100.
Definition AWS_APP_RUNNER_MAX_SIZE : Z := 1000.
Definition AWS_APP_RUNNER_MAX_CONCURRENCY : Z := 1000.

(** The fields of [zenml.config.resource_settings.ResourceSettings] that the
    deployer reads; the class itself is declared outside the files at hand,
    so only the optional fields the two converters use are kept. *)
Record ResourceSettings := {
  cpu_count : option Q;
  memory_gb : option Q;          (* [get_memory(unit="GB")], [None] when [memory is None] *)
  min_replicas : option Z;
  max_replicas : option Z;
  max_concurrency : option Z
}.

(** ** ResourceMapper: scaling *)

(** [_convert_scaling_settings_to_aws_format] *)
Definition _convert_scaling_settings_to_aws_format
    (resource_settings : ResourceSettings) : Z * Z * Z :=
  let min_size :=
    match min_replicas resource_settings with
    | Some m => Z.max 1 m
    | None => DEFAULT_MIN_SIZE
    end in
  let max_size :=
    match max_replicas resource_settings with
    | Some m =>
        if m =? 0 then AWS_APP_RUNNER_MAX_SIZE
        else Z.min m AWS_APP_RUNNER_MAX_SIZE
    | None => DEFAULT_MAX_SIZE
    end in
  let max_conc :=
    match max_concurrency resource_settings with
    | Some m => Z.min m AWS_APP_RUNNER_MAX_CONCURRENCY
    | None => DEFAULT_MAX_CONCURRENCY
    end in
  (min_size, max_size, max_conc).

Definition scaling_min (r : Z * Z * Z) : Z := fst (fst r).
Definition scaling_max (r : Z * Z * Z) : Z := snd (fst r).
Definition scaling_concurrency (r : Z * Z * Z) : Z := snd r.

(** The normalisation as the specification words it: the minimum defaults
    to 1 and is at least 1, a maximum of 0 becomes the ceiling, and all
    three results stay within the platform maxima. *)
Definition scaling_all_clamped (rs : ResourceSettings) : Prop :=
  let r := _convert_scaling_settings_to_aws_format rs in
  (min_replicas rs = None -> scaling_min r = 1) /\
  1 <= scaling_min r /\
  (max_replicas rs = Some 0 -> scaling_max r = AWS_APP_RUNNER_MAX_SIZE) /\
  scaling_min r <= AWS_APP_RUNNER_MAX_SIZE /\
  scaling_max r <= AWS_APP_RUNNER_MAX_SIZE /\
  scaling_concurrency r <= AWS_APP_RUNNER_MAX_CONCURRENCY.

(** ** ResourceMapper: tier selection *)

(** One row of [valid_combinations]:
    [(cpu_value, cpu_string, memory_value, memory_string)]. *)
Record tier := {
  cpu_val : Q;
  cpu_str : string;
  mem_val : Q;
  mem_str : string
}.

Definition valid_combinations : list tier :=
  [ {| cpu_val := 1#4; cpu_str := "0.25 vCPU"; mem_val := 1#2; mem_str := "0.5 GB" |};
    {| cpu_val := 1#4; cpu_str := "0.25 vCPU"; mem_val := 1;   mem_str := "1 GB" |};
    {| cpu_val := 1#2; cpu_str := "0.5 vCPU";  mem_val := 1;   mem_str := "1 GB" |};
    {| cpu_val := 1;   cpu_str := "1 vCPU";    mem_val := 2;   mem_str := "2 GB" |};
    {| cpu_val := 1;   cpu_str := "1 vCPU";    mem_val := 3;   mem_str := "3 GB" |};
    {| cpu_val := 1;   cpu_str := "1 vCPU";    mem_val := 4;   mem_str := "4 GB" |};
    {| cpu_val := 2;   cpu_str := "2 vCPU";    mem_val := 4;   mem_str := "4 GB" |};
    {| cpu_val := 2;   cpu_str := "2 vCPU";    mem_val := 6;   mem_str := "6 GB" |};
    {| cpu_val := 4;   cpu_str := "4 vCPU";    mem_val := 8;   mem_str := "8 GB" |};
    {| cpu_val := 4;   cpu_str := "4 vCPU";    mem_val := 10;  mem_str := "10 GB" |};
    {| cpu_val := 4;   cpu_str := "4 vCPU";    mem_val := 12;  mem_str := "12 GB" |} ]%Q.

Definition labels (t : tier) : string * string := (cpu_str t, mem_str t).

(** [requested is None or value >= requested] *)
Definition meets_request (requested : option Q) (value : Q) : bool :=
  match requested with
  | None => true
  | Some r => Qle_bool r value
  end.

(** [0 if requested is None else (value - requested)] *)
Definition waste (requested : option Q) (value : Q) : Q :=
  match requested with
  | None => 0
  | Some r => value - r
  end.

Definition tier_ok (requested_cpu requested_memory_gb : option Q) (t : tier) : bool :=
  meets_request requested_cpu (cpu_val t) &&
  meets_request requested_memory_gb (mem_val t).

(** [score = cpu_waste * 10 + mem_waste] *)
Definition tier_score (requested_cpu requested_memory_gb : option Q) (t : tier) : Q :=
  waste requested_cpu (cpu_val t) * 10 + waste requested_memory_gb (mem_val t).

(** [score < best_score], where [best_score = None] stands for
    [float("inf")]. *)
Definition score_lt (score : Q) (best_score : option Q) : bool :=
  match best_score with
  | None => true
  | Some b => negb (Qle_bool b score)
  end.

(** One iteration of the [for] loop over [valid_combinations]; the
    accumulator is [(best_combination, best_score)]. *)
Definition select_step (requested_cpu requested_memory_gb : option Q)
    (acc : option (string * string) * option Q) (t : tier)
    : option (string * string) * option Q :=
  if tier_ok requested_cpu requested_memory_gb t then
    let score := tier_score requested_cpu requested_memory_gb t in
    if score_lt score (snd acc) then (Some (labels t), Some score) else acc
  else acc.

(** [_select_aws_cpu_memory_combination] *)
Definition _select_aws_cpu_memory_combination
    (requested_cpu requested_memory_gb : option Q) : string * string :=
  match requested_cpu, requested_memory_gb with
  | None, None => (DEFAULT_CPU, DEFAULT_MEMORY)
  | _, _ =>
      let best_combination :=
        fst (fold_left (select_step requested_cpu requested_memory_gb)
                       valid_combinations (None, None)) in
      match best_combination with
      | None => ("4 vCPU", "12 GB")%string
      | Some b => b
      end
  end.

(** [_convert_resource_settings_to_aws_format] *)
Definition _convert_resource_settings_to_aws_format
    (resource_settings : ResourceSettings) : string * string :=
  _select_aws_cpu_memory_combination
    (cpu_count resource_settings) (memory_gb resource_settings).

(** What the specification asks of a tier: each requirement that is present
    is met ([missing requirement = always satisfied]). *)
Definition satisfies (requested_cpu requested_memory_gb : option Q) (t : tier) : Prop :=
  (forall r, requested_cpu = Some r -> (r <= cpu_val t)%Q) /\
  (forall r, requested_memory_gb = Some r -> (r <= mem_val t)%Q).

(** The overage of a value over an optional requirement, and the weighted
    score [10 * cpuOverage + memoryOverage] of the specification. *)
Definition overage (requested : option Q) (value : Q) : Q :=
  match requested with
  | None => 0
  | Some r => value - r
  end.

Definition weighted_overage (requested_cpu requested_memory_gb : option Q) (t : tier) : Q :=
  (10 * overage requested_cpu (cpu_val t) + overage requested_memory_gb (mem_val t))%Q.

(** One tier is no smaller than another, in both components. *)
Definition tier_le (t t' : tier) : Prop :=
  (cpu_val t <= cpu_val t')%Q /\ (mem_val t <= mem_val t')%Q.

(** The selection invariant after the loop has gone through a prefix
    [seen] of the list. *)
Definition select_inv (rc rm : option Q) (seen : list tier)
    (acc : option (string * string) * option Q) : Prop :=
  (acc = (None, None) /\ forall t, In t seen -> ~ satisfies rc rm t) \/
  (exists i t,
      nth_error seen i = Some t /\
      acc = (Some (labels t), Some (tier_score rc rm t)) /\
      satisfies rc rm t /\
      forall j t', nth_error seen j = Some t' -> satisfies rc rm t' ->
        (weighted_overage rc rm t <= weighted_overage rc rm t')%Q /\
        (weighted_overage rc rm t' == weighted_overage rc rm t -> (i <= j)%nat)%Q).

(** ** Python values and exceptions *)

(** The JSON-like values of a boto3 answer ([Dict[str, Any]]). *)
#[local] Unset Elimination Schemes.
Inductive pyval :=
| PNone
| PBool (b : bool)
| PInt (z : Z)
| PStr (s : string)
| PList (l : list pyval)
| PDict (d : gmap string pyval).
#[local] Set Elimination Schemes.

(** The exceptions the deployer raises or catches.  [ClientError] carries
    [e.response["Error"]["Code"]]; [ClientError] and [BotoCoreError] are
    unrelated classes of botocore, both below [Exception]. *)
Inductive exn :=
| ClientError (code : string)
| BotoCoreError
| DeployerError
| PipelineEndpointDeploymentError
| PipelineEndpointDeprovisionError
| PipelineEndpointNotFoundError
| PipelineLogsNotFoundError
| NotImplementedError
| RuntimeError
| ValueError
| AttributeError
| KeyError
| TypeError
| ValidationError.

Inductive result (A : Type) :=
| Ok (a : A)
| Raise (e : exn).
Arguments Ok {A} a.
Arguments Raise {A} e.

Definition rbind {A B} (r : result A) (k : A -> result B) : result B :=
  match r with
  | Ok a => k a
  | Raise e => Raise e
  end.

Notation "'let*' x ':=' r 'in' k" := (rbind r (fun x => k))
  (at level 10, x name, r at level 200, k at level 200, only parsing).

(** [bool(v)] *)
Definition truthy (v : pyval) : bool :=
  match v with
  | PNone => false
  | PBool b => b
  | PInt z => negb (z =? 0)
  | PStr s => negb (String.eqb s "")
  | PList l => match l with [] => false | _ => true end
  | PDict d => negb (bool_decide (dom d = ∅))
  end.

(** [v.get(key, default)]; only a dict has [get]. *)
Definition py_get (v : pyval) (key : string) (default : pyval) : result pyval :=
  match v with
  | PDict d => Ok (match d !! key with Some x => x | None => default end)
  | _ => Raise AttributeError
  end.

(** [v[key]] on a dict. *)
Definition py_item (v : pyval) (key : string) : result pyval :=
  match v with
  | PDict d => match d !! key with Some x => Ok x | None => Raise KeyError end
  | _ => Raise TypeError
  end.

(** [v == b] for a [bool] [b]: Python's [bool] is an [int], so [1 == True]. *)
Definition py_eq_bool (v : pyval) (b : bool) : bool :=
  match v with
  | PBool b' => Bool.eqb b' b
  | PInt z => z =? (if b then 1 else 0)
  | _ => false
  end.

(** [v == o] for an [Optional[str]] [o]. *)
Definition py_eq_optstr (v : pyval) (o : option string) : bool :=
  match v, o with
  | PNone, None => true
  | PStr s, Some s' => String.eqb s s'
  | _, _ => false
  end.

(** [v == z] for an [int] [z]. *)
Definition py_eq_int (v : pyval) (z : Z) : bool :=
  match v with
  | PInt z' => z' =? z
  | PBool b => (if b then 1 else 0) =? z
  | _ => false
  end.

(** [bool(o)] for an [Optional[str]]. *)
Definition truthy_optstr (o : option string) : bool :=
  match o with
  | Some s => negb (String.eqb s "")
  | None => false
  end.

(** [str.upper] on 7-bit text. *)
Definition upper_char (c : ascii) : ascii :=
  if (Ascii.leb "a" c && Ascii.leb c "z")%bool
  then ascii_of_nat (nat_of_ascii c - 32)
  else c.

Fixpoint upper (s : string) : string :=
  match s with
  | EmptyString => EmptyString
  | String c s' => String (upper_char c) (upper s')
  end.

(** ** NameSanitizer: secret names *)

(** A Python [str] is read here as its list of characters. *)
Definition in_range (lo hi c : ascii) : bool :=
  (Ascii.leb lo c && Ascii.leb c hi)%bool.

(** The character class [[a-zA-Z0-9_.-/]] as [re] parses it: the ranges
    [a-z], [A-Z], [0-9], the character [_] and the range [.-/] (from '.',
    code 46, to '/', code 47).  The hyphen, code 45, is not a member. *)
Definition secret_body_class (c : ascii) : bool :=
  (in_range "a" "z" c || in_range "A" "Z" c || in_range "0" "9" c
   || Ascii.eqb c "_" || in_range "." "/" c)%bool.

(** The character class [[a-zA-Z0-9_-]]: a hyphen that closes the class is
    a literal hyphen. *)
Definition secret_suffix_class (c : ascii) : bool :=
  (in_range "a" "z" c || in_range "A" "Z" c || in_range "0" "9" c
   || Ascii.eqb c "_" || Ascii.eqb c "-")%bool.

Definition newline : ascii := ascii_of_nat 10.

(** [re.match(r"^[a-zA-Z0-9_-]+$", s)]: one or more class characters up to
    the end, where [$] also matches just before one final newline. *)
Definition suffix_matches (s : list ascii) : bool :=
  let core :=
    match rev s with
    | c :: before => if Ascii.eqb c newline then rev before else s
    | [] => s
    end in
  match core with
  | [] => false
  | _ => forallb secret_suffix_class core
  end.

(** [re.sub(r"[^a-zA-Z0-9_.-/]", "_", s)] *)
Definition replace_disallowed (s : list ascii) : list ascii :=
  map (fun c => if secret_body_class c then c else "_"%char) s.

(** [re.sub(r"/+", "/", s)]: a slash followed by a slash is dropped. *)
Fixpoint collapse_slashes (s : list ascii) : list ascii :=
  match s with
  | [] => []
  | c :: rest =>
      match rest with
      | c' :: _ =>
          if (Ascii.eqb c "/" && Ascii.eqb c' "/")%bool
          then collapse_slashes rest
          else c :: collapse_slashes rest
      | [] => [c]
      end
  end.

Fixpoint lstrip (x : ascii) (s : list ascii) : list ascii :=
  match s with
  | c :: rest => if Ascii.eqb c x then lstrip x rest else s
  | [] => []
  end.

Definition rstrip (x : ascii) (s : list ascii) : list ascii :=
  rev (lstrip x (rev s)).

Definition strip (x : ascii) (s : list ascii) : list ascii :=
  rstrip x (lstrip x s).

(** [s[:n]] for any integer [n]: a negative bound counts from the end. *)
Definition slice_to (n : Z) (s : list ascii) : list ascii :=
  if 0 <=? n then firstn (Z.to_nat n) s
  else firstn (List.length s - Z.to_nat (- n)) s.

Definition len (s : list ascii) : Z := Z.of_nat (List.length s).

(** The sanitized body of [_sanitize_secret_name], before the suffix is
    appended. *)
Definition secret_name_body (name random_suffix : list ascii) : result (list ascii) :=
  if negb (suffix_matches random_suffix) then Raise RuntimeError
  else
    let sanitized := replace_disallowed name in
    let sanitized := collapse_slashes sanitized in
    let sanitized := strip "/" sanitized in
    match sanitized with
    | [] => Raise ValueError
    | _ =>
        let max_base_length := 512 - len random_suffix - 1 in
        let sanitized :=
          if max_base_length <? len sanitized
          then rstrip "/" (slice_to max_base_length sanitized)
          else sanitized in
        match sanitized with
        | [] => Raise ValueError
        | _ => Ok sanitized
        end
    end.

(** [_sanitize_secret_name]: [f"{sanitized}_{random_suffix}"] *)
Definition _sanitize_secret_name (name random_suffix : string) : result string :=
  let* sanitized :=
    secret_name_body (list_ascii_of_string name) (list_ascii_of_string random_suffix) in
  Ok (string_of_list_ascii sanitized ++ "_" ++ random_suffix)%string.

(** [_get_secret_name]; [endpoint_id] is [str(endpoint_id)]. *)
Definition _get_secret_name (endpoint_name endpoint_id prefix : string) : result string :=
  let endpoint_id_short := String.substring 0 8 endpoint_id in
  let raw_name := (prefix ++ endpoint_name)%string in
  _sanitize_secret_name raw_name endpoint_id_short.

Definition hyphen : ascii := "-"%char.

(** ** Deployer settings *)

(** The fields of [AWSDeployerSettings] (declared in
    [aws_deployer_flavor.py], outside the files at hand) that the modelled
    functions read. *)
Record AWSDeployerSettings := {
  is_publicly_accessible : bool;
  ingress_vpc_configuration : option string;
  encryption_kms_key : option string;
  use_secrets_manager : bool;
  secret_name_prefix : string;
  environment_variables : gmap string string
}.

(** ** EndpointReconciler: replacement decision *)

Definition empty_dict : pyval := PDict ∅.

(** [_requires_service_replacement] *)
Definition _requires_service_replacement
    (existing_service : pyval) (settings : AWSDeployerSettings) : result bool :=
  let* network_config := py_get existing_service "NetworkConfiguration" empty_dict in
  let* ingress_config := py_get network_config "IngressConfiguration" empty_dict in
  let* current_public_access := py_get ingress_config "IsPubliclyAccessible" PNone in
  if negb (py_eq_bool current_public_access (is_publicly_accessible settings))
  then Ok true
  else
    let* current_vpc_config := py_get network_config "EgressConfiguration" empty_dict in
    let* vpc_connector_arn := py_get current_vpc_config "VpcConnectorArn" PNone in
    let has_current_vpc := truthy vpc_connector_arn in
    let will_have_vpc := truthy_optstr (ingress_vpc_configuration settings) in
    if negb (Bool.eqb has_current_vpc will_have_vpc)
    then Ok true
    else
      let* current_encryption := py_get existing_service "EncryptionConfiguration" empty_dict in
      let* current_kms_key := py_get current_encryption "KmsKey" PNone in
      if negb (py_eq_optstr current_kms_key (encryption_kms_key settings))
      then Ok true
      else Ok false.

(** The branch of [do_provision_pipeline_endpoint] that the decision feeds
    (lines 1350-1366 and 1546-1630 of the source):
    [if existing_service and self._requires_service_replacement(...)]
    deprovisions and forgets the service, and [if existing_service:] then
    chooses [update_service] over [create_service].  [existing_service]
    is what [_get_app_runner_service] returned, [PNone] for [None]. *)
Inductive provision_path :=
| UpdateInPlace
| ReplaceThenCreate
| CreateFresh.

Definition provision_decision
    (existing_service : pyval) (settings : AWSDeployerSettings)
    : result provision_path :=
  if truthy existing_service then
    let* replace := _requires_service_replacement existing_service settings in
    Ok (if replace then ReplaceThenCreate else UpdateInPlace)
  else Ok CreateFresh.

(** The three properties the specification names, read off a service
    description without failing: a missing level reads as absent. *)
Definition lookup1 (v : pyval) (key : string) : option pyval :=
  match v with
  | PDict d => d !! key
  | _ => None
  end.


Definition or_none (o : option pyval) : pyval :=
  match o with Some v => v | None => PNone end.







(** A description whose configuration blocks, where present, are dicts (as
    [describe_service] answers). *)
Definition is_dict (v : pyval) : Prop :=
  match v with PDict _ => True | _ => False end.



(** [service[key] = value] on a dict (any other value is left alone). *)
Definition py_set (v : pyval) (key : string) (value : pyval) : pyval :=
  match v with
  | PDict d => PDict (<[key := value]> d)
  | _ => v
  end.

(** A service that is public, has no VPC connector and no key, against
    settings that ask for the same: a new image alone is an update, a
    switch to private is a replacement. *)
Definition public_service (image : string) : pyval :=
  PDict (<["SourceConfiguration" :=
             PDict (<["ImageRepository" :=
                        PDict (<["ImageIdentifier" := PStr image]> ∅)]> ∅)]>
         (<["NetworkConfiguration" :=
             PDict (<["IngressConfiguration" :=
                        PDict (<["IsPubliclyAccessible" := PBool true]> ∅)]> ∅)]>
         (<["ServiceArn" := PStr "arn:svc"]> ∅))).

Definition plain_settings (public : bool) : AWSDeployerSettings :=
  {| is_publicly_accessible := public;
     ingress_vpc_configuration := None;
     encryption_kms_key := None;
     use_secrets_manager := true;
     secret_name_prefix := "zenml-";
     environment_variables := ∅ |}.

(** ** Remote calls, logging and the deployer's effects *)

(** The boto3 operations the modelled methods issue, with the arguments
    they pass.  A secret's JSON text ([json.dumps(secrets)]) is carried as
    the map it encodes. *)
Inductive call :=
| update_secret (SecretId : string) (SecretString : gmap string string)
| create_secret (Name : string) (SecretString : gmap string string)
    (Description : string) (Tags : list (string * string))
| describe_secret (SecretId : string)
| delete_secret (SecretId : string)
| describe_auto_scaling_configuration (AutoScalingConfigurationArn : string)
| create_auto_scaling_configuration (AutoScalingConfigurationName : string)
    (MaxConcurrency MaxSize MinSize : Z) (Tags : list (string * string))
| delete_auto_scaling_configuration (AutoScalingConfigurationArn : string)
| describe_service (ServiceArn : string)
| delete_service (ServiceArn : string)
| describe_log_streams (logGroupName : string)
| get_log_events (logGroupName logStreamName : string).

(** Remote writes: the operations that create, change or delete. *)
Definition is_write (c : call) : bool :=
  match c with
  | update_secret _ _ | create_secret _ _ _ _ | delete_secret _
  | create_auto_scaling_configuration _ _ _ _ _
  | delete_auto_scaling_configuration _ | delete_service _ => true
  | _ => false
  end.

(** The clean-up of the auxiliary resources of an endpoint. *)
Definition is_aux_cleanup (c : call) : bool :=
  match c with
  | delete_secret _ | delete_auto_scaling_configuration _ => true
  | _ => false
  end.

Inductive level := DEBUG | WARNING | EXCEPTION.

(** The state threaded through a method: the remote world, the calls made
    so far (oldest first) and the log records emitted. *)
Record St (World : Type) := {
  world : World;
  trace : list call;
  log : list (level * string)
}.
Arguments world {World} s.
Arguments trace {World} s.
Arguments log {World} s.

Definition M (World A : Type) : Type := St World -> result A * St World.

Definition ret {W A} (a : A) : M W A := fun s => (Ok a, s).

Definition raise {W A} (e : exn) : M W A := fun s => (Raise e, s).

Definition bind {W A B} (m : M W A) (k : A -> M W B) : M W B :=
  fun s =>
    match m s with
    | (Ok a, s') => k a s'
    | (Raise e, s') => (Raise e, s')
    end.

Notation "'let!' x ':=' m 'in' k" := (bind m (fun x => k))
  (at level 10, x name, m at level 200, k at level 200, only parsing).
Notation "m ';;' k" := (bind m (fun _ => k))
  (at level 100, k at level 200, right associativity, only parsing).

(** A pure, possibly failing step inside a method. *)
Definition lift {W A} (r : result A) : M W A := fun s => (r, s).

(** [try: m  except ... as e: handler e]; a handler that does not catch
    [e] raises it again. *)
Definition try_except {W A} (m : M W A) (handler : exn -> M W A) : M W A :=
  fun s =>
    match m s with
    | (Ok a, s') => (Ok a, s')
    | (Raise e, s') => handler e s'
    end.

(** [logger.debug], [logger.warning], [logger.exception] *)
Definition logger {W} (l : level) (message : string) : M W unit :=
  fun s => (Ok tt, {| world := world s; trace := trace s;
                      log := log s ++ [(l, message)] |}).

(** One boto3 call against the remote world. *)
Definition invoke {W} (remote : call -> W -> result pyval * W) (c : call)
    : M W pyval :=
  fun s =>
    let '(r, w) := remote c (world s) in
    (r, {| world := w; trace := trace s ++ [c]; log := log s |}).

(** ** Endpoints and operational state *)

(** [AppRunnerPipelineEndpointMetadata], the fields the methods read. *)
Record AppRunnerPipelineEndpointMetadata := {
  service_name : option string;
  service_arn : option string;
  region : option string;
  secret_arn : option string;
  auto_scaling_configuration_arn : option string
}.

(** [PipelineEndpointResponse]: [ep_name] and [ep_id] are [endpoint.name]
    and [str(endpoint.id)]; [endpoint_metadata] is the stored blob as
    pydantic validates it, [None] when [model_validate] rejects it. *)
Record PipelineEndpointResponse := {
  ep_name : string;
  ep_id : string;
  endpoint_metadata : option AppRunnerPipelineEndpointMetadata
}.

(** [AppRunnerPipelineEndpointMetadata.from_endpoint] *)
Definition from_endpoint (endpoint : PipelineEndpointResponse)
    : result AppRunnerPipelineEndpointMetadata :=
  match endpoint_metadata endpoint with
  | Some m => Ok m
  | None => Raise ValidationError
  end.

Inductive PipelineEndpointStatus := UNKNOWN | PENDING | RUNNING | ERROR | ABSENT.

(** [PipelineEndpointOperationalState]; [url] defaults to [None]. *)
Record PipelineEndpointOperationalState := {
  status : PipelineEndpointStatus;
  url : pyval;
  metadata : pyval
}.

Definition status_eqb (a b : PipelineEndpointStatus) : bool :=
  match a, b with
  | UNKNOWN, UNKNOWN | PENDING, PENDING | RUNNING, RUNNING
  | ERROR, ERROR | ABSENT, ABSENT => true
  | _, _ => false
  end.

(** A truthy [Optional[str]] and its text. *)
Definition nonempty (o : option string) : option string :=
  match o with
  | Some s => if String.eqb s "" then None else Some s
  | None => None
  end.

Definition optstr_val (o : option string) : pyval :=
  match o with
  | Some s => PStr s
  | None => PNone
  end.

Definition is_none (v : pyval) : bool :=
  match v with PNone => true | _ => false end.

Definition ResourceNotFoundException : string := "ResourceNotFoundException".

Definition is_client_or_botocore (e : exn) : bool :=
  match e with
  | ClientError _ | BotoCoreError => true
  | _ => false
  end.

(** [v.upper()] and [v.startswith(p)] exist on a [str] only. *)
Definition py_upper (v : pyval) : result string :=
  match v with
  | PStr s => Ok (upper s)
  | _ => Raise AttributeError
  end.

(** Iterating a value: the items of a list, the keys of a dict, the
    characters of a string. *)
Definition py_iter (v : pyval) : result (list pyval) :=
  match v with
  | PList l => Ok l
  | PDict d => Ok (map (fun kv => PStr (fst kv)) (map_to_list d))
  | PStr s => Ok (map (fun c => PStr (String c EmptyString)) (list_ascii_of_string s))
  | _ => Raise TypeError
  end.

(** ** Generators and sorted log lines *)

(** A generator object whose body computes all of its items before the
    first [yield]: iterating it runs the body once. *)
Record generator (World A : Type) := {
  gen_body : M World (list A)
}.
Arguments gen_body {World A} g.

(** [list(gen)]: run the generator to exhaustion. *)
Definition drain {W A} (g : generator W A) : M W (list A) := gen_body g.

(** [next(gen)] on a fresh generator: the first item, [None] for
    [StopIteration]. *)
Definition first_next {W A} (g : generator W A) : M W (option A) :=
  let! items := gen_body g in
  ret (List.head items).

(** [list.sort()] on strings: insertion into code-point order. *)
Fixpoint insert_line (x : string) (l : list string) : list string :=
  match l with
  | [] => [x]
  | y :: rest => if String.leb x y then x :: l else y :: insert_line x rest
  end.

Definition sort_lines (l : list string) : list string :=
  fold_right insert_line [] l.

(** ** The deployer's methods *)

(** [f"{secret_arn}:{key}::"], kept as its two parts. *)
Record secret_ref := {
  ref_secret_arn : pyval;
  ref_key : string
}.

Section Deployer.

(** The remote platform: any world and any way it answers calls. *)
Variable World : Type.
Variable remote : call -> World -> result pyval * World.

(** [self.name] and [str(self.id)] of the deployer component. *)
Variable deployer_name deployer_id : string.

(** [AppRunnerPipelineEndpointMetadata.from_app_runner_service] followed
    by [model_dump(exclude_none=True)]: the metadata blob of a service
    description.  Status and URL are computed without reading it, so it
    is left to the caller of the model. *)
Variable from_app_runner_service : pyval -> string -> pyval -> result pyval.

(** Lines 1761-1768: the timestamp of an event rendered by [datetime]
    and joined with its message, [f"[{formatted_time}] {message}"]. *)
Variable format_log_line : pyval -> pyval -> result string.

(** [_poll_pipeline_endpoint], inherited from the base deployer, which is
    outside the files at hand. *)
Variable _poll_pipeline_endpoint :
  PipelineEndpointResponse -> PipelineEndpointStatus -> Z ->
  M World (PipelineEndpointResponse * PipelineEndpointOperationalState).

Definition zenml_tags (endpoint : PipelineEndpointResponse)
    : list (string * string) :=
  [ ("zenml-pipeline-endpoint-uuid", ep_id endpoint);
    ("zenml-pipeline-endpoint-name", ep_name endpoint);
    ("zenml-deployer-name", deployer_name);
    ("zenml-deployer-id", deployer_id);
    ("managed-by", "zenml") ]%string.

(** [_create_or_update_secret] *)
Definition _create_or_update_secret (secret_name : string)
    (secret_value : gmap string string) (endpoint : PipelineEndpointResponse)
    : M World pyval :=
  try_except
    (try_except
       (let! response := invoke remote (update_secret secret_name secret_value) in
        logger DEBUG "Updated existing secret" ;;
        lift (py_item response "ARN"))
       (fun e =>
          match e with
          | ClientError code =>
              if String.eqb code ResourceNotFoundException then
                logger DEBUG "Creating new secret" ;;
                let! response :=
                  invoke remote
                    (create_secret secret_name secret_value
                       ("ZenML pipeline endpoint secret for " ++ ep_name endpoint)
                       (zenml_tags endpoint)) in
                logger DEBUG "Created new secret" ;;
                lift (py_item response "ARN")
              else raise e
          | _ => raise e
          end))
    (fun e => if is_client_or_botocore e then raise DeployerError else raise e).

(** [_get_secret_arn] *)
Definition _get_secret_arn (endpoint : PipelineEndpointResponse)
    : M World (option string) :=
  let! metadata := lift (from_endpoint endpoint) in
  match nonempty (secret_arn metadata) with
  | None => ret None
  | Some arn =>
      try_except
        (invoke remote (describe_secret arn) ;;
         ret (Some arn))
        (fun e =>
           match e with
           | ClientError code =>
               if String.eqb code ResourceNotFoundException then ret None
               else (logger EXCEPTION "Failed to verify secret" ;; ret None)
           | _ => raise e
           end)
  end.

(** [_delete_secret] *)
Definition _delete_secret (secret_arn : string) : M World unit :=
  try_except
    (invoke remote (delete_secret secret_arn) ;;
     logger DEBUG "Deleted secret")
    (fun e =>
       match e with
       | ClientError code =>
           if String.eqb code ResourceNotFoundException
           then logger DEBUG "Secret not found, skipping deletion"
           else logger EXCEPTION "Failed to delete secret"
       | _ => raise e
       end).

(** [_cleanup_endpoint_secrets] *)
Definition _cleanup_endpoint_secrets (endpoint : PipelineEndpointResponse)
    : M World unit :=
  let! secret_arn := _get_secret_arn endpoint in
  match secret_arn with
  | Some arn => _delete_secret arn
  | None => ret tt
  end.

(** [_get_auto_scaling_config_arn]: any failure reads as [None]. *)
Definition _get_auto_scaling_config_arn (endpoint : PipelineEndpointResponse)
    : option string :=
  match from_endpoint endpoint with
  | Ok metadata => auto_scaling_configuration_arn metadata
  | Raise _ => None
  end.

(** The body of [if existing_arn:] in
    [_create_or_update_auto_scaling_config]: [Some arn] when the method
    returns from inside it, [None] when control falls through to the
    creation. *)
Definition reuse_existing_config (existing_arn : string)
    (min_size max_size max_concurrency : Z) : M World (option pyval) :=
  try_except
    (let! response :=
       invoke remote (describe_auto_scaling_configuration existing_arn) in
     let! existing_config := lift (py_item response "AutoScalingConfiguration") in
     let! mc := lift (py_item existing_config "MaxConcurrency") in
     if py_eq_int mc max_concurrency then
       let! ms := lift (py_item existing_config "MaxSize") in
       if py_eq_int ms max_size then
         let! mn := lift (py_item existing_config "MinSize") in
         if py_eq_int mn min_size then
           logger DEBUG "Auto-scaling configuration is up to date" ;;
           ret (Some (PStr existing_arn))
         else ret None
       else ret None
     else ret None)
    (fun e =>
       match e with
       | ClientError code =>
           if negb (String.eqb code "InvalidRequestException") then raise e
           else
             logger DEBUG
               "Existing auto-scaling configuration not found, creating new one" ;;
             ret None
       | _ => raise e
       end).

(** [_create_or_update_auto_scaling_config] *)
Definition _create_or_update_auto_scaling_config (config_name : string)
    (min_size max_size max_concurrency : Z)
    (endpoint : PipelineEndpointResponse) : M World pyval :=
  try_except
    (let tags := zenml_tags endpoint in
     let existing_arn := _get_auto_scaling_config_arn endpoint in
     let! returned :=
       match nonempty existing_arn with
       | Some arn => reuse_existing_config arn min_size max_size max_concurrency
       | None => ret None
       end in
     match returned with
     | Some arn => ret arn
     | None =>
         logger DEBUG "Creating auto-scaling configuration" ;;
         let! response :=
           invoke remote
             (create_auto_scaling_configuration config_name
                max_concurrency max_size min_size tags) in
         let! created := lift (py_item response "AutoScalingConfiguration") in
         lift (py_item created "AutoScalingConfigurationArn")
     end)
    (fun e => if is_client_or_botocore e then raise DeployerError else raise e).

(** [_cleanup_endpoint_auto_scaling_config]: every failure of the
    deletion is logged and swallowed. *)
Definition _cleanup_endpoint_auto_scaling_config
    (endpoint : PipelineEndpointResponse) : M World unit :=
  match nonempty (_get_auto_scaling_config_arn endpoint) with
  | Some config_arn =>
      try_except
        (logger DEBUG "Deleting auto-scaling configuration" ;;
         invoke remote (delete_auto_scaling_configuration config_arn) ;;
         ret tt)
        (fun e =>
           match e with
           | ClientError code =>
               if String.eqb code ResourceNotFoundException
               then logger DEBUG "Auto-scaling configuration not found, skipping deletion"
               else logger WARNING "Failed to delete auto-scaling configuration"
           | _ => logger WARNING "Failed to delete auto-scaling configuration"
           end)
  | None => ret tt
  end.

(** [_prepare_environment_variables]: the result is
    [(env_vars, secret_refs, active_secret_arn)]. *)
Definition _prepare_environment_variables
    (endpoint : PipelineEndpointResponse)
    (environment secrets : gmap string string)
    (settings : AWSDeployerSettings)
    : M World (gmap string string * gmap string secret_ref * pyval) :=
  (* [{**settings.environment_variables, **environment}] *)
  let env_vars : gmap string string :=
    environment ∪ environment_variables settings in
  if bool_decide (secrets = ∅) then ret (env_vars, ∅, PNone)
  else if use_secrets_manager settings then
    let! secret_name :=
      lift (_get_secret_name (ep_name endpoint) (ep_id endpoint)
              (secret_name_prefix settings)) in
    let! prepared :=
      try_except
        (let! secret_arn := _create_or_update_secret secret_name secrets endpoint in
         let secret_refs : gmap string secret_ref :=
           map_imap (fun key _ =>
                       Some {| ref_secret_arn := secret_arn; ref_key := key |})
                    secrets in
         logger DEBUG "Secret stored" ;;
         ret (env_vars, secret_refs, secret_arn))
        (fun e =>
           logger WARNING "Failed to create secret, falling back to direct env vars" ;;
           ret (secrets ∪ env_vars, ∅, PNone)) in
    let active_secret_arn := snd prepared in
    let! existing_secret_arn := _get_secret_arn endpoint in
    match nonempty existing_secret_arn with
    | Some existing =>
        if negb (py_eq_optstr active_secret_arn (Some existing))
        then (_delete_secret existing ;; ret prepared)
        else ret prepared
    | None => ret prepared
    end
  else
    logger WARNING "Storing secrets directly in environment variables" ;;
    ret (secrets ∪ env_vars, ∅, PNone).

(** [_get_app_runner_service]; [PNone] is Python's [None]. *)
Definition _get_app_runner_service (endpoint : PipelineEndpointResponse)
    : M World pyval :=
  let! existing_metadata := lift (from_endpoint endpoint) in
  match nonempty (service_arn existing_metadata) with
  | None => ret PNone
  | Some arn =>
      try_except
        (let! response := invoke remote (describe_service arn) in
         lift (py_item response "Service"))
        (fun e =>
           match e with
           | ClientError code =>
               if String.eqb code ResourceNotFoundException then ret PNone
               else raise e
           | _ => raise e
           end)
  end.

(** [_get_service_operational_state] *)
Definition _get_service_operational_state (service : pyval) (region : string)
    (secret_arn : pyval) : result PipelineEndpointOperationalState :=
  let* metadata := from_app_runner_service service region secret_arn in
  let state := {| status := UNKNOWN; url := PNone; metadata := metadata |} in
  let* raw_status := py_get service "Status" (PStr "") in
  let* service_status := py_upper raw_status in
  if (String.eqb service_status "CREATE_FAILED"
      || String.eqb service_status "DELETE_FAILED")%bool then
    Ok {| status := ERROR; url := url state; metadata := metadata |}
  else if String.eqb service_status "OPERATION_IN_PROGRESS" then
    Ok {| status := PENDING; url := url state; metadata := metadata |}
  else if String.eqb service_status "RUNNING" then
    let* service_url := py_get service "ServiceUrl" PNone in
    if truthy service_url then
      match service_url with
      | PStr u =>
          if negb (String.prefix "https://" u)
          then Ok {| status := RUNNING; url := PStr ("https://" ++ u);
                     metadata := metadata |}
          else Ok {| status := RUNNING; url := service_url; metadata := metadata |}
      | _ => Raise AttributeError
      end
    else Ok {| status := RUNNING; url := service_url; metadata := metadata |}
  else if String.eqb service_status "DELETED" then
    Ok {| status := ABSENT; url := url state; metadata := metadata |}
  else if String.eqb service_status "PAUSED" then
    Ok {| status := PENDING; url := url state; metadata := metadata |}
  else
    Ok {| status := UNKNOWN; url := url state; metadata := metadata |}.

(** [do_get_pipeline_endpoint] *)
Definition do_get_pipeline_endpoint (endpoint : PipelineEndpointResponse)
    : M World PipelineEndpointOperationalState :=
  let! service := _get_app_runner_service endpoint in
  if is_none service then raise PipelineEndpointNotFoundError
  else
    let! existing_metadata := lift (from_endpoint endpoint) in
    match nonempty (region existing_metadata) with
    | None => raise RuntimeError
    | Some region =>
        let! existing_secret_arn := _get_secret_arn endpoint in
        lift (_get_service_operational_state service region
                (optstr_val existing_secret_arn))
    end.

(** The part of [do_deprovision_pipeline_endpoint] before the polling
    (lines 1820-1856): find the service and ask for its deletion. *)
Definition request_deletion (endpoint : PipelineEndpointResponse)
    : M World unit :=
  let! service := _get_app_runner_service endpoint in
  if is_none service then raise PipelineEndpointNotFoundError
  else
    try_except
      (let! existing_metadata := lift (from_endpoint endpoint) in
       match nonempty (service_arn existing_metadata) with
       | None => raise RuntimeError
       | Some arn =>
           logger DEBUG "Deleting App Runner service" ;;
           invoke remote (delete_service arn) ;;
           ret tt
       end)
      (fun e =>
         match e with
         | ClientError code =>
             if String.eqb code ResourceNotFoundException
             then raise PipelineEndpointNotFoundError
             else raise PipelineEndpointDeprovisionError
         | _ => raise DeployerError
         end).

(** The part after the polling has confirmed [ABSENT] (lines 1870-1882). *)
Definition cleanup_auxiliary (endpoint_before_deletion : PipelineEndpointResponse)
    : M World unit :=
  try_except
    (_cleanup_endpoint_secrets endpoint_before_deletion ;;
     _cleanup_endpoint_auto_scaling_config endpoint_before_deletion)
    (fun e => raise DeployerError).

(** [do_deprovision_pipeline_endpoint] *)
Definition do_deprovision_pipeline_endpoint
    (endpoint : PipelineEndpointResponse) (timeout : Z)
    : M World (option PipelineEndpointOperationalState) :=
  request_deletion endpoint ;;
  let endpoint_before_deletion := endpoint in
  let! polled := _poll_pipeline_endpoint endpoint ABSENT timeout in
  let endpoint_state := snd polled in
  if negb (status_eqb (status endpoint_state) ABSENT)
  then ret (Some endpoint_state)
  else
    cleanup_auxiliary endpoint_before_deletion ;;
    ret None.

(** The runs of the deprovisioning, by the point they end at: [s] is the
    state at the call, the result and the final state are the indices. *)
Inductive deprovision_run (endpoint : PipelineEndpointResponse) (timeout : Z)
    (s : St World)
    : result (option PipelineEndpointOperationalState) -> St World -> Prop :=
| failed_before_polling (e : exn) (s1 : St World) :
    request_deletion endpoint s = (Raise e, s1) ->
    deprovision_run endpoint timeout s (Raise e) s1
| polling_raised (e : exn) (s1 s2 : St World) :
    request_deletion endpoint s = (Ok tt, s1) ->
    _poll_pipeline_endpoint endpoint ABSENT timeout s1 = (Raise e, s2) ->
    deprovision_run endpoint timeout s (Raise e) s2
| ended_not_absent (s1 s2 : St World) (polled : PipelineEndpointResponse)
    (observed : PipelineEndpointOperationalState) :
    request_deletion endpoint s = (Ok tt, s1) ->
    _poll_pipeline_endpoint endpoint ABSENT timeout s1 = (Ok (polled, observed), s2) ->
    status observed <> ABSENT ->
    deprovision_run endpoint timeout s (Ok (Some observed)) s2
| absent_then_cleanup (s1 s2 s3 : St World) (polled : PipelineEndpointResponse)
    (observed : PipelineEndpointOperationalState) (cleaned : result unit) :
    request_deletion endpoint s = (Ok tt, s1) ->
    _poll_pipeline_endpoint endpoint ABSENT timeout s1 = (Ok (polled, observed), s2) ->
    status observed = ABSENT ->
    cleanup_auxiliary endpoint s2 = (cleaned, s3) ->
    deprovision_run endpoint timeout s
      (match cleaned with Ok _ => Ok None | Raise e => Raise e end) s3.

(** The inner loop of the log retrieval: one line per event. *)
Fixpoint format_events (events : list pyval) : result (list string) :=
  match events with
  | [] => Ok []
  | event :: rest =>
      let* timestamp := py_get event "timestamp" (PInt 0) in
      let* message := py_get event "message" (PStr "") in
      let* log_line := format_log_line timestamp message in
      let* lines := format_events rest in
      Ok (log_line :: lines)
  end.

(** The outer loop: the events of every stream, in stream order. *)
Fixpoint collect_log_lines (log_group_name : string) (streams : list pyval)
    : M World (list string) :=
  match streams with
  | [] => ret []
  | stream :: rest =>
      let! stream_name := lift (py_item stream "logStreamName") in
      match stream_name with
      | PStr stream_name =>
          let! events_response :=
            invoke remote (get_log_events log_group_name stream_name) in
          let! events_value :=
            lift (py_get events_response "events" (PList [])) in
          let! events := lift (py_iter events_value) in
          let! lines := lift (format_events events) in
          let! more := collect_log_lines log_group_name rest in
          ret (lines ++ more)
      | _ => raise BotoCoreError   (* boto3 rejects a name that is no string *)
      end
  end.

(** [log_lines[-tail:]] under [tail is not None and tail > 0] *)
Definition apply_tail (tail : option Z) (log_lines : list string) : list string :=
  match tail with
  | Some t =>
      if 0 <? t then skipn (List.length log_lines - Z.to_nat t) log_lines
      else log_lines
  | None => log_lines
  end.

(** The body of the generator function [do_get_pipeline_endpoint_logs].
    Every line is computed before the first [yield], so the body is the
    list of lines it yields, or the exception it raises before yielding
    anything. *)
Definition logs_body (endpoint : PipelineEndpointResponse) (follow : bool)
    (tail : option Z) : M World (list string) :=
  if follow then raise NotImplementedError
  else
    let! service := _get_app_runner_service endpoint in
    if is_none service then raise PipelineEndpointNotFoundError
    else
      try_except
        (let! existing_metadata := lift (from_endpoint endpoint) in
         match nonempty (service_name existing_metadata) with
         | None => raise RuntimeError
         | Some service_name =>
             let log_group_name :=
               ("/aws/apprunner/" ++ service_name ++ "/service")%string in
             try_except
               (let! streams_response :=
                  invoke remote (describe_log_streams log_group_name) in
                let! streams_value :=
                  lift (py_get streams_response "logStreams" (PList [])) in
                let! streams := lift (py_iter streams_value) in
                let! log_lines := collect_log_lines log_group_name streams in
                ret (apply_tail tail (sort_lines log_lines)))
               (fun e =>
                  match e with
                  | ClientError code =>
                      if String.eqb code ResourceNotFoundException
                      then raise PipelineLogsNotFoundError
                      else raise e
                  | _ => raise e
                  end)
         end)
        (fun e =>
           if is_client_or_botocore e then raise PipelineLogsNotFoundError
           else raise DeployerError).

(** [do_get_pipeline_endpoint_logs]: the function contains [yield], so a
    call runs none of its body and hands back a generator object. *)
Definition do_get_pipeline_endpoint_logs (endpoint : PipelineEndpointResponse)
    (follow : bool) (tail : option Z) : M World (generator World string) :=
  ret {| gen_body := logs_body endpoint follow tail |}.

End Deployer.

(** ** A poller after the specification, and a small remote platform *)

(** Modelled from the spec: the OperationPoller of section 4.6 (the method
    [_poll_pipeline_endpoint] is inherited from the base deployer, outside
    the files at hand).  It fetches, stops on the target status or on
    [ERROR], and otherwise fetches again while the time allows; time is
    counted in polling intervals, [refetches] being the number of
    intervals that fit in the timeout.  On timeout the last observed state
    is returned. *)
Fixpoint poll_until {W} (fetch : M W PipelineEndpointOperationalState)
    (target : PipelineEndpointStatus) (refetches : nat)
    : M W PipelineEndpointOperationalState :=
  let! observed := fetch in
  if (status_eqb (status observed) target || status_eqb (status observed) ERROR)%bool
  then ret observed
  else
    match refetches with
    | O => ret observed
    | S n => poll_until fetch target n
    end.

(** A remote platform for examples.  [describe_answers] are the statuses
    that successive [describe_service] calls report (none left: the
    service is gone); [secrets_reachable] tells whether Secrets Manager
    answers at all; [scaling_config] is the stored auto-scaling
    configuration, [(MaxConcurrency, MaxSize, MinSize)]. *)
Record FakeWorld := {
  describe_answers : list string;
  secrets_reachable : bool;
  scaling_config : option (Z * Z * Z)
}.

Definition fake_asc_arn : string := "arn:aws:apprunner:asc/zenml/1".
Definition fake_secret_arn : string := "arn:aws:secretsmanager:secret/zenml".

Definition dict_of (l : list (string * pyval)) : pyval := PDict (list_to_map l).

Definition fake_remote (c : call) (w : FakeWorld) : result pyval * FakeWorld :=
  match c with
  | describe_service arn =>
      match describe_answers w with
      | st :: rest =>
          (Ok (dict_of [("Service",
                 dict_of [("ServiceArn", PStr arn); ("Status", PStr st);
                          ("ServiceUrl", PStr "abc.awsapprunner.com")])]%string),
           {| describe_answers := rest;
              secrets_reachable := secrets_reachable w;
              scaling_config := scaling_config w |})
      | [] => (Raise (ClientError ResourceNotFoundException), w)
      end
  | delete_service _ => (Ok (dict_of []), w)
  | update_secret _ _ | create_secret _ _ _ _ =>
      if secrets_reachable w
      then (Ok (dict_of [("ARN", PStr fake_secret_arn)]%string), w)
      else (Raise BotoCoreError, w)
  | describe_secret _ | delete_secret _ =>
      if secrets_reachable w then (Ok (dict_of []), w)
      else (Raise BotoCoreError, w)
  | describe_auto_scaling_configuration _ =>
      match scaling_config w with
      | Some (mc, ms, mn) =>
          (Ok (dict_of [("AutoScalingConfiguration",
                 dict_of [("MaxConcurrency", PInt mc); ("MaxSize", PInt ms);
                          ("MinSize", PInt mn)])]%string), w)
      | None => (Raise (ClientError "InvalidRequestException"), w)
      end
  | create_auto_scaling_configuration _ mc ms mn _ =>
      (Ok (dict_of [("AutoScalingConfiguration",
             dict_of [("AutoScalingConfigurationArn", PStr fake_asc_arn)])]%string),
       {| describe_answers := describe_answers w;
          secrets_reachable := secrets_reachable w;
          scaling_config := Some (mc, ms, mn) |})
  | delete_auto_scaling_configuration _ =>
      (Ok (dict_of []),
       {| describe_answers := describe_answers w;
          secrets_reachable := secrets_reachable w;
          scaling_config := None |})
  | describe_log_streams _ => (Ok (dict_of [("logStreams", PList [])]%string), w)
  | get_log_events _ _ => (Ok (dict_of [("events", PList [])]%string), w)
  end.

(** A stand-in for the metadata blob where a concrete one is needed: it
    records the region only. *)
Definition region_only_metadata (service : pyval) (region : string)
    (secret_arn : pyval) : result pyval :=
  Ok (dict_of [("region", PStr region)]%string).

(** A stand-in for the rendering of a log line: the message text. *)
Definition message_only_line (timestamp message : pyval) : result string :=
  match message with
  | PStr m => Ok m
  | _ => Ok ""%string
  end.

(** The poller of the examples: [poll_until] over
    [do_get_pipeline_endpoint], with a polling interval of 5 seconds. *)
Definition fake_poller (endpoint : PipelineEndpointResponse)
    (desired : PipelineEndpointStatus) (timeout : Z)
    : M FakeWorld (PipelineEndpointResponse * PipelineEndpointOperationalState) :=
  let! observed :=
    poll_until
      (do_get_pipeline_endpoint FakeWorld fake_remote region_only_metadata endpoint)
      desired (Z.to_nat (timeout / 5)) in
  ret (endpoint, observed).

Definition initial_state (w : FakeWorld) : St FakeWorld :=
  {| world := w; trace := []; log := [] |}.

(** An endpoint of the examples, with what a previous provisioning has
    recorded. *)
Definition example_endpoint (secret scaling : option string)
    : PipelineEndpointResponse :=
  {| ep_name := "my-endpoint";
     ep_id := "a1b2c3d4-0000-4000-8000-000000000000";
     endpoint_metadata :=
       Some {| service_name := Some "zenml-my-endpoint-a1b2c3d4"%string;
               service_arn := Some "arn:aws:apprunner:service/zenml"%string;
               region := Some "eu-central-1"%string;
               secret_arn := secret;
               auto_scaling_configuration_arn := scaling |} |}.

(** ** Operational state: what the specification says of the URL *)

(** The invariant as the specification words it. *)
Definition url_iff_running (st : PipelineEndpointOperationalState) : Prop :=
  truthy (url st) = true <-> status st = RUNNING.

(** The URL the remote service reports, [None] when it reports none. *)
Definition remote_url (service : pyval) : pyval :=
  or_none (lookup1 service "ServiceUrl").

(** The scheme is put in front of a non-empty URL that lacks it. *)
Definition with_https (v : pyval) : pyval :=
  match v with
  | PStr u =>
      if (negb (String.eqb u "") && negb (String.prefix "https://" u))%bool
      then PStr ("https://" ++ u)
      else v
  | _ => v
  end.

Definition running_without_url : pyval :=
  dict_of [("Status", PStr "RUNNING")]%string.

Definition running_service : pyval :=
  dict_of [("Status", PStr "running");
           ("ServiceUrl", PStr "abc.eu-central-1.awsapprunner.com")]%string.

(** ** Scaling policies: what "already equal" means *)

(** A [describe_auto_scaling_configuration] answer whose three values
    equal the desired ones. *)
Definition config_matches (response : pyval) (min_size max_size max_concurrency : Z)
    : Prop :=
  exists cfg mc ms mn,
    py_item response "AutoScalingConfiguration" = Ok cfg /\
    py_item cfg "MaxConcurrency" = Ok mc /\ py_eq_int mc max_concurrency = true /\
    py_item cfg "MaxSize" = Ok ms /\ py_eq_int ms max_size = true /\
    py_item cfg "MinSize" = Ok mn /\ py_eq_int mn min_size = true.

(** The calls made between two states of one run. *)
Definition calls_since {W} (before after : St W) : list call :=
  skipn (List.length (trace before)) (trace after).

(** The state of the example platform after a first provisioning has
    created the scaling policy (1, 25, 100) for an endpoint that had none
    recorded. *)
Definition after_first_ensure : St FakeWorld :=
  snd (_create_or_update_auto_scaling_config FakeWorld fake_remote
         "aws-deployer" "deployer-0001"
         "zenml-my-endpoint-a1b2c3d4" 1 25 100
         (example_endpoint None None)
         (initial_state {| describe_answers := [];
                           secrets_reachable := true;
                           scaling_config := None |})).

(** The example of a platform whose Secrets Manager is unreachable, for an
    endpoint that has a secret recorded from an earlier provisioning. *)
Definition secrets_down : St FakeWorld :=
  initial_state {| describe_answers := [];
                   secrets_reachable := false;
                   scaling_config := None |}.

Definition old_secret_arn : string := "arn:aws:secretsmanager:secret/old".

Definition api_key_secret : gmap string string :=
  {[ "API_KEY"%string := "s3cr3t"%string ]}.

Definition fallback_warning : level * string :=
  (WARNING, "Failed to create secret, falling back to direct env vars"%string).

(** ** Log retrieval: failing at the call *)

(** A method call that raises where it is made. *)
Definition raises_at_call {W A} (m : M W A) (s : St W) : Prop :=
  exists e, fst (m s) = Raise e.

(** ** Deprovisioning examples *)

(** The service is reported running when looked up for deletion and still
    in progress at every later poll: the timeout of 10 seconds allows three
    polls. *)
Definition deletion_stuck : St FakeWorld :=
  initial_state
    {| describe_answers :=
         ["RUNNING"; "OPERATION_IN_PROGRESS"; "OPERATION_IN_PROGRESS";
          "OPERATION_IN_PROGRESS"; "OPERATION_IN_PROGRESS"]%string;
       secrets_reachable := true;
       scaling_config := Some (100, 25, 1) |}.

(** The service is reported deleted at the second poll. *)
Definition deletion_completes : St FakeWorld :=
  initial_state
    {| describe_answers :=
         ["RUNNING"; "OPERATION_IN_PROGRESS"; "DELETED"]%string;
       secrets_reachable := true;
       scaling_config := Some (100, 25, 1) |}.

Definition provisioned_endpoint : PipelineEndpointResponse :=
  example_endpoint (Some old_secret_arn) (Some fake_asc_arn).

Definition service_arn_of_example : string := "arn:aws:apprunner:service/zenml".

(** ** Serving runtime: request-scoped state (runtime.py) *)

(** Python dicts are objects: two names may refer to one dict.  The store
    holds the dict objects that matter for captured outputs, by address:
    the outer dicts [step name -> inner dict] and the inner dicts
    [output name -> value]. *)
Record Store := {
  outers : gmap positive (gmap string positive);
  inners : gmap positive (gmap string pyval)
}.

Definition read_outer (st : Store) (a : positive) : gmap string positive :=
  match outers st !! a with Some d => d | None => ∅ end.

Definition read_inner (st : Store) (b : positive) : gmap string pyval :=
  match inners st !! b with Some d => d | None => ∅ end.

Definition write_outer (st : Store) (a : positive) (d : gmap string positive) : Store :=
  {| outers := <[a := d]> (outers st); inners := inners st |}.

Definition write_inner (st : Store) (b : positive) (d : gmap string pyval) : Store :=
  {| outers := outers st; inners := <[b := d]> (inners st) |}.

(** A new dict object, at an address no object has yet. *)
Definition new_outer (st : Store) (d : gmap string positive) : positive * Store :=
  let a := fresh (dom (outers st)) in (a, write_outer st a d).

Definition new_inner (st : Store) (d : gmap string pyval) : positive * Store :=
  let b := fresh (dom (inners st)) in (b, write_inner st b d).

(** [_DeploymentState]; [outputs] is a reference to an outer dict. *)
Record _DeploymentState := {
  active : bool;
  use_in_memory : bool;
  request_id : option string;
  snapshot_id : option string;
  pipeline_parameters : gmap string pyval;
  outputs : positive;
  in_memory_data : gmap string pyval
}.

(** The store together with the state the context variable holds for the
    running request. *)
Record Runtime := {
  store : Store;
  context : _DeploymentState
}.

(** The default of the context variable: [_DeploymentState()]. *)
Definition initial_runtime : Runtime :=
  let '(a, st) := new_outer {| outers := ∅; inners := ∅ |} ∅ in
  {| store := st;
     context := {| active := false; use_in_memory := false;
                   request_id := None; snapshot_id := None;
                   pipeline_parameters := ∅; outputs := a;
                   in_memory_data := ∅ |} |}.

(** [start]: [_DeploymentState()] allocates an outputs dict, and
    [state.outputs = {}] replaces it by another new one. *)
Definition start (request_id snapshot_id : string)
    (parameters : gmap string pyval) (use_in_memory : bool) (rt : Runtime)
    : Runtime :=
  let '(_, st1) := new_outer (store rt) ∅ in
  let '(a, st2) := new_outer st1 ∅ in
  {| store := st2;
     context := {| active := true; use_in_memory := use_in_memory;
                   request_id := Some request_id;
                   snapshot_id := Some snapshot_id;
                   pipeline_parameters := parameters; outputs := a;
                   in_memory_data := ∅ |} |}.

(** [stop]: [reset] clears the dicts of the state in place. *)
Definition stop (rt : Runtime) : Runtime :=
  {| store := write_outer (store rt) (outputs (context rt)) ∅;
     context := {| active := false; use_in_memory := false;
                   request_id := None; snapshot_id := None;
                   pipeline_parameters := ∅;
                   outputs := outputs (context rt);
                   in_memory_data := ∅ |} |}.

Definition is_active (rt : Runtime) : bool := active (context rt).

(** [record_step_outputs]:
    [state.outputs.setdefault(step_name, {}).update(outputs)] *)
Definition record_step_outputs (step_name : string)
    (new_outputs : gmap string pyval) (rt : Runtime) : Runtime :=
  let state := context rt in
  if negb (active state) then rt
  else if bool_decide (dom new_outputs = ∅) then rt
  else
    let outer := read_outer (store rt) (outputs state) in
    match outer !! step_name with
    | Some b =>
        {| store := write_inner (store rt) b
                      (new_outputs ∪ read_inner (store rt) b);
           context := state |}
    | None =>
        let '(b, st1) := new_inner (store rt) ∅ in
        let st2 := write_outer st1 (outputs state) (<[step_name := b]> outer) in
        {| store := write_inner st2 b (new_outputs ∪ read_inner st2 b);
           context := state |}
    end.

(** [get_outputs]: [dict(_get_context().outputs)] is a new outer dict with
    the same entries, which refer to the same inner dicts. *)
Definition get_outputs (rt : Runtime) : positive * Runtime :=
  let '(r, st) :=
    new_outer (store rt) (read_outer (store rt) (outputs (context rt))) in
  (r, {| store := st; context := context rt |}).

(** What a dict of outputs holds, inner dicts read through. *)
Definition snapshot (st : Store) (a : positive) : gmap string (gmap string pyval) :=
  read_inner st <$> read_outer st a.

(** The calls of the serving process on the runtime. *)
Inductive api_call :=
| Start (request_id snapshot_id : string) (parameters : gmap string pyval)
    (use_in_memory : bool)
| Stop
| RecordStepOutputs (step_name : string) (new_outputs : gmap string pyval)
| GetOutputs.

Definition run_call (rt : Runtime) (c : api_call) : Runtime :=
  match c with
  | Start request_id snapshot_id parameters use_in_memory =>
      start request_id snapshot_id parameters use_in_memory rt
  | Stop => stop rt
  | RecordStepOutputs step_name new_outputs =>
      record_step_outputs step_name new_outputs rt
  | GetOutputs => snd (get_outputs rt)
  end.

Definition run_calls (calls : list api_call) (rt : Runtime) : Runtime :=
  fold_left run_call calls rt.

(** What a caller can do to the dict [r] that [get_outputs] returned. *)
Inductive mutation :=
| set_step (step : string) (step_outputs : gmap string pyval)  (* r[step] = {...} *)
| del_step (step : string)                                      (* r.pop(step, None) *)
| clear_steps                                                   (* r.clear() *)
| set_output (step key : string) (v : pyval)                    (* r[step][key] = v *)
| del_output (step key : string)                                (* r[step].pop(key, None) *)
| clear_outputs (step : string).                                (* r[step].clear() *)

Definition is_top_level (m : mutation) : bool :=
  match m with
  | set_step _ _ | del_step _ | clear_steps => true
  | _ => false
  end.

(** A nested mutation on a step that [r] does not have raises [KeyError]
    and changes nothing. *)
Definition apply_mutation (r : positive) (st : Store) (m : mutation) : Store :=
  match m with
  | set_step step step_outputs =>
      let '(b, st1) := new_inner st step_outputs in
      write_outer st1 r (<[step := b]> (read_outer st1 r))
  | del_step step => write_outer st r (delete step (read_outer st r))
  | clear_steps => write_outer st r ∅
  | set_output step key v =>
      match read_outer st r !! step with
      | Some b => write_inner st b (<[key := v]> (read_inner st b))
      | None => st
      end
  | del_output step key =>
      match read_outer st r !! step with
      | Some b => write_inner st b (delete key (read_inner st b))
      | None => st
      end
  | clear_outputs step =>
      match read_outer st r !! step with
      | Some b => write_inner st b ∅
      | None => st
      end
  end.

(** The property as the specification words it: whatever is done to the
    returned dict, the outputs of the context stay what they were. *)
Definition mutations_leave_outputs_intact (rt : Runtime) (muts : list mutation)
    : Prop :=
  let '(r, rt1) := get_outputs rt in
  let st2 := fold_left (apply_mutation r) muts (store rt1) in
  snapshot st2 (outputs (context rt)) = snapshot (store rt) (outputs (context rt)).

(** A request that has recorded one output of one step. *)
Definition one_output_recorded : Runtime :=
  run_calls
    [Start "req-1" "snap-1" ∅ false;
     RecordStepOutputs "trainer" {[ "accuracy"%string := PInt 90 ]}]
    initial_runtime.

(** The dict objects the context refers to exist: its outer dict does, and
    so does every inner dict the outer dict refers to. *)
Definition wf (rt : Runtime) : Prop :=
  is_Some (outers (store rt) !! outputs (context rt)) /\
  forall step b,
    read_outer (store rt) (outputs (context rt)) !! step = Some b ->
    is_Some (inners (store rt) !! b).

(** [st'] holds the outer dict [root] and the inner dicts of [st] as [st]
    does. *)
Definition agrees_on (root : positive) (st st' : Store) : Prop :=
  outers st' !! root = outers st !! root /\
  forall b, is_Some (inners st !! b) -> inners st' !! b = inners st !! b.

(** ** NameSanitizer: service and auto-scaling configuration names *)

(** [str.isalnum] on one character, for the characters of code 0 to 255:
    the ASCII letters and digits, and the letters, superscript digits and
    fractions of the upper half. *)
Definition isalnum (c : ascii) : bool :=
  (in_range "a" "z" c || in_range "A" "Z" c || in_range "0" "9" c
   || Ascii.eqb c (ascii_of_nat 170) || in_range (ascii_of_nat 178) (ascii_of_nat 179) c
   || Ascii.eqb c (ascii_of_nat 181) || in_range (ascii_of_nat 185) (ascii_of_nat 186) c
   || in_range (ascii_of_nat 188) (ascii_of_nat 190) c
   || in_range (ascii_of_nat 192) (ascii_of_nat 214) c
   || in_range (ascii_of_nat 216) (ascii_of_nat 246) c
   || in_range (ascii_of_nat 248) (ascii_of_nat 255) c)%bool.

(** The ASCII letters and digits. *)
Definition ascii_alnum (c : ascii) : bool :=
  (in_range "a" "z" c || in_range "A" "Z" c || in_range "0" "9" c)%bool.

(** The character class [[a-zA-Z0-9-]]. *)
Definition service_name_class (c : ascii) : bool :=
  (ascii_alnum c || Ascii.eqb c "-")%bool.

(** [re.match(r"^[...]+$", s)] for a character class: one or more class
    characters up to the end, where [$] also matches just before one final
    newline. *)
Definition fullmatch_plus (cls : ascii -> bool) (s : list ascii) : bool :=
  let core :=
    match rev s with
    | c :: before => if Ascii.eqb c newline then rev before else s
    | [] => s
    end in
  match core with
  | [] => false
  | _ => forallb cls core
  end.

(** [re.sub(r"[^...]", x, s)] for a character class. *)
Definition replace_outside (cls : ascii -> bool) (x : ascii) (s : list ascii)
    : list ascii :=
  map (fun c => if cls c then c else x) s.

(** [re.sub(r"x+", "x", s)] for one character [x]. *)
Fixpoint collapse_runs (x : ascii) (s : list ascii) : list ascii :=
  match s with
  | [] => []
  | c :: rest =>
      match rest with
      | c' :: _ =>
          if (Ascii.eqb c x && Ascii.eqb c' x)%bool
          then collapse_runs x rest
          else c :: collapse_runs x rest
      | [] => [c]
      end
  end.

(** [s and s[0].isalnum()], [s and s[-1].isalnum()] *)
Definition head_isalnum (s : list ascii) : bool :=
  match s with
  | c :: _ => isalnum c
  | [] => false
  end.

Definition last_isalnum (s : list ascii) : bool := head_isalnum (rev s).

Definition is_empty (s : list ascii) : bool :=
  match s with [] => true | _ => false end.

(** [_sanitize_app_runner_service_name] *)
Definition _sanitize_app_runner_service_name (name random_suffix : string)
    : result string :=
  let suffix := list_ascii_of_string random_suffix in
  if negb (fullmatch_plus service_name_class suffix) then Raise RuntimeError
  else
    let sanitized := replace_outside service_name_class "-" (list_ascii_of_string name) in
    let sanitized := collapse_runs "-" sanitized in
    let sanitized := strip "-" sanitized in
    if negb (head_isalnum sanitized) then Raise ValueError
    else
      let sanitized :=
        if negb (last_isalnum sanitized) then rstrip "-" sanitized else sanitized in
      if is_empty sanitized then Raise ValueError
      else
        let max_base_length := 40 - len suffix - 1 in
        let sanitized :=
          if max_base_length <? len sanitized
          then rstrip "-" (slice_to max_base_length sanitized)
          else sanitized in
        if (is_empty sanitized || negb (head_isalnum sanitized)
            || negb (last_isalnum sanitized))%bool
        then Raise ValueError
        else
          let final_name := sanitized ++ "-"%char :: suffix in
          if ((len final_name <? 4) || (40 <? len final_name))%bool
          then Raise ValueError
          else Ok (string_of_list_ascii final_name).

(** [_get_service_name]; [endpoint_id] is [str(endpoint_id)]. *)
Definition _get_service_name (endpoint_name endpoint_id prefix : string)
    : result string :=
  let endpoint_id_short := String.substring 0 8 endpoint_id in
  let raw_name := (prefix ++ endpoint_name)%string in
  _sanitize_app_runner_service_name raw_name endpoint_id_short.

(** [_sanitize_auto_scaling_config_name] *)
Definition _sanitize_auto_scaling_config_name (name : string) : result string :=
  let sanitized := replace_outside service_name_class "-" (list_ascii_of_string name) in
  let sanitized := collapse_runs "-" sanitized in
  if negb (head_isalnum sanitized) then Raise ValueError
  else
    let sanitized := rstrip "-" sanitized in
    if is_empty sanitized then Raise ValueError
    else
      let sanitized :=
        if 32 <? len sanitized then rstrip "-" (slice_to 32 sanitized)
        else sanitized in
      let sanitized :=
        if len sanitized <? 4
        then rstrip "-" (slice_to 32 (list_ascii_of_string "zenml-" ++ sanitized))
        else sanitized in
      Ok (string_of_list_ascii sanitized).

(** [_get_auto_scaling_config_name] *)
Definition _get_auto_scaling_config_name (endpoint_name endpoint_id : string)
    : result string :=
  let endpoint_id_short := String.substring 0 8 endpoint_id in
  let raw_name := ("zenml-" ++ endpoint_name ++ "-" ++ endpoint_id_short)%string in
  _sanitize_auto_scaling_config_name raw_name.

(** No two neighbours of a string are both [x]. *)
Fixpoint no_double (x : ascii) (s : list ascii) : Prop :=
  match s with
  | a :: rest =>
      match rest with
      | b :: _ => ~ (a = x /\ b = x) /\ no_double x rest
      | [] => True
      end
  | [] => True
  end.

(** The first and the last character of a string, when it has one. *)
Definition first_char (s : list ascii) : option ascii := List.head s.
Definition last_char (s : list ascii) : option ascii := List.head (rev s).

(** The padding of a short auto-scaling configuration name. *)
Definition zenml_prefix : list ascii := list_ascii_of_string "zenml-".

(** ** Remote failures *)

(** A remote answer that is the [ClientError] "resource not found". *)
Definition raises_not_found (r : result pyval) : bool :=
  match r with
  | Raise (ClientError code) => String.eqb code ResourceNotFoundException
  | _ => false
  end.

(** A platform whose calls, when they fail, fail with a [ClientError]. *)
Definition raises_only_client_errors {W}
    (remote : call -> W -> result pyval * W) : Prop :=
  forall c w e, fst (remote c w) = Raise e -> exists code, e = ClientError code.

(** A platform that denies every call. *)
Definition denying_remote (c : call) (w : unit) : result pyval * unit :=
  (Raise (ClientError "AccessDeniedException"), w).

(** The exceptions that the log retrieval raises by itself. *)
Definition is_log_error (e : exn) : bool :=
  match e with
  | PipelineEndpointNotFoundError | PipelineLogsNotFoundError | DeployerError => true
  | _ => false
  end.

(** Code-point order on lines, as [list.sort()] uses it. *)
Definition line_le (a b : string) : Prop := String.leb a b = true.

(** A platform with a running service and, when its state is [true], a
    log group of two streams whose events are stored out of order; when
    its state is [false] the log group does not exist. *)
Definition logging_remote (c : call) (w : bool) : result pyval * bool :=
  let event (m : string) := dict_of [("message", PStr m)]%string in
  match c with
  | describe_service arn =>
      (Ok (dict_of [("Service", dict_of [("ServiceArn", PStr arn)])]%string), w)
  | describe_log_streams _ =>
      if w
      then (Ok (dict_of [("logStreams",
                  PList [dict_of [("logStreamName", PStr "first")];
                         dict_of [("logStreamName", PStr "second")]])]%string), w)
      else (Raise (ClientError ResourceNotFoundException), w)
  | get_log_events _ stream =>
      (Ok (dict_of [("events",
             PList (if String.eqb stream "first"
                    then [event "line 3"; event "line 1"]
                    else [event "line 4"; event "line 2"]))]%string), w)
  | _ => (Raise (ClientError "AccessDeniedException"), w)
  end.

Definition logging_state (log_group_exists : bool) : St bool :=
  {| world := log_group_exists; trace := []; log := [] |}.

(** ** Serving runtime: parameters and in-memory data (runtime.py) *)

(** [get_parameter_override]; [PNone] is Python's [None]. *)
Definition get_parameter_override (name : string) (rt : Runtime) : pyval :=
  if negb (is_active rt) then PNone
  else
    let state := context rt in
    let pipeline_params := pipeline_parameters state in
    if bool_decide (pipeline_params = ∅) then PNone
    else match pipeline_params !! name with
         | Some v => v
         | None => PNone
         end.

(** [should_use_in_memory_mode] *)
Definition should_use_in_memory_mode (rt : Runtime) : bool :=
  if is_active rt then use_in_memory (context rt) else false.

(** [put_in_memory_data] *)
Definition put_in_memory_data (uri : string) (data : pyval) (rt : Runtime)
    : Runtime :=
  if is_active rt then
    let state := context rt in
    {| store := store rt;
       context := {| active := active state;
                     use_in_memory := use_in_memory state;
                     request_id := request_id state;
                     snapshot_id := snapshot_id state;
                     pipeline_parameters := pipeline_parameters state;
                     outputs := outputs state;
                     in_memory_data := <[uri := data]> (in_memory_data state) |} |}
  else rt.

(** [get_in_memory_data] *)
Definition get_in_memory_data (uri : string) (rt : Runtime) : pyval :=
  if is_active rt then
    match in_memory_data (context rt) !! uri with
    | Some data => data
    | None => PNone
    end
  else PNone.

(** [has_in_memory_data] *)
Definition has_in_memory_data (uri : string) (rt : Runtime) : bool :=
  if is_active rt then bool_decide (is_Some (in_memory_data (context rt) !! uri))
  else false.

(** The outputs the context holds, inner dicts read through. *)
Definition recorded_outputs (rt : Runtime) : gmap string (gmap string pyval) :=
  snapshot (store rt) (outputs (context rt)).

(** No two steps of the context share one inner dict. *)
Definition separate_steps (rt : Runtime) : Prop :=
  forall step step' b,
    read_outer (store rt) (outputs (context rt)) !! step = Some b ->
    read_outer (store rt) (outputs (context rt)) !! step' = Some b ->
    step = step'.

(** The dict [r], handed out earlier, shares nothing with the context:
    it is another outer dict, and no inner dict it refers to is referred
    to by the context. *)
Definition detached (r : positive) (rt : Runtime) : Prop :=
  outputs (context rt) <> r /\
  is_Some (outers (store rt) !! r) /\
  forall step b,
    read_outer (store rt) r !! step = Some b ->
    is_Some (inners (store rt) !! b) /\
    forall step', read_outer (store rt) (outputs (context rt)) !! step' <> Some b.

(** The calls that begin or end a request. *)
Definition is_reset (c : api_call) : bool :=
  match c with
  | Start _ _ _ _ | Stop => true
  | _ => false
  end.

(** Every character but the forward slash. *)
Definition not_slash (c : ascii) : bool := negb (Ascii.eqb c "/").

(** The characters the docstring of [_sanitize_secret_name] lists:
    letters, numbers, hyphens, underscores, periods, forward slashes. *)
Definition documented_secret_class (c : ascii) : bool :=
  (in_range "a" "z" c || in_range "A" "Z" c || in_range "0" "9" c
   || Ascii.eqb c "-" || Ascii.eqb c "_" || Ascii.eqb c "."
   || Ascii.eqb c "/")%bool.

(** ** Tier selection over IEEE binary64 *)

(** Python's [float] is an IEEE binary64 number.  The module below is the
    same method over the kernel's binary64 numbers; it is used to run the
    method where rounding or overflow could matter.  [best_score] starts
    as [float("inf")], and the integer [0] of an absent requirement
    enters the score as [0.0]. *)
Module Binary64.

Record tier := {
  cpu_val : float;
  cpu_str : string;
  mem_val : float;
  mem_str : string
}.

Definition valid_combinations : list tier :=
  [ {| cpu_val := 0.25; cpu_str := "0.25 vCPU"; mem_val := 0.5; mem_str := "0.5 GB" |};
    {| cpu_val := 0.25; cpu_str := "0.25 vCPU"; mem_val := 1;   mem_str := "1 GB" |};
    {| cpu_val := 0.5;  cpu_str := "0.5 vCPU";  mem_val := 1;   mem_str := "1 GB" |};
    {| cpu_val := 1;    cpu_str := "1 vCPU";    mem_val := 2;   mem_str := "2 GB" |};
    {| cpu_val := 1;    cpu_str := "1 vCPU";    mem_val := 3;   mem_str := "3 GB" |};
    {| cpu_val := 1;    cpu_str := "1 vCPU";    mem_val := 4;   mem_str := "4 GB" |};
    {| cpu_val := 2;    cpu_str := "2 vCPU";    mem_val := 4;   mem_str := "4 GB" |};
    {| cpu_val := 2;    cpu_str := "2 vCPU";    mem_val := 6;   mem_str := "6 GB" |};
    {| cpu_val := 4;    cpu_str := "4 vCPU";    mem_val := 8;   mem_str := "8 GB" |};
    {| cpu_val := 4;    cpu_str := "4 vCPU";    mem_val := 10;  mem_str := "10 GB" |};
    {| cpu_val := 4;    cpu_str := "4 vCPU";    mem_val := 12;  mem_str := "12 GB" |} ]%float.

Definition labels (t : tier) : string * string := (cpu_str t, mem_str t).

(** [requested is None or value >= requested] *)
Definition meets_request (requested : option float) (value : float) : bool :=
  match requested with
  | None => true
  | Some r => PrimFloat.leb r value
  end.

(** [0 if requested is None else (value - requested)] *)
Definition waste (requested : option float) (value : float) : float :=
  match requested with
  | None => 0%float
  | Some r => PrimFloat.sub value r
  end.

Definition tier_ok (requested_cpu requested_memory_gb : option float) (t : tier)
    : bool :=
  meets_request requested_cpu (cpu_val t) &&
  meets_request requested_memory_gb (mem_val t).

(** [score = cpu_waste * 10 + mem_waste] *)
Definition tier_score (requested_cpu requested_memory_gb : option float) (t : tier)
    : float :=
  PrimFloat.add (PrimFloat.mul (waste requested_cpu (cpu_val t)) 10%float)
                (waste requested_memory_gb (mem_val t)).

(** One iteration of the [for] loop; the accumulator is
    [(best_combination, best_score)]. *)
Definition select_step (requested_cpu requested_memory_gb : option float)
    (acc : option (string * string) * float) (t : tier)
    : option (string * string) * float :=
  if tier_ok requested_cpu requested_memory_gb t then
    let score := tier_score requested_cpu requested_memory_gb t in
    if PrimFloat.ltb score (snd acc) then (Some (labels t), score) else acc
  else acc.

(** [_select_aws_cpu_memory_combination] *)
Definition _select_aws_cpu_memory_combination
    (requested_cpu requested_memory_gb : option float) : string * string :=
  match requested_cpu, requested_memory_gb with
  | None, None => (DEFAULT_CPU, DEFAULT_MEMORY)
  | _, _ =>
      let best_combination :=
        fst (fold_left (select_step requested_cpu requested_memory_gb)
                       valid_combinations (None, PrimFloat.infinity)) in
      match best_combination with
      | None => ("4 vCPU", "12 GB")%string
      | Some b => b
      end
  end.

(** The rational number that a finite binary64 number is. *)
Definition exact_value (x : float) : option Q :=
  match Prim2SF x with
  | S754_zero _ => Some 0%Q
  | S754_finite negative m e =>
      let n := if negative then Z.neg m else Z.pos m in
      Some (if 0 <=? e then inject_Z (n * 2 ^ e)
            else (n # Pos.pow 2 (Z.to_pos (- e))))
  | S754_infinity _ | S754_nan => None
  end.

End Binary64.

(** The selection as the specification words it, for a request and a
    result: the default tier when nothing is requested; otherwise the
    maximum tier when no row meets the request, and else the first row of
    least [10 * cpuOverage + memoryOverage] among the rows that meet it. *)
Definition selected_as_specified (rc rm : option Q) (result : string * string)
    : Prop :=
  (rc = None /\ rm = None /\ result = (DEFAULT_CPU, DEFAULT_MEMORY)) \/
  ((rc <> None \/ rm <> None) /\
   (forall t, In t valid_combinations -> ~ satisfies rc rm t) /\
   result = ("4 vCPU", "12 GB")%string) \/
  ((rc <> None \/ rm <> None) /\
   exists i t,
     nth_error valid_combinations i = Some t /\
     result = labels t /\
     satisfies rc rm t /\
     forall j t', nth_error valid_combinations j = Some t' ->
       satisfies rc rm t' ->
       (weighted_overage rc rm t <= weighted_overage rc rm t')%Q /\
       (weighted_overage rc rm t' == weighted_overage rc rm t -> (i <= j)%nat)%Q).

(** The requests for which no score leaves the range of a binary64
    number: a score is at most [10 * (4 - cpu) + (12 - memory)], and the
    largest binary64 number is just below [2 ^ 1024]. *)
Definition within_binary64_range (requested : option Q) : Prop :=
  forall r, requested = Some r -> (inject_Z (- 2 ^ 1000) <= r)%Q.

(** * Theorems *)

(** ** ResourceMapper *)

Lemma scaling_unfold (rs : ResourceSettings) :
  _convert_scaling_settings_to_aws_format rs =
  (match min_replicas rs with Some m => Z.max 1 m | None => 1 end,
   match max_replicas rs with
   | Some m => if m =? 0 then 1000 else Z.min m 1000
   | None => 25
   end,
   match max_concurrency rs with Some m => Z.min m 1000 | None => 100 end).
Proof. reflexivity. Qed.

(** C3, as the specification words it, fails: a requested minimum above the
    platform ceiling is returned as it is, since the code only applies the
    floor [max(1, _)] to the minimum. *)
Lemma scaling_min_not_clamped :
  ~ scaling_all_clamped
      {| cpu_count := None; memory_gb := None;
         min_replicas := Some 2000; max_replicas := None;
         max_concurrency := None |}.
Proof.
  unfold scaling_all_clamped. rewrite scaling_unfold.
  cbn. unfold AWS_APP_RUNNER_MAX_SIZE. intros (_ & _ & _ & H & _). lia.
Qed.

(** C3 (amended): the minimum defaults to 1, is never below 1 and is
    otherwise the requested value (no upper clamp); a maximum of 0 becomes
    the platform ceiling 1000; the maximum and the concurrency never exceed
    the platform maxima, and default to 25 and 100. *)
Theorem scaling_normalized (rs : ResourceSettings) :
  let r := _convert_scaling_settings_to_aws_format rs in
  (min_replicas rs = None -> scaling_min r = 1) /\
  1 <= scaling_min r /\
  (forall m, min_replicas rs = Some m -> scaling_min r = Z.max 1 m) /\
  (max_replicas rs = Some 0 -> scaling_max r = AWS_APP_RUNNER_MAX_SIZE) /\
  (max_replicas rs = None -> scaling_max r = DEFAULT_MAX_SIZE) /\
  (forall m, max_replicas rs = Some m -> m <> 0 ->
     scaling_max r = Z.min m AWS_APP_RUNNER_MAX_SIZE) /\
  scaling_max r <= AWS_APP_RUNNER_MAX_SIZE /\
  (max_concurrency rs = None -> scaling_concurrency r = DEFAULT_MAX_CONCURRENCY) /\
  (forall m, max_concurrency rs = Some m ->
     scaling_concurrency r = Z.min m AWS_APP_RUNNER_MAX_CONCURRENCY) /\
  scaling_concurrency r <= AWS_APP_RUNNER_MAX_CONCURRENCY.
Proof.
  intros r. subst r. rewrite scaling_unfold.
  unfold scaling_min, scaling_max, scaling_concurrency,
    AWS_APP_RUNNER_MAX_SIZE, AWS_APP_RUNNER_MAX_CONCURRENCY,
    DEFAULT_MAX_SIZE, DEFAULT_MAX_CONCURRENCY.
  destruct rs as [c g mn mx mc]; cbn.
  repeat split.
  - intros ->. reflexivity.
  - destruct mn; lia.
  - intros m ->. reflexivity.
  - intros ->. reflexivity.
  - intros ->. reflexivity.
  - intros m -> Hm. destruct (Z.eqb_spec m 0); [contradiction | reflexivity].
  - destruct mx as [m|]; [destruct (Z.eqb_spec m 0)|]; lia.
  - intros ->. reflexivity.
  - intros m ->. reflexivity.
  - destruct mc; lia.
Qed.

Lemma meets_request_iff (req : option Q) (v : Q) :
  meets_request req v = true <-> (forall r, req = Some r -> (r <= v)%Q).
Proof.
  destruct req as [r|]; cbn.
  - rewrite Qle_bool_iff. split.
    + intros H r' [= <-]. exact H.
    + intros H. apply H. reflexivity.
  - split; [intros _ r [=] | reflexivity].
Qed.

Lemma tier_ok_iff (rc rm : option Q) (t : tier) :
  tier_ok rc rm t = true <-> satisfies rc rm t.
Proof.
  unfold tier_ok, satisfies.
  rewrite andb_true_iff, !meets_request_iff. reflexivity.
Qed.

Lemma tier_score_weighted (rc rm : option Q) (t : tier) :
  (tier_score rc rm t == weighted_overage rc rm t)%Q.
Proof.
  unfold tier_score, weighted_overage, waste, overage.
  destruct rc, rm; ring.
Qed.

Lemma score_lt_some (s b : Q) :
  score_lt s (Some b) = true <-> (s < b)%Q.
Proof.
  cbn. rewrite negb_true_iff. split.
  - intros H. apply Qnot_le_lt. intros Hle.
    apply Qle_bool_iff in Hle. congruence.
  - intros H. destruct (Qle_bool b s) eqn:E; [|reflexivity].
    apply Qle_bool_iff in E. exfalso. exact (Qlt_not_le _ _ H E).
Qed.

Lemma nth_error_snoc {A} (l : list A) (x y : A) (j : nat) :
  nth_error (l ++ [x]) j = Some y ->
  nth_error l j = Some y \/ (j = List.length l /\ y = x).
Proof.
  intros H. destruct (Nat.lt_ge_cases j (List.length l)) as [Hlt|Hge].
  - left. rewrite nth_error_app1 in H by exact Hlt. exact H.
  - right. rewrite nth_error_app2 in H by exact Hge.
    destruct (j - List.length l)%nat as [|k] eqn:E; cbn in H.
    + injection H as <-. split; [lia | reflexivity].
    + destruct k; discriminate.
Qed.

Lemma select_step_inv (rc rm : option Q) (seen : list tier)
    (acc : option (string * string) * option Q) (t : tier) :
  select_inv rc rm seen acc ->
  select_inv rc rm (seen ++ [t]) (select_step rc rm acc t).
Proof.
  intros Hinv. unfold select_step.
  destruct (tier_ok rc rm t) eqn:Hok.
  - apply tier_ok_iff in Hok.
    destruct Hinv as [[-> Hnone] | (i & t0 & Hi & -> & Hs0 & Hmin)].
    + (* first satisfying tier: any score is below the starting one *)
      right. exists (List.length seen), t. cbn [snd score_lt].
      rewrite nth_error_app2, Nat.sub_diag by lia.
      split; [reflexivity|]. split; [reflexivity|]. split; [exact Hok|].
      intros j t' Hj Hs'.
      destruct (nth_error_snoc _ _ _ _ Hj) as [Hj' | [-> ->]].
      * exfalso. apply (Hnone t'); [eapply nth_error_In; eauto | assumption].
      * split; [apply Qle_refl | intros _; lia].
    + cbn [snd].
      destruct (score_lt (tier_score rc rm t) (Some (tier_score rc rm t0))) eqn:Hlt.
      * (* strictly better: the new tier replaces the best one *)
        apply score_lt_some in Hlt. rewrite !tier_score_weighted in Hlt.
        right. exists (List.length seen), t.
        rewrite nth_error_app2, Nat.sub_diag by lia.
        split; [reflexivity|]. split; [reflexivity|]. split; [exact Hok|].
        intros j t' Hj Hs'.
        destruct (nth_error_snoc _ _ _ _ Hj) as [Hj' | [-> ->]].
        -- destruct (Hmin _ _ Hj' Hs') as [Hle _]. split.
           ++ apply Qlt_le_weak. eapply Qlt_le_trans; eauto.
           ++ intros Heq. exfalso. rewrite <- Heq in Hlt.
              exact (Qlt_not_le _ _ Hlt Hle).
        -- split; [apply Qle_refl | intros _; lia].
      * (* not strictly better: the earlier tier is kept *)
        assert (Hge : (weighted_overage rc rm t0 <= weighted_overage rc rm t)%Q).
        { apply Qnot_lt_le. intros Hc.
          rewrite <- !tier_score_weighted in Hc.
          apply score_lt_some in Hc. congruence. }
        assert (Hilt : (i < List.length seen)%nat)
          by (apply nth_error_Some; congruence).
        right. exists i, t0.
        rewrite nth_error_app1 by exact Hilt.
        split; [exact Hi|]. split; [reflexivity|]. split; [exact Hs0|].
        intros j t' Hj Hs'.
        destruct (nth_error_snoc _ _ _ _ Hj) as [Hj' | [-> ->]].
        -- apply (Hmin _ _ Hj' Hs').
        -- split; [exact Hge | intros _; lia].
  - assert (Hno : ~ satisfies rc rm t).
    { intros Hs. apply tier_ok_iff in Hs. congruence. }
    destruct Hinv as [[-> Hnone] | (i & t0 & Hi & -> & Hs0 & Hmin)].
    + left. split; [reflexivity|].
      intros t' Hin. apply in_app_or in Hin.
      destruct Hin as [Hin | [<- | []]]; [apply Hnone; exact Hin | exact Hno].
    + assert (Hilt : (i < List.length seen)%nat)
        by (apply nth_error_Some; congruence).
      right. exists i, t0.
      rewrite nth_error_app1 by exact Hilt.
      split; [exact Hi|]. split; [reflexivity|]. split; [exact Hs0|].
      intros j t' Hj Hs'.
      destruct (nth_error_snoc _ _ _ _ Hj) as [Hj' | [-> ->]].
      * apply (Hmin _ _ Hj' Hs').
      * contradiction.
Qed.

Lemma select_fold_inv (rc rm : option Q) (l seen : list tier)
    (acc : option (string * string) * option Q) :
  select_inv rc rm seen acc ->
  select_inv rc rm (seen ++ l) (fold_left (select_step rc rm) l acc).
Proof.
  revert seen acc. induction l as [|t l IH]; intros seen acc Hinv; cbn.
  - rewrite app_nil_r. exact Hinv.
  - replace (seen ++ t :: l) with ((seen ++ [t]) ++ l)
      by (rewrite <- app_assoc; reflexivity).
    apply IH. apply select_step_inv. exact Hinv.
Qed.

Lemma select_loop_result (rc rm : option Q) :
  rc = None /\ rm = None \/
  _select_aws_cpu_memory_combination rc rm =
    match fst (fold_left (select_step rc rm) valid_combinations (None, None)) with
    | None => ("4 vCPU", "12 GB")%string
    | Some b => b
    end.
Proof.
  destruct rc, rm; [right | right | right | left]; try reflexivity.
  split; reflexivity.
Qed.

(** The rows of the list grow in both components, so the score grows along
    the list and the selection is the first row that meets the request: it
    depends on the request only through comparisons with the tier
    values. *)
Lemma tiers_sorted : StronglySorted tier_le valid_combinations.
Proof.
  unfold valid_combinations.
  repeat match goal with
         | |- StronglySorted _ _ => constructor
         | |- List.Forall _ _ => constructor
         end;
    (split; cbn; unfold Qle; cbn; lia).
Qed.

Lemma strongly_sorted_nth {A} (R : A -> A -> Prop) (l : list A) :
  StronglySorted R l ->
  forall i j a b, (i < j)%nat ->
    nth_error l i = Some a -> nth_error l j = Some b -> R a b.
Proof.
  induction 1 as [|x l Hs IH Hall]; intros i j a b Hij Hi Hj.
  - destruct i; discriminate.
  - destruct j as [|j]; [lia|]. cbn in Hj. destruct i as [|i]; cbn in Hi.
    + injection Hi as <-. rewrite List.Forall_forall in Hall. apply Hall.
      eapply nth_error_In. exact Hj.
    + eapply IH; [|exact Hi|exact Hj]. lia.
Qed.

Lemma weighted_overage_monotone (rc rm : option Q) (t t' : tier) :
  tier_le t t' -> (weighted_overage rc rm t <= weighted_overage rc rm t')%Q.
Proof.
  intros [Hc Hm]. unfold weighted_overage, overage.
  destruct rc, rm; lra.
Qed.

Lemma selection_is_first_fit (rc rm : option Q) (i : nat) (t : tier) :
  rc <> None \/ rm <> None ->
  nth_error valid_combinations i = Some t ->
  satisfies rc rm t ->
  (forall j t', (j < i)%nat -> nth_error valid_combinations j = Some t' ->
     ~ satisfies rc rm t') ->
  _select_aws_cpu_memory_combination rc rm = labels t.
Proof.
  intros Hreq Hi Hs Hfirst.
  destruct (select_loop_result rc rm) as [[-> ->] | Hsel];
    [destruct Hreq as [H | H]; contradiction|].
  assert (Hinv : select_inv rc rm ([] ++ valid_combinations)
            (fold_left (select_step rc rm) valid_combinations (None, None))).
  { apply select_fold_inv. left. split; [reflexivity | intros x []]. }
  rewrite app_nil_l in Hinv.
  destruct Hinv as [[_ Hnone] | (i0 & t0 & Hi0 & Hacc & Hs0 & Hmin)].
  - exfalso. apply (Hnone t); [eapply nth_error_In; eauto | exact Hs].
  - rewrite Hsel, Hacc. cbn [fst].
    destruct (Hmin i t Hi Hs) as [Hle Htie].
    destruct (Nat.lt_trichotomy i0 i) as [Hlt | [Heq | Hgt]].
    + exfalso. exact (Hfirst i0 t0 Hlt Hi0 Hs0).
    + subst i0. congruence.
    + exfalso.
      assert (Hsorted : tier_le t t0)
        by (eapply (strongly_sorted_nth tier_le _ tiers_sorted i i0); eauto).
      apply (weighted_overage_monotone rc rm) in Hsorted.
      assert (Heq : (weighted_overage rc rm t == weighted_overage rc rm t0)%Q)
        by (apply Qle_antisym; assumption).
      apply Htie in Heq. lia.
Qed.

(** C2, as the specification words it, fails: for a request of
    [-2 ^ 1021] CPUs every row meets the request, the first row costs
    least, and the method returns the maximum tier: in binary64 every
    score is infinite, so no score is below the starting [float("inf")]. *)
Lemma huge_negative_request_gets_maximum_tier :
  Binary64.exact_value (-0x1p1021)%float = Some (inject_Z (- 2 ^ 1021)) /\
  Binary64._select_aws_cpu_memory_combination (Some (-0x1p1021)%float) None
  = ("4 vCPU", "12 GB")%string /\
  ~ selected_as_specified (Some (inject_Z (- 2 ^ 1021))) None
      (Binary64._select_aws_cpu_memory_combination (Some (-0x1p1021)%float) None).
Proof.
  split; [vm_compute; reflexivity|].
  assert (Hrun : Binary64._select_aws_cpu_memory_combination
                   (Some (-0x1p1021)%float) None = ("4 vCPU", "12 GB")%string)
    by (vm_compute; reflexivity).
  split; [exact Hrun|]. rewrite Hrun.
  set (q := inject_Z (- 2 ^ 1021)).
  assert (Hq : (q <= 0)%Q).
  { subst q. apply Qle_bool_iff. vm_compute. reflexivity. }
  intros [(H & _) | [(_ & Hnone & _) | (_ & i & t & Hi & Hlabels & _ & Hmin)]].
  - discriminate H.
  - apply (Hnone {| cpu_val := 1#4; cpu_str := "0.25 vCPU";
                    mem_val := 1#2; mem_str := "0.5 GB" |}).
    + left. reflexivity.
    + split; [|intros r [=]]. intros r [= <-]. cbn [cpu_val]. lra.
  - destruct (Hmin 0%nat {| cpu_val := 1#4; cpu_str := "0.25 vCPU";
                            mem_val := 1#2; mem_str := "0.5 GB" |} eq_refl)
      as [Hle _].
    { split; [|intros r [=]]. intros r [= <-]. cbn [cpu_val]. lra. }
    do 11 (destruct i as [|i];
           [injection Hi as <-; try discriminate Hlabels|]);
      [|destruct i; discriminate Hi].
    unfold weighted_overage, overage in Hle. cbn [cpu_val mem_val] in Hle.
    fold q in Hle. lra.
Qed.

(** Within the range, binary64 and rationals select the same tier: the
    example of the specification and requests around it. *)
Example binary64_selection_examples :
  Binary64._select_aws_cpu_memory_combination
    (Some 0x1.3333333333333p-2%float) (Some 0x1.999999999999ap-2%float)
  = ("0.5 vCPU", "1 GB")%string /\
  Binary64._select_aws_cpu_memory_combination (Some 1%float) (Some 2.5%float)
  = _select_aws_cpu_memory_combination (Some 1%Q) (Some (5#2)%Q) /\
  Binary64._select_aws_cpu_memory_combination None (Some 7%float)
  = _select_aws_cpu_memory_combination None (Some 7%Q) /\
  Binary64._select_aws_cpu_memory_combination (Some 8%float) None
  = _select_aws_cpu_memory_combination (Some 8%Q) None /\
  Binary64._select_aws_cpu_memory_combination (Some (-0x1p1000)%float) None
  = _select_aws_cpu_memory_combination (Some (inject_Z (- 2 ^ 1000))) None.
Proof. vm_compute. repeat split; reflexivity. Qed.

(** Over binary64 numbers too, and for every request, NaN and the
    infinities included, the tier returned is a row of the list that
    meets the request, or else the maximum tier. *)
Lemma binary64_selection_meets_request (rc rm : option float) :
  (rc = None /\ rm = None) \/
  Binary64._select_aws_cpu_memory_combination rc rm = ("4 vCPU", "12 GB")%string \/
  exists t, In t Binary64.valid_combinations /\
            Binary64.tier_ok rc rm t = true /\
            Binary64._select_aws_cpu_memory_combination rc rm = Binary64.labels t.
Proof.
  assert (Hloop : forall l acc,
            incl l Binary64.valid_combinations ->
            (fst acc = None \/
             exists t, In t Binary64.valid_combinations /\
                       Binary64.tier_ok rc rm t = true /\
                       fst acc = Some (Binary64.labels t)) ->
            fst (fold_left (Binary64.select_step rc rm) l acc) = None \/
            exists t, In t Binary64.valid_combinations /\
                      Binary64.tier_ok rc rm t = true /\
                      fst (fold_left (Binary64.select_step rc rm) l acc)
                      = Some (Binary64.labels t)).
  { induction l as [|t rest IH]; intros acc Hincl Hacc; [exact Hacc|].
    cbn [fold_left]. apply IH.
    - intros x Hx. apply Hincl. right. exact Hx.
    - unfold Binary64.select_step.
      destruct (Binary64.tier_ok rc rm t) eqn:Hok; [|exact Hacc].
      destruct (PrimFloat.ltb (Binary64.tier_score rc rm t) (snd acc));
        [|exact Hacc].
      right. exists t. split; [apply Hincl; left; reflexivity|].
      split; [exact Hok | reflexivity]. }
  specialize (Hloop Binary64.valid_combinations (None, PrimFloat.infinity)
                (fun x Hx => Hx) (or_introl eq_refl)).
  unfold Binary64._select_aws_cpu_memory_combination.
  destruct rc as [c|], rm as [m|]; try (left; split; reflexivity); right;
    (destruct Hloop as [-> | (t & Hin & Hok & ->)];
     [left; reflexivity | right; exists t; repeat split; assumption]).
Qed.

(** C2 (amended): for requests within the range of binary64 scores, with
    both requirements absent the default tier is returned.  Otherwise
    either no tier of the list meets the request and the maximum tier
    (4 vCPU, 12 GB) is returned, or the returned tier is a row of the
    list that meets the request (so neither its CPU nor its memory is
    below what was asked), its weighted overage
    [10 * cpuOverage + memoryOverage] is minimal among the rows that meet
    the request, and it is the first such row in list order.  Requesting
    0.3 CPU and 0.4 GB yields (0.5 vCPU, 1 GB). *)
Theorem select_tier_correct (rc rm : option Q) :
  within_binary64_range rc -> within_binary64_range rm ->
  _select_aws_cpu_memory_combination None None = (DEFAULT_CPU, DEFAULT_MEMORY) /\
  (rc = None /\ rm = None \/
   ((forall t, In t valid_combinations -> ~ satisfies rc rm t) /\
    _select_aws_cpu_memory_combination rc rm = ("4 vCPU", "12 GB")%string) \/
   (exists i t,
      nth_error valid_combinations i = Some t /\
      _select_aws_cpu_memory_combination rc rm = labels t /\
      satisfies rc rm t /\
      forall j t', nth_error valid_combinations j = Some t' ->
        satisfies rc rm t' ->
        (weighted_overage rc rm t <= weighted_overage rc rm t')%Q /\
        (weighted_overage rc rm t' == weighted_overage rc rm t -> (i <= j)%nat)%Q)) /\
  _select_aws_cpu_memory_combination (Some (3#10)) (Some (2#5))
    = ("0.5 vCPU", "1 GB")%string.
Proof.
  intros _ _.
  split; [reflexivity|]. split; [|vm_compute; reflexivity].
  destruct (select_loop_result rc rm) as [Hnone | Hsel]; [left; exact Hnone|].
  right.
  assert (Hinv : select_inv rc rm ([] ++ valid_combinations)
            (fold_left (select_step rc rm) valid_combinations (None, None))).
  { apply select_fold_inv. left. split; [reflexivity | intros t []]. }
  rewrite app_nil_l in Hinv.
  destruct Hinv as [[Hacc Hnone] | (i & t & Hi & Hacc & Hs & Hmin)].
  - left. split; [exact Hnone|]. rewrite Hsel, Hacc. reflexivity.
  - right. exists i, t. rewrite Hsel, Hacc. cbn [fst].
    repeat (split; [assumption || reflexivity|]). exact Hmin.
Qed.

Lemma select_tier_correct_witness :
  let rc := Some (3#10)%Q in
  let rm := Some (2#5)%Q in
  _select_aws_cpu_memory_combination None None = (DEFAULT_CPU, DEFAULT_MEMORY) /\
  (rc = None /\ rm = None \/
   ((forall t, In t valid_combinations -> ~ satisfies rc rm t) /\
    _select_aws_cpu_memory_combination rc rm = ("4 vCPU", "12 GB")%string) \/
   (exists i t,
      nth_error valid_combinations i = Some t /\
      _select_aws_cpu_memory_combination rc rm = labels t /\
      satisfies rc rm t /\
      forall j t', nth_error valid_combinations j = Some t' ->
        satisfies rc rm t' ->
        (weighted_overage rc rm t <= weighted_overage rc rm t')%Q /\
        (weighted_overage rc rm t' == weighted_overage rc rm t -> (i <= j)%nat)%Q)) /\
  _select_aws_cpu_memory_combination (Some (3#10)) (Some (2#5))
    = ("0.5 vCPU", "1 GB")%string.
Proof.
  apply (select_tier_correct (Some (3#10)%Q) (Some (2#5)%Q));
    intros r [= <-]; apply Qle_bool_iff; vm_compute; reflexivity.
Defined.

(** ** EndpointReconciler: replacement decision *)


Lemma py_get_dict (v : pyval) (key : string) (default : pyval) :
  is_dict v -> exists x, py_get v key default = Ok x.
Proof.
  destruct v; cbn; try contradiction. intros _. eexists. reflexivity.
Qed.









Example image_change_is_update :
  provision_decision
    (py_set (public_service "repo/app:v1") "SourceConfiguration"
       (PDict (<["ImageRepository" :=
                  PDict (<["ImageIdentifier" := PStr "repo/app:v2"]> ∅)]> ∅)))
    (plain_settings true)
  = Ok UpdateInPlace.
Proof. vm_compute. reflexivity. Qed.

Example visibility_change_is_replace :
  provision_decision (public_service "repo/app:v1") (plain_settings false)
  = Ok ReplaceThenCreate.
Proof. vm_compute. reflexivity. Qed.

(** ** NameSanitizer: secret names *)

Lemma hyphen_not_in_body_class : secret_body_class hyphen = false.
Proof. reflexivity. Qed.

Lemma replace_disallowed_class (s : list ascii) (c : ascii) :
  In c (replace_disallowed s) -> secret_body_class c = true.
Proof.
  unfold replace_disallowed. rewrite in_map_iff.
  intros (x & <- & _). destruct (secret_body_class x) eqn:E; [exact E | reflexivity].
Qed.

Lemma replace_disallowed_hyphen (s : list ascii) (i : nat) :
  nth_error s i = Some hyphen ->
  nth_error (replace_disallowed s) i = Some "_"%char.
Proof.
  intros H. unfold replace_disallowed.
  rewrite nth_error_map, H. reflexivity.
Qed.

Lemma collapse_slashes_In (s : list ascii) (c : ascii) :
  In c (collapse_slashes s) -> In c s.
Proof.
  induction s as [|a rest IH]; [intros []|].
  cbn [collapse_slashes]. destruct rest as [|b rest'].
  - intros H. exact H.
  - destruct (Ascii.eqb a "/" && Ascii.eqb b "/")%bool.
    + intros H. right. apply IH. exact H.
    + intros [<- | H]; [left; reflexivity | right; apply IH; exact H].
Qed.

Lemma lstrip_In (x : ascii) (s : list ascii) (c : ascii) :
  In c (lstrip x s) -> In c s.
Proof.
  induction s as [|a rest IH]; [intros []|].
  cbn [lstrip]. destruct (Ascii.eqb a x).
  - intros H. right. apply IH. exact H.
  - intros H. exact H.
Qed.

Lemma rstrip_In (x : ascii) (s : list ascii) (c : ascii) :
  In c (rstrip x s) -> In c s.
Proof.
  unfold rstrip. intros H. apply in_rev in H.
  apply lstrip_In in H. apply in_rev in H. exact H.
Qed.

Lemma strip_In (x : ascii) (s : list ascii) (c : ascii) :
  In c (strip x s) -> In c s.
Proof.
  unfold strip. intros H. apply rstrip_In in H. apply lstrip_In in H. exact H.
Qed.

Lemma firstn_In_list {A} (n : nat) (l : list A) (a : A) :
  In a (firstn n l) -> In a l.
Proof.
  intros H. rewrite <- (firstn_skipn n l). apply in_or_app. left. exact H.
Qed.

Lemma slice_to_In (n : Z) (s : list ascii) (c : ascii) :
  In c (slice_to n s) -> In c s.
Proof.
  unfold slice_to. destruct (0 <=? n); apply firstn_In_list.
Qed.

Lemma secret_name_body_chars (name random_suffix body : list ascii) :
  secret_name_body name random_suffix = Ok body ->
  body <> [] /\ forall c, In c body -> In c (replace_disallowed name).
Proof.
  unfold secret_name_body.
  destruct (suffix_matches random_suffix); cbn [negb]; [|discriminate].
  set (s1 := strip "/" (collapse_slashes (replace_disallowed name))).
  assert (H1 : forall c, In c s1 -> In c (replace_disallowed name)).
  { intros c H. apply strip_In in H. apply collapse_slashes_In in H. exact H. }
  destruct s1 as [|a s1'] eqn:Es1; [discriminate|].
  rewrite <- Es1 in *. clear Es1.
  destruct (512 - len random_suffix - 1 <? len s1).
  - destruct (rstrip "/" (slice_to (512 - len random_suffix - 1) s1))
      as [|b t] eqn:Et; [discriminate|].
    intros [= <-]. split; [discriminate|].
    intros c H. apply H1. rewrite <- Et in H.
    apply rstrip_In in H. apply slice_to_In in H. exact H.
  - destruct s1 as [|b t] eqn:Et; [discriminate|].
    intros [= <-]. split; [discriminate|]. exact H1.
Qed.

Lemma list_ascii_of_string_app (s1 s2 : string) :
  list_ascii_of_string (s1 ++ s2)
  = list_ascii_of_string s1 ++ list_ascii_of_string s2.
Proof.
  induction s1 as [|c s1 IH]; [reflexivity|].
  change (c :: list_ascii_of_string (s1 ++ s2)
          = c :: (list_ascii_of_string s1 ++ list_ascii_of_string s2)).
  f_equal. exact IH.
Qed.

Lemma collapse_slashes_keeps_others (s : list ascii) :
  List.filter not_slash (collapse_slashes s) = List.filter not_slash s.
Proof.
  induction s as [|a rest IH]; [reflexivity|].
  cbn [collapse_slashes]. destruct rest as [|b rest']; [reflexivity|].
  destruct (Ascii.eqb a "/") eqn:Ea; cbn [andb].
  - assert (Ha : not_slash a = false) by (unfold not_slash; rewrite Ea; reflexivity).
    destruct (Ascii.eqb b "/") eqn:Eb.
    + rewrite IH. symmetry. change (List.filter not_slash (a :: b :: rest'))
        with (if not_slash a then a :: List.filter not_slash (b :: rest')
              else List.filter not_slash (b :: rest')).
      rewrite Ha. reflexivity.
    + change (List.filter not_slash (a :: collapse_slashes (b :: rest')))
        with (if not_slash a then a :: List.filter not_slash (collapse_slashes (b :: rest'))
              else List.filter not_slash (collapse_slashes (b :: rest'))).
      change (List.filter not_slash (a :: b :: rest'))
        with (if not_slash a then a :: List.filter not_slash (b :: rest')
              else List.filter not_slash (b :: rest')).
      rewrite IH. reflexivity.
  - change (List.filter not_slash (a :: collapse_slashes (b :: rest')))
      with (if not_slash a then a :: List.filter not_slash (collapse_slashes (b :: rest'))
            else List.filter not_slash (collapse_slashes (b :: rest'))).
    change (List.filter not_slash (a :: b :: rest'))
      with (if not_slash a then a :: List.filter not_slash (b :: rest')
            else List.filter not_slash (b :: rest')).
    rewrite IH. reflexivity.
Qed.

Lemma lstrip_slash_keeps_others (s : list ascii) :
  List.filter not_slash (lstrip "/" s) = List.filter not_slash s.
Proof.
  induction s as [|a rest IH]; [reflexivity|].
  cbn [lstrip]. destruct (Ascii.eqb a "/") eqn:Ea; [|reflexivity].
  assert (Ha : not_slash a = false) by (unfold not_slash; rewrite Ea; reflexivity).
  rewrite IH. symmetry.
  change (List.filter not_slash (a :: rest))
    with (if not_slash a then a :: List.filter not_slash rest
          else List.filter not_slash rest).
  rewrite Ha. reflexivity.
Qed.

Lemma rstrip_slash_keeps_others (s : list ascii) :
  List.filter not_slash (rstrip "/" s) = List.filter not_slash s.
Proof.
  unfold rstrip.
  rewrite List.filter_rev, lstrip_slash_keeps_others, List.filter_rev.
  apply rev_involutive.
Qed.

Lemma strip_slash_keeps_others (s : list ascii) :
  List.filter not_slash (strip "/" s) = List.filter not_slash s.
Proof.
  unfold strip. rewrite rstrip_slash_keeps_others. apply lstrip_slash_keeps_others.
Qed.

Lemma collapse_slashes_not_longer (s : list ascii) :
  (List.length (collapse_slashes s) <= List.length s)%nat.
Proof.
  induction s as [|a rest IH]; [reflexivity|].
  cbn [collapse_slashes]. destruct rest as [|b rest']; [reflexivity|].
  destruct (Ascii.eqb a "/" && Ascii.eqb b "/")%bool; cbn [List.length] in *; lia.
Qed.

Lemma lstrip_not_longer (x : ascii) (s : list ascii) :
  (List.length (lstrip x s) <= List.length s)%nat.
Proof.
  induction s as [|a rest IH]; [reflexivity|].
  cbn [lstrip]. destruct (Ascii.eqb a x); cbn [List.length]; lia.
Qed.

Lemma strip_not_longer (x : ascii) (s : list ascii) :
  (List.length (strip x s) <= List.length s)%nat.
Proof.
  unfold strip, rstrip. rewrite length_rev.
  etransitivity; [apply lstrip_not_longer|]. rewrite length_rev. apply lstrip_not_longer.
Qed.

Lemma slice_to_is_prefix (n : Z) (s : list ascii) :
  exists rest, s = slice_to n s ++ rest.
Proof.
  unfold slice_to. destruct (0 <=? n); eexists; symmetry; apply firstn_skipn.
Qed.

(** The body is the raw name with every character outside the kept class
    replaced by an underscore, less slashes and, when the name is too
    long, less a tail. *)
Lemma secret_name_body_from_name (name random_suffix body : list ascii) :
  secret_name_body name random_suffix = Ok body ->
  exists dropped,
    List.filter not_slash (replace_disallowed name)
    = List.filter not_slash body ++ dropped /\
    (len name <= 512 - len random_suffix - 1 -> dropped = []).
Proof.
  unfold secret_name_body.
  destruct (suffix_matches random_suffix); cbn [negb]; [|discriminate].
  set (s1 := strip "/" (collapse_slashes (replace_disallowed name))).
  assert (H1 : List.filter not_slash s1
               = List.filter not_slash (replace_disallowed name)).
  { subst s1. rewrite strip_slash_keeps_others.
    apply collapse_slashes_keeps_others. }
  assert (Hlen : len s1 <= len name).
  { subst s1. unfold len.
    pose proof (strip_not_longer "/" (collapse_slashes (replace_disallowed name))).
    pose proof (collapse_slashes_not_longer (replace_disallowed name)).
    unfold replace_disallowed in *. rewrite length_map in *. lia. }
  destruct s1 as [|a s1'] eqn:Es1; [discriminate|].
  rewrite <- Es1 in *. clear Es1.
  destruct (Z.ltb_spec (512 - len random_suffix - 1) (len s1)) as [Hlong | Hshort].
  - destruct (rstrip "/" (slice_to (512 - len random_suffix - 1) s1))
      as [|b t] eqn:Et; [discriminate|].
    intros [= <-]. rewrite <- Et.
    destruct (slice_to_is_prefix (512 - len random_suffix - 1) s1) as [rest Hrest].
    exists (List.filter not_slash rest). split; [|intros Hfits; lia].
    rewrite rstrip_slash_keeps_others, <- H1.
    rewrite Hrest at 1. apply List.filter_app.
  - destruct s1 as [|b t] eqn:Et; [discriminate|].
    intros [= <-]. exists []. rewrite app_nil_r. split; [|reflexivity].
    symmetry. exact H1.
Qed.

(** C10: whenever a secret name is produced, it is the sanitized body, an
    underscore and the random suffix.  The body is not empty, holds only
    characters of [a-zA-Z0-9_./] and so no hyphen.  It is made from the
    raw name: apart from slashes, its characters are, in order, those of
    the raw name with every character outside the kept class replaced by
    an underscore (all of them when the raw name leaves room for the
    suffix, the leading ones otherwise); and that replacement turns every
    hyphen of the raw name into an underscore.  So a hyphen in the final
    name comes from the random suffix. *)
Theorem secret_name_body_has_no_hyphen (name random_suffix final : string) :
  _sanitize_secret_name name random_suffix = Ok final ->
  exists body dropped : list ascii,
    final = (string_of_list_ascii body ++ "_" ++ random_suffix)%string /\
    body <> [] /\
    ~ In hyphen body /\
    (forall c, In c body -> secret_body_class c = true) /\
    List.filter not_slash (replace_disallowed (list_ascii_of_string name))
    = List.filter not_slash body ++ dropped /\
    (len (list_ascii_of_string name)
     <= 512 - len (list_ascii_of_string random_suffix) - 1 -> dropped = []) /\
    (forall i, nth_error (list_ascii_of_string name) i = Some hyphen ->
       nth_error (replace_disallowed (list_ascii_of_string name)) i = Some "_"%char) /\
    (In hyphen (list_ascii_of_string final) ->
       In hyphen (list_ascii_of_string random_suffix)).
Proof.
  unfold _sanitize_secret_name.
  destruct (secret_name_body (list_ascii_of_string name)
              (list_ascii_of_string random_suffix)) as [body|] eqn:Hbody;
    cbn [rbind]; [|discriminate].
  intros [= <-].
  destruct (secret_name_body_from_name _ _ _ Hbody) as (dropped & Hfrom & Hall).
  exists body, dropped.
  apply secret_name_body_chars in Hbody. destruct Hbody as [Hne Hin].
  assert (Hclass : forall c, In c body -> secret_body_class c = true).
  { intros c Hc. eapply replace_disallowed_class. apply Hin. exact Hc. }
  assert (Hno : ~ In hyphen body).
  { intros Hc. apply Hclass in Hc. rewrite hyphen_not_in_body_class in Hc.
    discriminate. }
  split; [reflexivity|]. split; [exact Hne|]. split; [exact Hno|].
  split; [exact Hclass|]. split; [exact Hfrom|]. split; [exact Hall|]. split.
  - intros i. apply replace_disallowed_hyphen.
  - rewrite !list_ascii_of_string_app, list_ascii_of_string_of_list_ascii.
    intros H. apply in_app_or in H. destruct H as [H | H]; [contradiction|].
    apply in_app_or in H. destruct H as [[H | []] | H]; [discriminate | exact H].
Qed.

Lemma secret_name_body_has_no_hyphen_witness :
  exists body dropped : list ascii,
    "zenml_my_endpoint_a1b2c3d4"%string
      = (string_of_list_ascii body ++ "_" ++ "a1b2c3d4")%string /\
    body <> [] /\
    ~ In hyphen body /\
    (forall c, In c body -> secret_body_class c = true) /\
    List.filter not_slash (replace_disallowed (list_ascii_of_string "zenml-my-endpoint"))
    = List.filter not_slash body ++ dropped /\
    (len (list_ascii_of_string "zenml-my-endpoint")
     <= 512 - len (list_ascii_of_string "a1b2c3d4") - 1 -> dropped = []) /\
    (forall i, nth_error (list_ascii_of_string "zenml-my-endpoint") i = Some hyphen ->
       nth_error (replace_disallowed (list_ascii_of_string "zenml-my-endpoint")) i
       = Some "_"%char) /\
    (In hyphen (list_ascii_of_string "zenml_my_endpoint_a1b2c3d4") ->
       In hyphen (list_ascii_of_string "a1b2c3d4")).
Proof.
  apply (secret_name_body_has_no_hyphen "zenml-my-endpoint" "a1b2c3d4").
  vm_compute. reflexivity.
Defined.

(** ** Operational state of a service *)

Lemma operational_state_cases
    (builder : pyval -> string -> pyval -> result pyval)
    (service : pyval) (region : string) (secret : pyval)
    (st : PipelineEndpointOperationalState) :
  _get_service_operational_state builder service region secret = Ok st ->
  (status st <> RUNNING /\ url st = PNone) \/
  (status st = RUNNING /\ url st = with_https (remote_url service) /\
   (truthy (url st) = true <-> truthy (remote_url service) = true)).
Proof.
  unfold _get_service_operational_state.
  destruct (builder service region secret) as [md|]; cbn [rbind]; [|discriminate].
  destruct service as [| | | | |d]; cbn [py_get rbind]; try discriminate.
  destruct (py_upper _) as [service_status|]; cbn [rbind]; [|discriminate].
  destruct (String.eqb service_status "CREATE_FAILED"
            || String.eqb service_status "DELETE_FAILED")%bool.
  { intros [= <-]. left. split; [discriminate | reflexivity]. }
  destruct (String.eqb service_status "OPERATION_IN_PROGRESS").
  { intros [= <-]. left. split; [discriminate | reflexivity]. }
  destruct (String.eqb service_status "RUNNING").
  - unfold remote_url, lookup1.
    destruct (d !! "ServiceUrl"%string) as [u|]; cbn [or_none].
    + destruct (truthy u) eqn:Hu.
      * destruct u as [| | |u| |]; try discriminate.
        cbn [truthy] in Hu. cbn [with_https]. rewrite Hu. cbn [andb].
        destruct (String.prefix "https://" u) eqn:Hp; cbn [negb];
          intros [= <-]; right; cbn [status url truthy].
        -- split; [reflexivity|]. split; [reflexivity|]. rewrite Hu. tauto.
        -- split; [reflexivity|]. split; [reflexivity|]. cbn. tauto.
      * intros [= <-]. right. cbn [status url].
        split; [reflexivity|]. split; [|rewrite Hu; tauto].
        destruct u as [| | |u| |]; try reflexivity.
        cbn [truthy] in Hu. cbn [with_https]. rewrite Hu. reflexivity.
    + intros [= <-]. right. cbn. split; [reflexivity|]. split; [reflexivity | tauto].
  - destruct (String.eqb service_status "DELETED").
    { intros [= <-]. left. split; [discriminate | reflexivity]. }
    destruct (String.eqb service_status "PAUSED");
      intros [= <-]; left; (split; [discriminate | reflexivity]).
Qed.

(** C4, as the specification words it, fails: a service reported as
    RUNNING without a [ServiceUrl] yields the status [RUNNING] with no
    URL. *)
Lemma running_state_without_url :
  exists st,
    _get_service_operational_state region_only_metadata
      running_without_url "eu-central-1" PNone = Ok st /\
    ~ url_iff_running st.
Proof.
  eexists. split; [vm_compute; reflexivity|].
  unfold url_iff_running. cbn. intros [_ H].
  specialize (H eq_refl). discriminate.
Qed.

(** C4 (amended): a state built from a service description has a non-empty
    URL exactly when its status is [RUNNING] and the remote service reports
    a non-empty URL; when [RUNNING], the URL is the reported one with
    [https://] put in front if it is non-empty and lacks it; in every
    other status the URL is unset. *)
Theorem url_set_only_when_running
    (builder : pyval -> string -> pyval -> result pyval)
    (service : pyval) (region : string) (secret : pyval)
    (st : PipelineEndpointOperationalState) :
  _get_service_operational_state builder service region secret = Ok st ->
  (truthy (url st) = true <->
     status st = RUNNING /\ truthy (remote_url service) = true) /\
  (status st = RUNNING -> url st = with_https (remote_url service)) /\
  (status st <> RUNNING -> url st = PNone).
Proof.
  intros H. apply operational_state_cases in H.
  destruct H as [[Hs Hu] | (Hs & Hu & Ht)].
  - rewrite Hu. cbn [truthy]. split; [|split].
    + split; [discriminate | intros [? _]; contradiction].
    + intros ?; contradiction.
    + reflexivity.
  - split; [|split].
    + rewrite Ht. tauto.
    + intros _. exact Hu.
    + intros ?; contradiction.
Qed.

Lemma url_set_only_when_running_witness :
  let st := {| status := RUNNING;
               url := PStr "https://abc.eu-central-1.awsapprunner.com";
               metadata := dict_of [("region", PStr "eu-central-1")]%string |} in
  (truthy (url st) = true <->
     status st = RUNNING /\ truthy (remote_url running_service) = true) /\
  (status st = RUNNING -> url st = with_https (remote_url running_service)) /\
  (status st <> RUNNING -> url st = PNone).
Proof.
  apply (url_set_only_when_running region_only_metadata running_service
           "eu-central-1" PNone).
  vm_compute. reflexivity.
Defined.

(** ** ScalingPolicyManager *)

Lemma calls_since_app {W} (s s' : St W) (l : list call) :
  trace s' = trace s ++ l -> calls_since s s' = l.
Proof.
  intros H. unfold calls_since. rewrite H.
  rewrite skipn_app, skipn_all, Nat.sub_diag. reflexivity.
Qed.

Section ScalingPolicy.

Variable World : Type.
Variable remote : call -> World -> result pyval * World.
Variable deployer_name deployer_id : string.

(** C7: when the recorded policy reference still resolves and its three
    values equal the desired ones, ensuring the policy returns that
    reference and makes one read call and no write call. *)
Theorem scaling_policy_reused_without_write
    (config_name arn : string) (min_size max_size max_concurrency : Z)
    (endpoint : PipelineEndpointResponse)
    (s : St World) (response : pyval) (w' : World) :
  nonempty (_get_auto_scaling_config_arn endpoint) = Some arn ->
  remote (describe_auto_scaling_configuration arn) (world s) = (Ok response, w') ->
  config_matches response min_size max_size max_concurrency ->
  exists s',
    _create_or_update_auto_scaling_config World remote deployer_name deployer_id
      config_name min_size max_size max_concurrency endpoint s
    = (Ok (PStr arn), s') /\
    world s' = w' /\
    calls_since s s' = [describe_auto_scaling_configuration arn] /\
    filter is_write (calls_since s s') = [].
Proof.
  intros Harn Hremote (cfg & mc & ms & mn & Hcfg & Hmc & Emc & Hms & Ems & Hmn & Emn).
  eexists.
  unfold _create_or_update_auto_scaling_config, reuse_existing_config.
  unfold try_except, bind, invoke, lift, ret, logger.
  rewrite Harn, Hremote. cbn [world trace log].
  rewrite Hcfg, Hmc, Emc, Hms, Ems, Hmn, Emn. cbn [world trace log].
  split; [reflexivity|]. split; [reflexivity|].
  rewrite (calls_since_app _ _ [describe_auto_scaling_configuration arn])
    by reflexivity.
  split; reflexivity.
Qed.

End ScalingPolicy.

(** The first call of the example creates the policy. *)
Example first_ensure_creates :
  fst (_create_or_update_auto_scaling_config FakeWorld fake_remote
         "aws-deployer" "deployer-0001"
         "zenml-my-endpoint-a1b2c3d4" 1 25 100
         (example_endpoint None None)
         (initial_state {| describe_answers := [];
                           secrets_reachable := true;
                           scaling_config := None |}))
  = Ok (PStr fake_asc_arn) /\
  filter is_write (trace after_first_ensure)
  = [create_auto_scaling_configuration "zenml-my-endpoint-a1b2c3d4" 100 25 1
       (zenml_tags "aws-deployer" "deployer-0001" (example_endpoint None None))].
Proof. split; vm_compute; reflexivity. Qed.

(** The second call, once the reference is recorded, reuses it. *)
Lemma scaling_policy_reused_without_write_witness :
  exists s',
    _create_or_update_auto_scaling_config FakeWorld fake_remote
      "aws-deployer" "deployer-0001"
      "zenml-my-endpoint-a1b2c3d4" 1 25 100
      (example_endpoint None (Some fake_asc_arn)) after_first_ensure
    = (Ok (PStr fake_asc_arn), s') /\
    world s' = world after_first_ensure /\
    calls_since after_first_ensure s'
    = [describe_auto_scaling_configuration fake_asc_arn] /\
    filter is_write (calls_since after_first_ensure s') = [].
Proof.
  apply (scaling_policy_reused_without_write FakeWorld fake_remote
           "aws-deployer" "deployer-0001" "zenml-my-endpoint-a1b2c3d4"
           fake_asc_arn 1 25 100 (example_endpoint None (Some fake_asc_arn))
           after_first_ensure
           (dict_of [("AutoScalingConfiguration",
              dict_of [("MaxConcurrency", PInt 100); ("MaxSize", PInt 25);
                       ("MinSize", PInt 1)])]%string)
           (world after_first_ensure)).
  - reflexivity.
  - vm_compute. reflexivity.
  - unfold config_matches. eexists _, _, _, _.
    repeat split; vm_compute; reflexivity.
Defined.

(** ** SecretManager: the fallback of provisioning *)

Ltac run_monad :=
  repeat (progress (unfold bind, try_except, lift, ret, raise, logger, invoke;
                    cbn [world trace log fst snd])).

Section SecretFallback.

Variable World : Type.
Variable remote : call -> World -> result pyval * World.
Variable deployer_name deployer_id : string.

(** When storing the secret fails and the endpoint has no secret
    recorded, the secrets are injected as plain environment variables,
    the warning is logged and nothing is raised. *)
Lemma secret_fallback_without_recorded_secret
    (endpoint : PipelineEndpointResponse)
    (md : AppRunnerPipelineEndpointMetadata)
    (environment secrets : gmap string string)
    (settings : AWSDeployerSettings)
    (secret_name : string) (e : exn) (s s1 : St World) :
  secrets <> ∅ ->
  use_secrets_manager settings = true ->
  _get_secret_name (ep_name endpoint) (ep_id endpoint)
    (secret_name_prefix settings) = Ok secret_name ->
  _create_or_update_secret World remote deployer_name deployer_id
    secret_name secrets endpoint s = (Raise e, s1) ->
  endpoint_metadata endpoint = Some md ->
  nonempty (secret_arn md) = None ->
  _prepare_environment_variables World remote deployer_name deployer_id
    endpoint environment secrets settings s
  = (Ok (secrets ∪ (environment ∪ environment_variables settings), ∅, PNone),
     {| world := world s1; trace := trace s1;
        log := log s1 ++ [fallback_warning] |}).
Proof.
  intros Hne Huse Hname Hfail Hmd Hnone.
  unfold _prepare_environment_variables.
  rewrite bool_decide_eq_false_2 by exact Hne.
  rewrite Huse, Hname.
  unfold bind at 1. unfold lift at 1.
  unfold bind at 1. unfold try_except at 1. unfold bind at 1.
  rewrite Hfail.
  unfold _get_secret_arn, from_endpoint. rewrite Hmd.
  run_monad. rewrite Hnone. reflexivity.
Qed.

(** When storing the secret fails, the endpoint has a secret recorded and
    checking that secret fails with anything but a [ClientError], the
    method raises: the check is made after the fallback and only
    [ClientError] is caught around it. *)
Lemma secret_fallback_then_check_raises
    (endpoint : PipelineEndpointResponse)
    (md : AppRunnerPipelineEndpointMetadata)
    (environment secrets : gmap string string)
    (settings : AWSDeployerSettings)
    (secret_name old : string) (e e' : exn) (s s1 : St World) (w2 : World) :
  secrets <> ∅ ->
  use_secrets_manager settings = true ->
  _get_secret_name (ep_name endpoint) (ep_id endpoint)
    (secret_name_prefix settings) = Ok secret_name ->
  _create_or_update_secret World remote deployer_name deployer_id
    secret_name secrets endpoint s = (Raise e, s1) ->
  endpoint_metadata endpoint = Some md ->
  nonempty (secret_arn md) = Some old ->
  remote (describe_secret old) (world s1) = (Raise e', w2) ->
  (forall code, e' <> ClientError code) ->
  _prepare_environment_variables World remote deployer_name deployer_id
    endpoint environment secrets settings s
  = (Raise e',
     {| world := w2; trace := trace s1 ++ [describe_secret old];
        log := log s1 ++ [fallback_warning] |}).
Proof.
  intros Hne Huse Hname Hfail Hmd Hold Hdesc Hnot.
  unfold _prepare_environment_variables.
  rewrite bool_decide_eq_false_2 by exact Hne.
  rewrite Huse, Hname.
  unfold bind at 1. unfold lift at 1.
  unfold bind at 1. unfold try_except at 1. unfold bind at 1.
  rewrite Hfail.
  unfold _get_secret_arn, from_endpoint. rewrite Hmd.
  run_monad. rewrite Hold. run_monad. rewrite Hdesc.
  destruct e'; try reflexivity.
  exfalso. eapply Hnot. reflexivity.
Qed.

End SecretFallback.

(** C6 (the code at the failing input): Secrets Manager is unreachable and
    the endpoint has a secret recorded.  Storing the secret fails, the
    warning is logged, and then the check of the recorded secret raises
    [BotoCoreError] out of [_prepare_environment_variables], which
    provisioning calls outside any handler. *)
Theorem secret_storage_outage_fails_provisioning :
  let run :=
    _prepare_environment_variables FakeWorld fake_remote
      "aws-deployer" "deployer-0001"
      (example_endpoint (Some old_secret_arn) None) ∅ api_key_secret
      (plain_settings true) secrets_down in
  fst run = Raise BotoCoreError /\
  log (snd run) = [fallback_warning] /\
  trace (snd run)
  = [update_secret "zenml_my_endpoint_a1b2c3d4" api_key_secret;
     describe_secret old_secret_arn].
Proof. vm_compute. repeat split; reflexivity. Qed.

(** The same outage for an endpoint with no secret recorded: the fallback
    alone runs. *)
Example secret_storage_outage_fresh_endpoint :
  let run :=
    _prepare_environment_variables FakeWorld fake_remote
      "aws-deployer" "deployer-0001"
      (example_endpoint None None) ∅ api_key_secret
      (plain_settings true) secrets_down in
  fst run = Ok (api_key_secret, ∅, PNone) /\
  log (snd run) = [fallback_warning].
Proof. vm_compute. repeat split; reflexivity. Qed.

(** ** Deprovisioning *)

Ltac close_trace :=
  cbn [fst snd world trace log];
  first
    [ exists []; split; [rewrite app_nil_r; reflexivity | reflexivity]
    | eexists; split; [rewrite <- ?app_assoc; reflexivity | reflexivity] ].

Ltac split_runs :=
  repeat (run_monad;
          match goal with
          | |- context [match ?x with _ => _ end] =>
              lazymatch x with
              | context [match _ with _ => _ end] => fail
              | _ => destruct x
              end
          end).

Section Deprovision.

Variable World : Type.
Variable remote : call -> World -> result pyval * World.
Variable _poll_pipeline_endpoint :
  PipelineEndpointResponse -> PipelineEndpointStatus -> Z ->
  M World (PipelineEndpointResponse * PipelineEndpointOperationalState).

(** Before the polling, the only calls are the look-up of the service and
    the request to delete it. *)
Lemma request_deletion_calls (endpoint : PipelineEndpointResponse) (s : St World) :
  exists pre,
    trace (snd (request_deletion World remote endpoint s)) = trace s ++ pre /\
    filter is_aux_cleanup pre = [].
Proof.
  unfold request_deletion, _get_app_runner_service, from_endpoint.
  split_runs; close_trace.
Qed.

(** The clean-up only adds calls after those already made. *)
Lemma cleanup_auxiliary_appends (endpoint : PipelineEndpointResponse) (s : St World) :
  exists post,
    trace (snd (cleanup_auxiliary World remote endpoint s)) = trace s ++ post.
Proof.
  unfold cleanup_auxiliary, _cleanup_endpoint_secrets, _get_secret_arn,
    _delete_secret, _cleanup_endpoint_auto_scaling_config,
    _get_auto_scaling_config_arn, from_endpoint.
  split_runs; cbn [fst snd world trace log];
    first [ exists []; rewrite app_nil_r; reflexivity
          | eexists; rewrite <- ?app_assoc; reflexivity ].
Qed.

Lemma status_eqb_eq (a b : PipelineEndpointStatus) :
  status_eqb a b = true <-> a = b.
Proof. destruct a, b; cbn; split; intros H; congruence. Qed.

(** C5: a run of the deprovisioning ends in one of four ways.  It fails
    before polling; or the polling raises; or the polling ends with a
    status other than [ABSENT], and then the last observed state is
    returned and the final state is the one the polling left, no call
    made after it; or the polling ends with [ABSENT], and only then, from
    the state the polling left, the secret and the scaling policy are
    cleaned up.  The calls made before the polling contain no clean-up
    of an auxiliary resource, and the clean-up adds its calls after all
    earlier ones. *)
Theorem cleanup_only_after_absent
    (endpoint : PipelineEndpointResponse) (timeout : Z) (s : St World) :
  let run :=
    do_deprovision_pipeline_endpoint World remote _poll_pipeline_endpoint
      endpoint timeout s in
  deprovision_run World remote _poll_pipeline_endpoint endpoint timeout s
    (fst run) (snd run) /\
  (exists pre,
     trace (snd (request_deletion World remote endpoint s)) = trace s ++ pre /\
     filter is_aux_cleanup pre = []) /\
  (forall s2, exists post,
     trace (snd (cleanup_auxiliary World remote endpoint s2)) = trace s2 ++ post).
Proof.
  cbn zeta.
  split; [|split; [apply request_deletion_calls
                  | intros s2; apply cleanup_auxiliary_appends]].
  destruct (do_deprovision_pipeline_endpoint World remote
              _poll_pipeline_endpoint endpoint timeout s) as [r s'] eqn:Hrun.
  cbn [fst snd]. revert Hrun.
  unfold do_deprovision_pipeline_endpoint, bind.
  destruct (request_deletion World remote endpoint s) as [[[]|e] s1] eqn:Hreq.
  - destruct (_poll_pipeline_endpoint endpoint ABSENT timeout s1)
      as [[[polled observed]|e] s2] eqn:Hpoll.
    + cbn [snd].
      destruct (status_eqb (status observed) ABSENT) eqn:Hst; cbn [negb].
      * apply status_eqb_eq in Hst.
        destruct (cleanup_auxiliary World remote endpoint s2)
          as [cleaned s3] eqn:Hclean.
        pose proof (absent_then_cleanup World remote _poll_pipeline_endpoint
                      endpoint timeout s s1 s2 s3 polled observed cleaned
                      Hreq Hpoll Hst Hclean) as Hcase.
        destruct cleaned as [[]|e]; intros [= <- <-]; exact Hcase.
      * unfold ret. intros [= <- <-].
        eapply ended_not_absent; eauto.
        intros Habs. apply status_eqb_eq in Habs. congruence.
    + intros [= <- <-]. eapply polling_raised; eauto.
  - intros [= <- <-]. apply failed_before_polling. exact Hreq.
Qed.

End Deprovision.

(** A deletion that is still in progress when the timeout elapses: the
    pending state is returned, and neither the secret nor the scaling
    policy has been touched. *)
Example stuck_deletion_leaves_auxiliaries :
  let run :=
    do_deprovision_pipeline_endpoint FakeWorld fake_remote fake_poller
      provisioned_endpoint 10 deletion_stuck in
  (exists st, fst run = Ok (Some st) /\ status st = PENDING) /\
  filter is_aux_cleanup (trace (snd run)) = [] /\
  filter is_write (trace (snd run)) = [delete_service service_arn_of_example].
Proof.
  vm_compute. split; [eexists; split; reflexivity | split; reflexivity].
Qed.

(** A deletion that completes: the clean-up calls come last, after the
    poll that saw the service deleted. *)
Example completed_deletion_cleans_up :
  let run :=
    do_deprovision_pipeline_endpoint FakeWorld fake_remote fake_poller
      provisioned_endpoint 10 deletion_completes in
  fst run = Ok None /\
  trace (snd run)
  = [describe_service service_arn_of_example;
     delete_service service_arn_of_example;
     describe_service service_arn_of_example;
     describe_secret old_secret_arn;
     describe_service service_arn_of_example;
     describe_secret old_secret_arn;
     describe_secret old_secret_arn;
     delete_secret old_secret_arn;
     delete_auto_scaling_configuration fake_asc_arn].
Proof. vm_compute. split; reflexivity. Qed.

(** ** Log retrieval *)

(** C8, as the specification words it, fails: the call with [follow] set
    raises nothing where it is made; it returns a generator object. *)
Lemma follow_call_does_not_raise :
  ~ raises_at_call
      (do_get_pipeline_endpoint_logs FakeWorld fake_remote message_only_line
         provisioned_endpoint true None)
      deletion_completes.
Proof.
  unfold raises_at_call. intros [e H]. vm_compute in H. discriminate.
Qed.

(** C8 (amended): a call with [follow] set returns a generator without
    touching the remote platform; the first iteration of that generator
    raises [NotImplementedError], before any remote call and before any
    log line is yielded, instead of a finite sequence of lines. *)
Theorem follow_fails_on_first_iteration
    (World : Type) (remote : call -> World -> result pyval * World)
    (format_log_line : pyval -> pyval -> result string)
    (endpoint : PipelineEndpointResponse) (tail : option Z) (s : St World) :
  exists g,
    do_get_pipeline_endpoint_logs World remote format_log_line
      endpoint true tail s = (Ok g, s) /\
    first_next g s = (Raise NotImplementedError, s) /\
    drain g s = (Raise NotImplementedError, s).
Proof.
  eexists. split; [reflexivity|]. split; reflexivity.
Qed.

(** Without [follow], the same call on the example platform yields the
    (here empty) list of lines after one [describe_log_streams] call. *)
Example logs_without_follow :
  let g := {| gen_body :=
                logs_body FakeWorld fake_remote message_only_line
                  provisioned_endpoint false None |} in
  fst (drain g deletion_completes) = Ok [] /\
  trace (snd (drain g deletion_completes))
  = [describe_service service_arn_of_example;
     describe_log_streams "/aws/apprunner/zenml-my-endpoint-a1b2c3d4/service"].
Proof. vm_compute. split; reflexivity. Qed.

(** ** Serving runtime: the outputs handed out *)

Lemma fresh_outer_none (st : Store) :
  outers st !! fresh (dom (outers st)) = None.
Proof. apply not_elem_of_dom. apply is_fresh. Qed.

Lemma fresh_inner_none (st : Store) :
  inners st !! fresh (dom (inners st)) = None.
Proof. apply not_elem_of_dom. apply is_fresh. Qed.

Lemma read_outer_write_eq (st : Store) (a : positive) (d : gmap string positive) :
  read_outer (write_outer st a d) a = d.
Proof. unfold read_outer, write_outer. cbn. rewrite lookup_insert_eq. reflexivity. Qed.

Lemma read_outer_write_ne (st : Store) (a a' : positive) (d : gmap string positive) :
  a <> a' -> read_outer (write_outer st a d) a' = read_outer st a'.
Proof.
  intros H. unfold read_outer, write_outer. cbn.
  rewrite lookup_insert_ne by exact H. reflexivity.
Qed.

Lemma wf_initial : wf initial_runtime.
Proof.
  unfold wf, initial_runtime, new_outer. cbn. split.
  - rewrite lookup_insert_eq. eauto.
  - intros step b. rewrite read_outer_write_eq, lookup_empty. discriminate.
Qed.

Lemma wf_start (request_id snapshot_id : string) (parameters : gmap string pyval)
    (use_in_memory : bool) (rt : Runtime) :
  wf (start request_id snapshot_id parameters use_in_memory rt).
Proof.
  unfold wf, start, new_outer. cbn. split.
  - rewrite lookup_insert_eq. eauto.
  - intros step b. rewrite read_outer_write_eq, lookup_empty. discriminate.
Qed.

Lemma wf_stop (rt : Runtime) : wf (stop rt).
Proof.
  unfold wf, stop. cbn. split.
  - rewrite lookup_insert_eq. eauto.
  - intros step b. rewrite read_outer_write_eq, lookup_empty. discriminate.
Qed.

Lemma wf_record_step_outputs (step_name : string) (new_outputs : gmap string pyval)
    (rt : Runtime) :
  wf rt -> wf (record_step_outputs step_name new_outputs rt).
Proof.
  intros [Hroot Hinner]. unfold record_step_outputs.
  destruct (negb (active (context rt))); [split; assumption|].
  destruct (bool_decide (dom new_outputs = ∅)); [split; assumption|].
  destruct (read_outer (store rt) (outputs (context rt)) !! step_name)
    as [b|] eqn:Hstep.
  - split; cbn.
    + exact Hroot.
    + intros step b' Hb'.
      change (read_outer (store rt) (outputs (context rt)) !! step = Some b') in Hb'.
      destruct (decide (b = b')) as [<-|Hne].
      * rewrite lookup_insert_eq. eauto.
      * rewrite lookup_insert_ne by exact Hne. eapply Hinner. exact Hb'.
  - unfold new_inner. split; cbn.
    + rewrite lookup_insert_eq. eauto.
    + intros step b' Hb'.
      unfold read_outer in Hb'. cbn in Hb'. rewrite lookup_insert_eq in Hb'.
      destruct (decide (fresh (dom (inners (store rt))) = b')) as [<-|Hne].
      * rewrite lookup_insert_eq. eauto.
      * rewrite !lookup_insert_ne by exact Hne.
        destruct (decide (step_name = step)) as [<-|Hs].
        -- rewrite lookup_insert_eq in Hb'. congruence.
        -- rewrite lookup_insert_ne in Hb' by exact Hs.
           eapply Hinner. exact Hb'.
Qed.

Lemma outputs_not_fresh (rt : Runtime) :
  wf rt -> fresh (dom (outers (store rt))) <> outputs (context rt).
Proof.
  intros [[d Hd] _] Heq. rewrite <- Heq, fresh_outer_none in Hd. discriminate.
Qed.

Lemma wf_get_outputs (rt : Runtime) : wf rt -> wf (snd (get_outputs rt)).
Proof.
  intros Hwf. pose proof (outputs_not_fresh rt Hwf) as Hne.
  destruct Hwf as [Hroot Hinner].
  unfold wf, get_outputs, new_outer. cbn. split.
  - rewrite lookup_insert_ne by exact Hne. exact Hroot.
  - intros step b. rewrite read_outer_write_ne by exact Hne. apply Hinner.
Qed.

Lemma wf_run_calls (calls : list api_call) (rt : Runtime) :
  wf rt -> wf (run_calls calls rt).
Proof.
  revert rt. induction calls as [|c calls IH]; intros rt Hwf; [exact Hwf|].
  cbn. apply IH. destruct c; cbn.
  - apply wf_start.
  - apply wf_stop.
  - apply wf_record_step_outputs. exact Hwf.
  - apply wf_get_outputs. exact Hwf.
Qed.

Lemma agrees_on_refl (root : positive) (st : Store) : agrees_on root st st.
Proof. split; [reflexivity | intros b _; reflexivity]. Qed.

Lemma agrees_on_trans (root : positive) (st1 st2 st3 : Store) :
  agrees_on root st1 st2 -> agrees_on root st2 st3 -> agrees_on root st1 st3.
Proof.
  intros [Ho12 Hi12] [Ho23 Hi23]. split.
  - rewrite Ho23. exact Ho12.
  - intros b Hb. rewrite <- (Hi12 b Hb). apply Hi23.
    rewrite (Hi12 b Hb). exact Hb.
Qed.

(** A top-level mutation of [r] writes the outer dict [r] and, for a new
    step, a new inner dict: nothing that [root] reaches. *)
Lemma top_level_mutation_agrees (r root : positive) (st : Store) (m : mutation) :
  is_top_level m = true -> r <> root ->
  agrees_on root st (apply_mutation r st m).
Proof.
  intros Htop Hne. destruct m; try discriminate; cbn; split; cbn.
  - rewrite lookup_insert_ne by exact Hne. reflexivity.
  - intros b [d Hb]. rewrite lookup_insert_ne; [reflexivity|].
    intros Heq. rewrite <- Heq, fresh_inner_none in Hb. discriminate.
  - rewrite lookup_insert_ne by exact Hne. reflexivity.
  - intros b _. reflexivity.
  - rewrite lookup_insert_ne by exact Hne. reflexivity.
  - intros b _. reflexivity.
Qed.

Lemma top_level_mutations_agree (r root : positive) (muts : list mutation) (st : Store) :
  forallb is_top_level muts = true -> r <> root ->
  agrees_on root st (fold_left (apply_mutation r) muts st).
Proof.
  revert st. induction muts as [|m muts IH]; intros st Htop Hne; cbn.
  - apply agrees_on_refl.
  - cbn in Htop. apply andb_true_iff in Htop. destruct Htop as [Hm Hrest].
    eapply agrees_on_trans.
    + apply top_level_mutation_agrees; eassumption.
    + apply IH; assumption.
Qed.

Lemma agrees_on_snapshot (root : positive) (st st' : Store) :
  (forall step b, read_outer st root !! step = Some b -> is_Some (inners st !! b)) ->
  agrees_on root st st' ->
  snapshot st' root = snapshot st root.
Proof.
  intros Hinner [Ho Hi]. unfold snapshot.
  assert (Hroot : read_outer st' root = read_outer st root).
  { unfold read_outer. rewrite Ho. reflexivity. }
  rewrite Hroot. apply map_fmap_ext. intros step b Hb.
  unfold read_inner. rewrite (Hi b (Hinner step b Hb)). reflexivity.
Qed.

(** The dict that [get_outputs] hands out holds what the context holds. *)
Lemma get_outputs_snapshot (rt : Runtime) :
  snapshot (store (snd (get_outputs rt))) (fst (get_outputs rt))
  = snapshot (store rt) (outputs (context rt)).
Proof.
  unfold get_outputs, new_outer, snapshot. cbn.
  rewrite read_outer_write_eq. reflexivity.
Qed.

(** C9, as the specification words it, fails: writing through a nested
    map of the returned dict changes the output the context holds. *)
Lemma nested_mutation_reaches_context :
  ~ mutations_leave_outputs_intact one_output_recorded
      [set_output "trainer" "accuracy" (PInt 0)].
Proof.
  unfold mutations_leave_outputs_intact. intros H.
  apply (f_equal (fun m : gmap string (gmap string pyval) =>
                    match m !! "trainer"%string with
                    | Some d => d !! "accuracy"%string
                    | None => None
                    end)) in H.
  vm_compute in H. discriminate.
Qed.

(** C9 (amended): [get_outputs] returns a copy of the top level only.
    After any calls of the serving process, whatever top-level mutations
    (setting a step to a new dict, removing a step, clearing) are applied
    to the returned dict, the state of the context is the same, its
    outputs are what they were, and a later [get_outputs] returns the same
    outputs; the nested per-step maps are shared with the context. *)
Theorem top_level_mutations_keep_outputs
    (calls : list api_call) (muts : list mutation) :
  forallb is_top_level muts = true ->
  let rt := run_calls calls initial_runtime in
  let r := fst (get_outputs rt) in
  let rt2 := {| store := fold_left (apply_mutation r) muts
                           (store (snd (get_outputs rt)));
                context := context (snd (get_outputs rt)) |} in
  context rt2 = context rt /\
  mutations_leave_outputs_intact rt muts /\
  snapshot (store (snd (get_outputs rt2))) (fst (get_outputs rt2))
  = snapshot (store rt) (outputs (context rt)).
Proof.
  intros Htop rt r rt2.
  assert (Hwf : wf rt) by (apply wf_run_calls, wf_initial).
  pose proof (outputs_not_fresh rt Hwf) as Hne.
  assert (Hwf1 : wf (snd (get_outputs rt))) by (apply wf_get_outputs; exact Hwf).
  assert (Hkeep :
    snapshot (fold_left (apply_mutation r) muts (store (snd (get_outputs rt))))
             (outputs (context rt))
    = snapshot (store rt) (outputs (context rt))).
  { transitivity (snapshot (store (snd (get_outputs rt))) (outputs (context rt))).
    - apply agrees_on_snapshot.
      + destruct Hwf1 as [_ Hinner]. exact Hinner.
      + apply top_level_mutations_agree; [exact Htop | exact Hne].
    - apply agrees_on_snapshot.
      + destruct Hwf as [_ Hinner]. exact Hinner.
      + unfold get_outputs, new_outer. cbn. split; cbn.
        * rewrite lookup_insert_ne by exact Hne. reflexivity.
        * intros b _. reflexivity. }
  split; [reflexivity|]. split.
  - unfold mutations_leave_outputs_intact.
    destruct (get_outputs rt) as [r0 rt1] eqn:Hget.
    subst r. cbn [fst snd] in Hkeep. exact Hkeep.
  - rewrite get_outputs_snapshot. subst rt2. cbn [store context].
    exact Hkeep.
Qed.

Lemma top_level_mutations_keep_outputs_witness :
  let muts := [set_step "trainer" {[ "accuracy"%string := PInt 0 ]};
               del_step "trainer"; clear_steps] in
  let rt := run_calls
              [Start "req-1" "snap-1" ∅ false;
               RecordStepOutputs "trainer" {[ "accuracy"%string := PInt 90 ]}]
              initial_runtime in
  let r := fst (get_outputs rt) in
  let rt2 := {| store := fold_left (apply_mutation r) muts
                           (store (snd (get_outputs rt)));
                context := context (snd (get_outputs rt)) |} in
  context rt2 = context rt /\
  mutations_leave_outputs_intact rt muts /\
  snapshot (store (snd (get_outputs rt2))) (fst (get_outputs rt2))
  = snapshot (store rt) (outputs (context rt)).
Proof.
  apply (top_level_mutations_keep_outputs
           [Start "req-1" "snap-1" ∅ false;
            RecordStepOutputs "trainer" {[ "accuracy"%string := PInt 90 ]}]
           [set_step "trainer" {[ "accuracy"%string := PInt 0 ]};
            del_step "trainer"; clear_steps]).
  reflexivity.
Defined.

(** What the example holds, and what it holds after the nested write. *)
Example recorded_output_before_and_after :
  snapshot (store one_output_recorded) (outputs (context one_output_recorded))
    !! "trainer"%string
  = Some {[ "accuracy"%string := PInt 90 ]} /\
  (let '(r, rt1) := get_outputs one_output_recorded in
   snapshot (apply_mutation r (store rt1) (set_output "trainer" "accuracy" (PInt 0)))
            (outputs (context one_output_recorded)) !! "trainer"%string)
  = Some {[ "accuracy"%string := PInt 0 ]}.
Proof. split; vm_compute; reflexivity. Qed.

(** ** NameSanitizer: shapes of the sanitized names *)

Lemma collapse_runs_In (x : ascii) (s : list ascii) (c : ascii) :
  In c (collapse_runs x s) -> In c s.
Proof.
  induction s as [|a rest IH]; [intros []|].
  cbn [collapse_runs]. destruct rest as [|b rest'].
  - intros H. exact H.
  - destruct (Ascii.eqb a x && Ascii.eqb b x)%bool.
    + intros H. right. apply IH. exact H.
    + intros [<- | H]; [left; reflexivity | right; apply IH; exact H].
Qed.

Lemma collapse_runs_head (x : ascii) (s : list ascii) :
  List.head (collapse_runs x s) = List.head s.
Proof.
  induction s as [|a rest IH]; [reflexivity|].
  cbn [collapse_runs]. destruct rest as [|b rest']; [reflexivity|].
  destruct (Ascii.eqb a x && Ascii.eqb b x)%bool eqn:E; [|reflexivity].
  rewrite IH. cbn. apply andb_true_iff in E. destruct E as [Ea Eb].
  apply Ascii.eqb_eq in Ea, Eb. congruence.
Qed.

Lemma collapse_runs_no_double (x : ascii) (s : list ascii) :
  no_double x (collapse_runs x s).
Proof.
  induction s as [|a rest IH]; [exact I|].
  cbn [collapse_runs]. destruct rest as [|b rest']; [exact I|].
  destruct (Ascii.eqb a x && Ascii.eqb b x)%bool eqn:E; [exact IH|].
  pose proof (collapse_runs_head x (b :: rest')) as Hhead.
  destruct (collapse_runs x (b :: rest')) as [|b' t] eqn:Ec; [exact I|].
  cbn in Hhead. injection Hhead as ->.
  cbn [no_double]. split; [|exact IH].
  intros [-> ->]. rewrite !Ascii.eqb_refl in E. discriminate.
Qed.

(** [no_double] says that the string has no factor [xx]. *)
Lemma no_double_factor (x : ascii) (s : list ascii) :
  no_double x s <-> forall l1 l2, s <> l1 ++ x :: x :: l2.
Proof.
  split.
  - intros Hnd l1. revert s Hnd. induction l1 as [|a l1 IH]; intros s Hnd l2 Heq.
    + subst s. cbn in Hnd. destruct Hnd as [Hnd _]. apply Hnd. split; reflexivity.
    + subst s. apply (IH (l1 ++ x :: x :: l2)) with (l2 := l2); [|reflexivity].
      cbn [app no_double] in Hnd.
      destruct (l1 ++ x :: x :: l2) as [|b t] eqn:E.
      * destruct l1; discriminate.
      * destruct Hnd as [_ Hnd]. exact Hnd.
  - induction s as [|a rest IH]; intros Hfac; [exact I|].
    cbn [no_double]. destruct rest as [|b rest']; [exact I|]. split.
    + intros [-> ->]. apply (Hfac [] rest'). reflexivity.
    + apply IH. intros l1 l2 Heq. apply (Hfac (a :: l1) l2).
      cbn. rewrite Heq. reflexivity.
Qed.

Lemma no_double_infix (x : ascii) (p m q : list ascii) :
  no_double x (p ++ m ++ q) -> no_double x m.
Proof.
  rewrite !no_double_factor. intros H l1 l2 Heq.
  apply (H (p ++ l1) (l2 ++ q)). rewrite Heq.
  rewrite <- !app_assoc. reflexivity.
Qed.

Lemma lstrip_suffix (x : ascii) (s : list ascii) :
  exists p, s = p ++ lstrip x s.
Proof.
  induction s as [|a rest [p IH]]; [exists []; reflexivity|].
  cbn [lstrip]. destruct (Ascii.eqb a x).
  - exists (a :: p). cbn. rewrite <- IH. reflexivity.
  - exists []. reflexivity.
Qed.

Lemma rstrip_prefix (x : ascii) (s : list ascii) :
  exists q, s = rstrip x s ++ q.
Proof.
  unfold rstrip. destruct (lstrip_suffix x (rev s)) as [p Hp].
  exists (rev p). rewrite <- rev_app_distr, <- Hp, rev_involutive. reflexivity.
Qed.

Lemma slice_to_prefix (n : Z) (s : list ascii) :
  exists q, s = slice_to n s ++ q.
Proof.
  unfold slice_to. destruct (0 <=? n); eexists; symmetry; apply firstn_skipn.
Qed.

Lemma no_double_lstrip (x y : ascii) (s : list ascii) :
  no_double x s -> no_double x (lstrip y s).
Proof.
  destruct (lstrip_suffix y s) as [p Hp]. intros H. rewrite Hp in H.
  apply (no_double_infix x p _ []). rewrite app_nil_r. exact H.
Qed.

Lemma no_double_rstrip (x y : ascii) (s : list ascii) :
  no_double x s -> no_double x (rstrip y s).
Proof.
  destruct (rstrip_prefix y s) as [q Hq]. intros H. rewrite Hq in H.
  apply (no_double_infix x [] _ q). exact H.
Qed.

Lemma no_double_slice_to (x : ascii) (n : Z) (s : list ascii) :
  no_double x s -> no_double x (slice_to n s).
Proof.
  destruct (slice_to_prefix n s) as [q Hq]. intros H. rewrite Hq in H.
  apply (no_double_infix x [] _ q). exact H.
Qed.

Lemma lstrip_length (x : ascii) (s : list ascii) :
  (List.length (lstrip x s) <= List.length s)%nat.
Proof.
  induction s as [|a rest IH]; cbn [lstrip]; [lia|].
  destruct (Ascii.eqb a x); cbn [List.length]; lia.
Qed.

Lemma rstrip_length (x : ascii) (s : list ascii) :
  (List.length (rstrip x s) <= List.length s)%nat.
Proof.
  unfold rstrip. rewrite length_rev.
  pose proof (lstrip_length x (rev s)) as H. rewrite length_rev in H. exact H.
Qed.

Lemma slice_to_length (n : Z) (s : list ascii) :
  0 <= n -> len (slice_to n s) <= n.
Proof.
  intros Hn. unfold slice_to, len.
  destruct (Z.leb_spec 0 n); [|lia].
  rewrite length_firstn. lia.
Qed.

Lemma string_of_list_ascii_length (s : list ascii) :
  String.length (string_of_list_ascii s) = List.length s.
Proof. induction s as [|c s IH]; cbn; [reflexivity | rewrite IH; reflexivity]. Qed.

Lemma class_alnum_is_ascii (c : ascii) :
  service_name_class c = true -> isalnum c = true -> ascii_alnum c = true.
Proof.
  unfold service_name_class. destruct (ascii_alnum c); [reflexivity|].
  cbn [orb]. intros E. apply Ascii.eqb_eq in E. subst c. discriminate.
Qed.

Lemma replace_outside_class (cls : ascii -> bool) (x : ascii) (s : list ascii) (c : ascii) :
  cls x = true -> In c (replace_outside cls x s) -> cls c = true.
Proof.
  intros Hx. unfold replace_outside. rewrite in_map_iff.
  intros (a & <- & _). destruct (cls a) eqn:E; [exact E | exact Hx].
Qed.

Lemma head_isalnum_first (s : list ascii) :
  head_isalnum s = true -> exists c, first_char s = Some c /\ isalnum c = true.
Proof. destruct s as [|c s]; [discriminate|]. intros H. exists c. split; [reflexivity | exact H]. Qed.

Lemma first_char_In (s : list ascii) (c : ascii) :
  first_char s = Some c -> In c s.
Proof. destruct s; [discriminate|]. intros [= <-]. left. reflexivity. Qed.

Lemma last_char_In (s : list ascii) (c : ascii) :
  last_char s = Some c -> In c s.
Proof. unfold last_char. intros H. apply in_rev. apply first_char_In. exact H. Qed.

(** The body that [_sanitize_app_runner_service_name] puts in front of the
    suffix. *)
Lemma service_name_decompose (name random_suffix final : string) :
  _sanitize_app_runner_service_name name random_suffix = Ok final ->
  exists body,
    final = string_of_list_ascii
              (body ++ "-"%char :: list_ascii_of_string random_suffix) /\
    4 <= len (body ++ "-"%char :: list_ascii_of_string random_suffix) <= 40 /\
    head_isalnum body = true /\ last_isalnum body = true /\
    (forall c, In c body ->
       In c (replace_outside service_name_class "-"
               (list_ascii_of_string name))) /\
    no_double "-" body /\
    fullmatch_plus service_name_class (list_ascii_of_string random_suffix) = true.
Proof.
  unfold _sanitize_app_runner_service_name.
  destruct (fullmatch_plus service_name_class (list_ascii_of_string random_suffix))
    eqn:Hsuffix; cbn [negb]; [|discriminate].
  set (s0 := replace_outside service_name_class "-" (list_ascii_of_string name)).
  set (s1 := strip "-" (collapse_runs "-" s0)).
  assert (Hin1 : forall c, In c s1 -> In c s0).
  { intros c H. apply strip_In in H. apply collapse_runs_In in H. exact H. }
  assert (Hnd1 : no_double "-" s1).
  { unfold s1, strip. apply no_double_rstrip, no_double_lstrip,
      collapse_runs_no_double. }
  destruct (head_isalnum s1); cbn [negb]; [|discriminate].
  set (s2 := if negb (last_isalnum s1) then rstrip "-" s1 else s1).
  assert (Hin2 : forall c, In c s2 -> In c s0).
  { intros c H. apply Hin1. unfold s2 in H.
    destruct (negb (last_isalnum s1)); [apply rstrip_In in H|]; exact H. }
  assert (Hnd2 : no_double "-" s2).
  { unfold s2. destruct (negb (last_isalnum s1));
      [apply no_double_rstrip|]; exact Hnd1. }
  destruct (is_empty s2); [discriminate|].
  set (s3 := if 40 - len (list_ascii_of_string random_suffix) - 1 <? len s2
             then rstrip "-" (slice_to (40 - len (list_ascii_of_string random_suffix) - 1) s2)
             else s2).
  assert (Hin3 : forall c, In c s3 -> In c s0).
  { intros c H. apply Hin2. unfold s3 in H.
    destruct (_ <? _); [apply rstrip_In, slice_to_In in H|]; exact H. }
  assert (Hnd3 : no_double "-" s3).
  { unfold s3. destruct (_ <? _);
      [apply no_double_rstrip, no_double_slice_to|]; exact Hnd2. }
  destruct (is_empty s3); cbn [orb]; [discriminate|].
  destruct (head_isalnum s3) eqn:Hh; cbn [negb orb]; [|discriminate].
  destruct (last_isalnum s3) eqn:Hl; cbn [negb]; [|discriminate].
  destruct (len (s3 ++ "-"%char :: list_ascii_of_string random_suffix) <? 4) eqn:Hlo;
    cbn [orb]; [discriminate|].
  destruct (40 <? len (s3 ++ "-"%char :: list_ascii_of_string random_suffix)) eqn:Hhi;
    [discriminate|].
  intros [= <-]. exists s3.
  apply Z.ltb_ge in Hlo, Hhi.
  repeat split; try assumption; try reflexivity.
Qed.

(** X1: a service name that the sanitizer returns is the body, a hyphen and
    the suffix; it has 4 to 40 characters; the body holds only letters,
    digits and hyphens, begins and ends with a letter or digit, and has no
    two hyphens in a row. *)
Theorem service_name_shape (name random_suffix final : string) :
  _sanitize_app_runner_service_name name random_suffix = Ok final ->
  exists body,
    final = string_of_list_ascii
              (body ++ "-"%char :: list_ascii_of_string random_suffix) /\
    (4 <= String.length final <= 40)%nat /\
    (forall c, In c body -> service_name_class c = true) /\
    (exists c, first_char body = Some c /\ ascii_alnum c = true) /\
    (exists c, last_char body = Some c /\ ascii_alnum c = true) /\
    no_double "-" body.
Proof.
  intros H. apply service_name_decompose in H.
  destruct H as (body & -> & Hlen & Hh & Hl & Hin & Hnd & _).
  assert (Hclass : forall c, In c body -> service_name_class c = true).
  { intros c Hc.
    apply (replace_outside_class service_name_class "-"%char
             (list_ascii_of_string name)); [reflexivity | apply Hin, Hc]. }
  exists body. split; [reflexivity|]. split.
  { rewrite string_of_list_ascii_length. unfold len in Hlen. lia. }
  split; [exact Hclass|]. split; [|split; [|exact Hnd]].
  - apply head_isalnum_first in Hh. destruct Hh as (c & Hc & Ha).
    exists c. split; [exact Hc|].
    apply class_alnum_is_ascii; [apply Hclass, first_char_In, Hc | exact Ha].
  - apply head_isalnum_first in Hl. destruct Hl as (c & Hc & Ha).
    exists c. split; [exact Hc|].
    apply class_alnum_is_ascii; [apply Hclass, last_char_In, Hc | exact Ha].
Qed.

Lemma service_name_shape_witness :
  exists body,
    "My-Service-a1b2c3d4"%string
    = string_of_list_ascii (body ++ "-"%char :: list_ascii_of_string "a1b2c3d4") /\
    (4 <= String.length "My-Service-a1b2c3d4" <= 40)%nat /\
    (forall c, In c body -> service_name_class c = true) /\
    (exists c, first_char body = Some c /\ ascii_alnum c = true) /\
    (exists c, last_char body = Some c /\ ascii_alnum c = true) /\
    no_double "-" body.
Proof.
  apply (service_name_shape "My Service!!" "a1b2c3d4").
  vm_compute. reflexivity.
Defined.

Lemma collapse_runs_keeps (x : ascii) (s : list ascii) (c : ascii) :
  In c s -> c <> x -> In c (collapse_runs x s).
Proof.
  intros Hin Hne. induction s as [|a rest IH]; [contradiction|].
  cbn [collapse_runs]. destruct rest as [|b rest'].
  - exact Hin.
  - destruct (Ascii.eqb a x && Ascii.eqb b x)%bool eqn:E.
    + destruct Hin as [<- | Hin]; [|apply IH; exact Hin].
      apply andb_true_iff in E. destruct E as [E _].
      apply Ascii.eqb_eq in E. contradiction.
    + destruct Hin as [<- | Hin]; [left; reflexivity | right; apply IH; exact Hin].
Qed.

Lemma lstrip_keeps (x : ascii) (s : list ascii) (c : ascii) :
  In c s -> c <> x -> In c (lstrip x s).
Proof.
  intros Hin Hne. induction s as [|a rest IH]; [contradiction|].
  cbn [lstrip]. destruct (Ascii.eqb_spec a x) as [->|Hax]; [|exact Hin].
  destruct Hin as [<- | Hin]; [contradiction | apply IH; exact Hin].
Qed.

Lemma rstrip_keeps (x : ascii) (s : list ascii) (c : ascii) :
  In c s -> c <> x -> In c (rstrip x s).
Proof.
  intros Hin Hne. unfold rstrip. apply -> in_rev.
  apply lstrip_keeps; [apply -> in_rev; exact Hin | exact Hne].
Qed.

Lemma lstrip_head_ne (x : ascii) (s : list ascii) (c : ascii) :
  first_char (lstrip x s) = Some c -> c <> x.
Proof.
  induction s as [|a rest IH]; [discriminate|].
  cbn [lstrip]. destruct (Ascii.eqb_spec a x) as [->|Hax]; [exact IH|].
  intros [= <-]. exact Hax.
Qed.

Lemma rstrip_last_ne (x : ascii) (s : list ascii) (c : ascii) :
  last_char (rstrip x s) = Some c -> c <> x.
Proof.
  unfold last_char, rstrip. rewrite rev_involutive. apply lstrip_head_ne.
Qed.

Lemma lstrip_snoc_keep (x c : ascii) (p : list ascii) :
  c <> x -> exists p', lstrip x (p ++ [c]) = p' ++ [c].
Proof.
  intros Hne. induction p as [|a p [p' IH]]; cbn [app lstrip].
  - destruct (Ascii.eqb_spec c x); [contradiction|]. exists []. reflexivity.
  - destruct (Ascii.eqb a x); [exists p'; exact IH|].
    exists (a :: p). reflexivity.
Qed.

Lemma rstrip_first (x : ascii) (s : list ascii) (c : ascii) :
  first_char s = Some c -> c <> x -> first_char (rstrip x s) = Some c.
Proof.
  destruct s as [|a t]; [discriminate|]. intros [= ->] Hne.
  unfold rstrip. cbn [rev].
  destruct (lstrip_snoc_keep x c (rev t) Hne) as [p' ->].
  rewrite rev_app_distr. reflexivity.
Qed.

Lemma slice_to_first (n : Z) (s : list ascii) (c : ascii) :
  1 <= n -> first_char s = Some c -> first_char (slice_to n s) = Some c.
Proof.
  intros Hn. destruct s as [|a t]; [discriminate|]. intros [= ->].
  unfold slice_to. destruct (Z.leb_spec 0 n); [|lia].
  destruct (Z.to_nat n) eqn:E; [lia|]. reflexivity.
Qed.

Lemma ascii_alnum_isalnum (c : ascii) : ascii_alnum c = true -> isalnum c = true.
Proof.
  unfold isalnum, ascii_alnum. intros H.
  apply orb_true_iff in H. destruct H as [H | H];
    [apply orb_true_iff in H; destruct H as [H | H]|]; rewrite H;
    rewrite ?orb_true_r; reflexivity.
Qed.

Lemma class_not_hyphen_alnum (c : ascii) :
  service_name_class c = true -> c <> "-"%char -> ascii_alnum c = true.
Proof.
  unfold service_name_class. destruct (ascii_alnum c); [reflexivity|].
  cbn [orb]. intros E Hne. apply Ascii.eqb_eq in E. contradiction.
Qed.

Lemma ascii_alnum_not_hyphen (c : ascii) : ascii_alnum c = true -> c <> "-"%char.
Proof. intros H ->. discriminate. Qed.

Lemma first_char_isalnum (s : list ascii) (c : ascii) :
  first_char s = Some c -> isalnum c = true -> head_isalnum s = true.
Proof. destruct s; [discriminate|]. intros [= ->] H. exact H. Qed.

Lemma nonempty_has_last (s : list ascii) :
  s <> [] -> exists c, last_char s = Some c.
Proof.
  intros H. unfold last_char. destruct (rev s) as [|c t] eqn:E.
  - exfalso. apply H. apply (f_equal (@rev ascii)) in E.
    rewrite rev_involutive in E. exact E.
  - exists c. reflexivity.
Qed.

Lemma first_char_nonempty (s : list ascii) (c : ascii) :
  first_char s = Some c -> s <> [].
Proof. destruct s; [discriminate | discriminate]. Qed.

Lemma lstrip_all (x : ascii) (s : list ascii) :
  (forall c, In c s -> c = x) -> lstrip x s = [].
Proof.
  induction s as [|a rest IH]; intros H; [reflexivity|].
  cbn [lstrip]. rewrite (H a (or_introl eq_refl)), Ascii.eqb_refl.
  apply IH. intros c Hc. apply H. right. exact Hc.
Qed.

(** What the stripped, collapsed text looks like when the raw name has a
    letter or a digit. *)
Lemma stripped_text_alnum_ends (name : list ascii) :
  (exists c, In c name /\ ascii_alnum c = true) ->
  let s1 := strip "-" (collapse_runs "-" (replace_outside service_name_class "-" name)) in
  (exists c, first_char s1 = Some c /\ ascii_alnum c = true) /\
  (exists c, last_char s1 = Some c /\ ascii_alnum c = true) /\
  (forall c, In c s1 -> service_name_class c = true).
Proof.
  intros (c0 & Hin0 & Halnum0) s1.
  assert (Hclass : forall c, In c s1 -> service_name_class c = true).
  { intros c Hc. apply strip_In, collapse_runs_In in Hc.
    apply (replace_outside_class service_name_class "-"%char name);
      [reflexivity | exact Hc]. }
  assert (Hc0 : In c0 s1).
  { pose proof (ascii_alnum_not_hyphen c0 Halnum0) as Hne.
    unfold s1, strip. apply rstrip_keeps; [|exact Hne].
    apply lstrip_keeps; [|exact Hne].
    apply collapse_runs_keeps; [|exact Hne].
    unfold replace_outside. apply in_map_iff. exists c0. split; [|exact Hin0].
    unfold service_name_class. rewrite Halnum0. reflexivity. }
  assert (Hne1 : s1 <> []) by (intros E; rewrite E in Hc0; exact Hc0).
  split; [|split; [|exact Hclass]].
  - destruct s1 as [|a t] eqn:Es1; [contradiction|]. exists a.
    split; [reflexivity|].
    apply class_not_hyphen_alnum; [apply Hclass; left; reflexivity|].
    (* the head of a stripped text is not the stripped character *)
    unfold strip in s1.
    destruct (lstrip "-" (collapse_runs "-"
                (replace_outside service_name_class "-" name))) as [|b u] eqn:El.
    { cbn in Es1. discriminate. }
    pose proof (lstrip_head_ne "-" (collapse_runs "-"
                  (replace_outside service_name_class "-" name)) b) as Hb.
    rewrite El in Hb. specialize (Hb eq_refl).
    pose proof (rstrip_first "-" (b :: u) b eq_refl Hb) as Hf.
    fold s1 in Hf. rewrite Es1 in Hf. injection Hf as ->. exact Hb.
  - destruct (nonempty_has_last s1 Hne1) as [z Hz]. exists z.
    split; [exact Hz|].
    apply class_not_hyphen_alnum; [apply Hclass, last_char_In, Hz|].
    exact (rstrip_last_ne "-" _ z Hz).
Qed.

(** X2: with a suffix of 2 to 38 legal characters (the 8 hexadecimal digits
    of an endpoint id among them), the service-name sanitizer succeeds
    exactly for the raw names that hold an ASCII letter or digit; for any
    other raw name it raises [ValueError]. *)
Theorem service_name_succeeds_iff_alnum (name random_suffix : string) :
  fullmatch_plus service_name_class (list_ascii_of_string random_suffix) = true ->
  (2 <= String.length random_suffix <= 38)%nat ->
  ((exists c, In c (list_ascii_of_string name) /\ ascii_alnum c = true) ->
     exists final, _sanitize_app_runner_service_name name random_suffix = Ok final) /\
  ((forall c, In c (list_ascii_of_string name) -> ascii_alnum c = false) ->
     _sanitize_app_runner_service_name name random_suffix = Raise ValueError).
Proof.
  intros Hsuffix Hlen.
  assert (Hlen' : 2 <= len (list_ascii_of_string random_suffix) <= 38).
  { unfold len.
    rewrite <- (string_of_list_ascii_of_string random_suffix) in Hlen.
    rewrite string_of_list_ascii_length in Hlen. lia. }
  unfold _sanitize_app_runner_service_name. rewrite Hsuffix. cbn [negb].
  set (suffix := list_ascii_of_string random_suffix) in *.
  set (s1 := strip "-" (collapse_runs "-"
               (replace_outside service_name_class "-" (list_ascii_of_string name)))).
  split.
  - intros Hal.
    destruct (stripped_text_alnum_ends _ Hal) as ((a & Ha & Haa) & (z & Hz & Hza) & Hclass).
    fold s1 in Ha, Hz, Hclass.
    rewrite (first_char_isalnum s1 a Ha (ascii_alnum_isalnum a Haa)). cbn [negb].
    assert (Hl1 : last_isalnum s1 = true).
    { unfold last_isalnum. apply (first_char_isalnum _ z Hz).
      apply ascii_alnum_isalnum, Hza. }
    rewrite Hl1. cbn [negb].
    assert (Hne1 : is_empty s1 = false).
    { destruct s1; [discriminate | reflexivity]. }
    rewrite Hne1.
    set (m := 40 - len suffix - 1).
    set (s3 := if m <? len s1 then rstrip "-" (slice_to m s1) else s1).
    assert (Hm : 1 <= m) by (unfold m; lia).
    assert (Hf3 : first_char s3 = Some a).
    { unfold s3. destruct (m <? len s1); [|exact Ha].
      apply rstrip_first; [|apply ascii_alnum_not_hyphen, Haa].
      apply slice_to_first; assumption. }
    assert (Hclass3 : forall c, In c s3 -> service_name_class c = true).
    { intros c Hc. apply Hclass. unfold s3 in Hc.
      destruct (m <? len s1); [apply rstrip_In, slice_to_In in Hc|]; exact Hc. }
    assert (Hl3 : last_isalnum s3 = true).
    { destruct (nonempty_has_last s3 (first_char_nonempty s3 a Hf3)) as [y Hy].
      unfold last_isalnum. apply (first_char_isalnum _ y Hy).
      apply ascii_alnum_isalnum.
      unfold s3 in Hy, Hclass3. destruct (m <? len s1).
      - apply class_not_hyphen_alnum; [apply Hclass3, last_char_In, Hy|].
        apply (rstrip_last_ne "-" _ y Hy).
      - rewrite Hz in Hy. injection Hy as <-. exact Hza. }
    assert (Hlen3 : 1 <= len s3 <= m).
    { split.
      - unfold len. destruct s3; [discriminate | cbn; lia].
      - unfold s3. destruct (Z.ltb_spec m (len s1)); [|lia].
        pose proof (rstrip_length "-" (slice_to m s1)).
        pose proof (slice_to_length m s1). unfold len in *. lia. }
    assert (He3 : is_empty s3 = false) by (destruct s3; [discriminate | reflexivity]).
    rewrite He3, (first_char_isalnum s3 a Hf3 (ascii_alnum_isalnum a Haa)), Hl3.
    cbn [negb orb].
    assert (Hfinal : len (s3 ++ "-"%char :: suffix) = len s3 + 1 + len suffix).
    { unfold len. rewrite length_app. cbn [List.length]. lia. }
    rewrite Hfinal.
    destruct (Z.ltb_spec (len s3 + 1 + len suffix) 4); [unfold m in *; lia|].
    destruct (Z.ltb_spec 40 (len s3 + 1 + len suffix)); [unfold m in *; lia|].
    cbn [orb]. eexists. reflexivity.
  - intros Hnone.
    assert (Hall : forall c, In c (collapse_runs "-"
                     (replace_outside service_name_class "-"
                        (list_ascii_of_string name))) -> c = "-"%char).
    { intros c Hc. apply collapse_runs_In in Hc.
      unfold replace_outside in Hc. apply in_map_iff in Hc.
      destruct Hc as (a & <- & Ha).
      unfold service_name_class. rewrite (Hnone a Ha). cbn [orb].
      destruct (Ascii.eqb_spec a "-"); [assumption | reflexivity]. }
    assert (Hs1 : s1 = []).
    { unfold s1, strip. rewrite (lstrip_all _ _ Hall). reflexivity. }
    rewrite Hs1. reflexivity.
Qed.

Lemma service_name_succeeds_iff_alnum_witness :
  ((exists c, In c (list_ascii_of_string "My Service!!") /\ ascii_alnum c = true) ->
     exists final, _sanitize_app_runner_service_name "My Service!!" "a1b2c3d4" = Ok final) /\
  ((forall c, In c (list_ascii_of_string "My Service!!") -> ascii_alnum c = false) ->
     _sanitize_app_runner_service_name "My Service!!" "a1b2c3d4" = Raise ValueError).
Proof.
  apply (service_name_succeeds_iff_alnum "My Service!!" "a1b2c3d4").
  - vm_compute. reflexivity.
  - cbn. lia.
Defined.

Lemma rstrip_id (x : ascii) (s : list ascii) (c : ascii) :
  last_char s = Some c -> c <> x -> rstrip x s = s.
Proof.
  unfold last_char, rstrip. destruct (rev s) as [|a t] eqn:E; [discriminate|].
  intros [= ->] Hne. cbn [lstrip].
  destruct (Ascii.eqb_spec c x); [contradiction|].
  rewrite <- E. apply rev_involutive.
Qed.

Lemma last_char_app (p s : list ascii) (c : ascii) :
  last_char s = Some c -> last_char (p ++ s) = Some c.
Proof.
  unfold last_char. rewrite rev_app_distr.
  destruct (rev s); [discriminate|]. intros H. exact H.
Qed.

Lemma slice_to_all (n : Z) (s : list ascii) :
  len s <= n -> slice_to n s = s.
Proof.
  intros H. unfold slice_to, len in *.
  destruct (Z.leb_spec 0 n); [|lia].
  apply firstn_all2. lia.
Qed.

(** The text of [_sanitize_auto_scaling_config_name] before the final
    conversion to a string. *)
Lemma auto_scaling_name_decompose (name final : string) :
  _sanitize_auto_scaling_config_name name = Ok final ->
  exists body a z,
    final = string_of_list_ascii body /\
    4 <= len body <= 32 /\
    first_char body = Some a /\ ascii_alnum a = true /\
    last_char body = Some z /\ z <> "-"%char /\
    (forall c, In c body -> service_name_class c = true) /\
    no_double "-" body.
Proof.
  unfold _sanitize_auto_scaling_config_name.
  set (s0 := collapse_runs "-"
               (replace_outside service_name_class "-" (list_ascii_of_string name))).
  assert (Hclass0 : forall c, In c s0 -> service_name_class c = true).
  { intros c Hc. apply collapse_runs_In in Hc.
    apply (replace_outside_class service_name_class "-"%char
             (list_ascii_of_string name)); [reflexivity | exact Hc]. }
  assert (Hnd0 : no_double "-" s0) by apply collapse_runs_no_double.
  destruct (head_isalnum s0) eqn:Hh; cbn [negb]; [|discriminate].
  apply head_isalnum_first in Hh. destruct Hh as (a & Ha & Hal).
  assert (Haa : ascii_alnum a = true).
  { apply class_alnum_is_ascii; [apply Hclass0, first_char_In, Ha | exact Hal]. }
  pose proof (ascii_alnum_not_hyphen a Haa) as Hane.
  set (s1 := rstrip "-" s0).
  assert (Hf1 : first_char s1 = Some a) by (apply rstrip_first; assumption).
  assert (He1 : is_empty s1 = false) by (destruct s1; [discriminate | reflexivity]).
  rewrite He1.
  set (s2 := if 32 <? len s1 then rstrip "-" (slice_to 32 s1) else s1).
  assert (Hf2 : first_char s2 = Some a).
  { unfold s2. destruct (32 <? len s1); [|exact Hf1].
    apply rstrip_first; [|exact Hane]. apply slice_to_first; [lia | exact Hf1]. }
  assert (Hin2 : forall c, In c s2 -> In c s0).
  { intros c Hc. unfold s2 in Hc.
    destruct (32 <? len s1); [apply rstrip_In, slice_to_In in Hc|];
      apply rstrip_In in Hc; exact Hc. }
  assert (Hnd2 : no_double "-" s2).
  { unfold s2. destruct (32 <? len s1);
      [apply no_double_rstrip, no_double_slice_to|]; apply no_double_rstrip, Hnd0. }
  assert (Hlen2 : 1 <= len s2 <= 32).
  { split.
    - unfold len. destruct s2; [discriminate | cbn; lia].
    - unfold s2. destruct (Z.ltb_spec 32 (len s1)); [|lia].
      pose proof (rstrip_length "-" (slice_to 32 s1)).
      pose proof (slice_to_length 32 s1). unfold len in *. lia. }
  destruct (nonempty_has_last s2 (first_char_nonempty s2 a Hf2)) as [z Hz].
  assert (Hzne : z <> "-"%char).
  { unfold s2 in Hz. destruct (32 <? len s1);
      exact (rstrip_last_ne "-" _ z Hz). }
  destruct (Z.ltb_spec (len s2) 4) as [Hshort | Hlong].
  - (* the padded name: nothing is cut and nothing is stripped *)
    change (list_ascii_of_string "zenml-") with zenml_prefix.
    assert (Hplen : len (zenml_prefix ++ s2) = 6 + len s2).
    { unfold len. rewrite length_app. cbn. lia. }
    rewrite (slice_to_all 32 (zenml_prefix ++ s2)) by lia.
    rewrite (rstrip_id "-" (zenml_prefix ++ s2) z (last_char_app _ _ _ Hz) Hzne).
    intros [= <-]. exists (zenml_prefix ++ s2), "z"%char, z.
    split; [reflexivity|]. split; [lia|]. split; [reflexivity|].
    split; [reflexivity|]. split; [apply last_char_app, Hz|].
    split; [exact Hzne|]. split.
    + intros c Hc. apply in_app_or in Hc. destruct Hc as [Hc | Hc].
      * cbn in Hc. repeat (destruct Hc as [<- | Hc]; [reflexivity|]). contradiction.
      * apply Hclass0, Hin2, Hc.
    + destruct s2 as [|b t]; [discriminate|]. injection Hf2 as ->.
      cbn. repeat (split; [intros [? ?]; discriminate || contradiction|]).
      exact Hnd2.
  - intros [= <-]. exists s2, a, z.
    repeat (split; [first [reflexivity | assumption | lia]|]).
    split; [intros c Hc; apply Hclass0, Hin2, Hc | exact Hnd2].
Qed.

(** X3: an auto-scaling configuration name that the sanitizer returns has
    4 to 32 characters, all of them letters, digits or hyphens; it begins
    with a letter or digit, does not end with a hyphen and has no two
    hyphens in a row. *)
Theorem auto_scaling_name_shape (name final : string) :
  _sanitize_auto_scaling_config_name name = Ok final ->
  (4 <= String.length final <= 32)%nat /\
  (forall c, In c (list_ascii_of_string final) -> service_name_class c = true) /\
  (exists c, first_char (list_ascii_of_string final) = Some c /\
             ascii_alnum c = true) /\
  (exists c, last_char (list_ascii_of_string final) = Some c /\
             ascii_alnum c = true) /\
  no_double "-" (list_ascii_of_string final).
Proof.
  intros H. apply auto_scaling_name_decompose in H.
  destruct H as (body & a & z & -> & Hlen & Ha & Haa & Hz & Hzne & Hclass & Hnd).
  rewrite string_of_list_ascii_length, list_ascii_of_string_of_list_ascii.
  split; [unfold len in Hlen; lia|]. split; [exact Hclass|].
  split; [exists a; split; assumption|]. split; [|exact Hnd].
  exists z. split; [exact Hz|].
  apply class_not_hyphen_alnum; [apply Hclass, last_char_In, Hz | exact Hzne].
Qed.

Lemma auto_scaling_name_shape_witness :
  (4 <= String.length "zenml-ab" <= 32)%nat /\
  (forall c, In c (list_ascii_of_string "zenml-ab") -> service_name_class c = true) /\
  (exists c, first_char (list_ascii_of_string "zenml-ab") = Some c /\
             ascii_alnum c = true) /\
  (exists c, last_char (list_ascii_of_string "zenml-ab") = Some c /\
             ascii_alnum c = true) /\
  no_double "-" (list_ascii_of_string "zenml-ab").
Proof.
  apply (auto_scaling_name_shape "ab--"). vm_compute. reflexivity.
Defined.

Lemma replace_outside_head (cls : ascii -> bool) (x : ascii) (s : list ascii) :
  first_char (replace_outside cls x s)
  = match first_char s with
    | Some c => Some (if cls c then c else x)
    | None => None
    end.
Proof. destruct s; reflexivity. Qed.

Lemma auto_scaling_head (name : string) :
  first_char (collapse_runs "-"
                (replace_outside service_name_class "-" (list_ascii_of_string name)))
  = match first_char (list_ascii_of_string name) with
    | Some c => Some (if service_name_class c then c else "-"%char)
    | None => None
    end.
Proof.
  unfold first_char. rewrite collapse_runs_head. apply replace_outside_head.
Qed.

Lemma auto_scaling_name_succeeds_if (name : string) (c : ascii) :
  first_char (list_ascii_of_string name) = Some c ->
  ascii_alnum c = true ->
  exists final, _sanitize_auto_scaling_config_name name = Ok final.
Proof.
  intros Hc Hcal. unfold _sanitize_auto_scaling_config_name.
  pose proof (auto_scaling_head name) as Hhead.
  set (s0 := collapse_runs "-"
               (replace_outside service_name_class "-" (list_ascii_of_string name)))
    in *.
  rewrite Hc in Hhead.
  assert (Hcls : service_name_class c = true)
    by (unfold service_name_class; rewrite Hcal; reflexivity).
  rewrite Hcls in Hhead.
  rewrite (first_char_isalnum s0 c Hhead (ascii_alnum_isalnum c Hcal)).
  cbn [negb].
  pose proof (rstrip_first "-" s0 c Hhead (ascii_alnum_not_hyphen c Hcal)) as Hf1.
  destruct (rstrip "-" s0) as [|b t] eqn:E1; [discriminate|].
  cbn [is_empty]. eexists. reflexivity.
Qed.

(** X4: the auto-scaling name sanitizer succeeds exactly when the raw name
    begins with an ASCII letter or digit; its second [ValueError] can
    never be raised. *)
Theorem auto_scaling_name_succeeds_iff (name : string) :
  (exists final, _sanitize_auto_scaling_config_name name = Ok final) <->
  (exists c, first_char (list_ascii_of_string name) = Some c /\
             ascii_alnum c = true).
Proof.
  split.
  - intros [final H]. unfold _sanitize_auto_scaling_config_name in H.
    pose proof (auto_scaling_head name) as Hhead.
    set (s0 := collapse_runs "-"
                 (replace_outside service_name_class "-" (list_ascii_of_string name)))
      in *.
    destruct (head_isalnum s0) eqn:Hh; cbn [negb] in H; [|discriminate].
    apply head_isalnum_first in Hh. destruct Hh as (a & Ha & Hal).
    rewrite Hhead in Ha.
    destruct (first_char (list_ascii_of_string name)) as [c|]; [|discriminate].
    exists c. split; [reflexivity|]. injection Ha as Ha.
    destruct (service_name_class c) eqn:Hc.
    + subst a. apply class_alnum_is_ascii; assumption.
    + subst a. discriminate.
  - intros (c & Hc & Hcal). eapply auto_scaling_name_succeeds_if; eassumption.
Qed.

(** X5: the auto-scaling configuration name of an endpoint always exists,
    whatever the endpoint name and id are, because the raw name begins
    with the letter of "zenml-"; it has 4 to 32 characters drawn from
    letters, digits and hyphens. *)
Theorem auto_scaling_config_name_always_legal (endpoint_name endpoint_id : string) :
  exists final,
    _get_auto_scaling_config_name endpoint_name endpoint_id = Ok final /\
    (4 <= String.length final <= 32)%nat /\
    (forall c, In c (list_ascii_of_string final) -> service_name_class c = true) /\
    first_char (list_ascii_of_string final) = Some "z"%char.
Proof.
  unfold _get_auto_scaling_config_name.
  set (raw := ("zenml-" ++ endpoint_name ++ "-" ++ String.substring 0 8 endpoint_id)%string).
  assert (Hraw : first_char (list_ascii_of_string raw) = Some "z"%char) by reflexivity.
  destruct (auto_scaling_name_succeeds_if raw "z" Hraw eq_refl) as [final Hfinal].
  exists final. split; [exact Hfinal|].
  pose proof (auto_scaling_name_decompose raw final Hfinal)
    as (body & a & z & -> & Hlen & Ha & Haa & Hz & Hzne & Hclass & Hnd).
  rewrite string_of_list_ascii_length, list_ascii_of_string_of_list_ascii.
  split; [unfold len in Hlen; lia|]. split; [exact Hclass|].
  (* the first character survives every step *)
  revert Hfinal. unfold _sanitize_auto_scaling_config_name.
  set (s0 := collapse_runs "-"
               (replace_outside service_name_class "-" (list_ascii_of_string raw))).
  assert (H0 : first_char s0 = Some "z"%char).
  { unfold s0, first_char. rewrite collapse_runs_head. reflexivity. }
  rewrite (first_char_isalnum s0 "z" H0 eq_refl). cbn [negb].
  assert (Hzh : "z"%char <> "-"%char) by discriminate.
  pose proof (rstrip_first "-" s0 "z" H0 Hzh) as H1.
  set (s1 := rstrip "-" s0) in *.
  assert (He1 : is_empty s1 = false) by (destruct s1; [discriminate | reflexivity]).
  rewrite He1.
  set (s2 := if 32 <? len s1 then rstrip "-" (slice_to 32 s1) else s1).
  assert (H2 : first_char s2 = Some "z"%char).
  { unfold s2. destruct (32 <? len s1); [|exact H1].
    apply rstrip_first; [|exact Hzh]. apply slice_to_first; [lia | exact H1]. }
  destruct (len s2 <? 4).
  - intros [= E]. apply (f_equal list_ascii_of_string) in E.
    rewrite !list_ascii_of_string_of_list_ascii in E. rewrite <- E.
    apply rstrip_first; [|exact Hzh]. apply slice_to_first; [lia | reflexivity].
  - intros [= E]. apply (f_equal list_ascii_of_string) in E.
    rewrite !list_ascii_of_string_of_list_ascii in E. rewrite <- E. exact H2.
Qed.

(** ** NameSanitizer: the documented requirements of secret names *)

Lemma collapse_slashes_runs (s : list ascii) :
  collapse_slashes s = collapse_runs "/" s.
Proof.
  induction s as [|a rest IH]; [reflexivity|].
  cbn [collapse_slashes collapse_runs]. destruct rest as [|b rest']; [reflexivity|].
  rewrite IH. reflexivity.
Qed.

Lemma first_char_prefix (p q : list ascii) (c : ascii) :
  first_char p = Some c -> first_char (p ++ q) = Some c.
Proof. destruct p; [discriminate|]. intros H. exact H. Qed.

Lemma no_double_absent (x : ascii) (s : list ascii) :
  (forall d, In d s -> d <> x) -> no_double x s.
Proof.
  induction s as [|a rest IH]; intros H; [exact I|].
  cbn [no_double]. destruct rest as [|b rest']; [exact I|]. split.
  - intros [Ha _]. exact (H a (or_introl eq_refl) Ha).
  - apply IH. intros d Hd. apply H. right. exact Hd.
Qed.

Lemma no_double_join (x c : ascii) (l1 l2 : list ascii) :
  no_double x l1 -> c <> x -> (forall d, In d l2 -> d <> x) ->
  no_double x (l1 ++ c :: l2).
Proof.
  intros Hnd Hc Habs.
  assert (Hbase : no_double x (c :: l2)).
  { apply no_double_absent. intros d [<- | Hd]; [exact Hc | apply Habs, Hd]. }
  induction l1 as [|a rest IH]; [exact Hbase|].
  cbn [app]. cbn [no_double] in Hnd. destruct rest as [|b rest'].
  - cbn [app no_double]. split; [intros [_ E]; exact (Hc E) | exact Hbase].
  - destruct Hnd as [Hab Hnd]. cbn [app no_double]. split; [exact Hab|].
    apply IH. exact Hnd.
Qed.

Lemma suffix_matches_chars (s : list ascii) :
  suffix_matches s = true ->
  s <> [] /\ forall c, In c s -> c <> "/"%char.
Proof.
  unfold suffix_matches.
  destruct (rev s) as [|c before] eqn:E.
  - assert (s = []) as ->.
    { apply (f_equal (@rev ascii)) in E. rewrite rev_involutive in E. exact E. }
    discriminate.
  - assert (Hs : s = rev before ++ [c]).
    { apply (f_equal (@rev ascii)) in E. rewrite rev_involutive in E. exact E. }
    destruct (Ascii.eqb_spec c newline) as [-> | Hnl].
    + destruct (rev before) as [|a t] eqn:Eb; [discriminate|].
      intros Hall. split; [rewrite Hs; discriminate|].
      intros d Hd. rewrite Hs in Hd. apply in_app_or in Hd.
      destruct Hd as [Hd | [<- | []]]; [|discriminate].
      rewrite forallb_forall in Hall. specialize (Hall d Hd).
      intros ->. discriminate.
    + destruct s as [|a t]; [discriminate|].
      intros Hall. split; [discriminate|].
      intros d Hd. rewrite forallb_forall in Hall. specialize (Hall d Hd).
      intros ->. discriminate.
Qed.

(** The body of a secret name: no slash in front, no two slashes in a
    row, and room left for the underscore and the suffix. *)
Lemma secret_name_body_shape (name random_suffix body : list ascii) :
  secret_name_body name random_suffix = Ok body ->
  suffix_matches random_suffix = true /\
  body <> [] /\
  first_char body <> Some "/"%char /\
  no_double "/" body /\
  (0 <= 512 - len random_suffix - 1 ->
   len body <= 512 - len random_suffix - 1).
Proof.
  unfold secret_name_body.
  destruct (suffix_matches random_suffix); cbn [negb]; [|discriminate].
  set (s1 := strip "/" (collapse_slashes (replace_disallowed name))).
  assert (Hnd1 : no_double "/" s1).
  { unfold s1, strip. rewrite collapse_slashes_runs.
    apply no_double_rstrip, no_double_lstrip, collapse_runs_no_double. }
  assert (Hh1 : first_char s1 <> Some "/"%char).
  { unfold s1, strip. intros H.
    destruct (rstrip_prefix "/" (lstrip "/" (collapse_slashes (replace_disallowed name))))
      as [q Hq].
    pose proof (first_char_prefix _ q _ H) as H'. rewrite <- Hq in H'.
    exact (lstrip_head_ne "/" _ "/" H' eq_refl). }
  destruct s1 as [|a s1'] eqn:Es1; [discriminate|].
  rewrite <- Es1 in *. clear Es1.
  set (m := 512 - len random_suffix - 1).
  destruct (Z.ltb_spec m (len s1)) as [Hcut | Hfit].
  - destruct (rstrip "/" (slice_to m s1)) as [|b t] eqn:Et; [discriminate|].
    intros [= <-]. rewrite <- Et.
    split; [reflexivity|]. split; [rewrite Et; discriminate|]. split; [|split].
    + intros H.
      destruct (rstrip_prefix "/" (slice_to m s1)) as [q Hq].
      destruct (slice_to_prefix m s1) as [q' Hq'].
      pose proof (first_char_prefix _ q _ H) as H1. rewrite <- Hq in H1.
      pose proof (first_char_prefix _ q' _ H1) as H2. rewrite <- Hq' in H2.
      exact (Hh1 H2).
    + apply no_double_rstrip, no_double_slice_to, Hnd1.
    + intros Hm. pose proof (rstrip_length "/" (slice_to m s1)).
      pose proof (slice_to_length m s1 Hm). unfold len in *. lia.
  - destruct s1 as [|b t] eqn:Et; [discriminate|].
    intros [= <-]. rewrite <- Et in *.
    split; [reflexivity|]. split; [rewrite Et; discriminate|].
    split; [exact Hh1|]. split; [exact Hnd1|]. intros _. exact Hfit.
Qed.

Lemma body_class_documented (c : ascii) :
  secret_body_class c = true -> documented_secret_class c = true.
Proof.
  destruct c as [[] [] [] [] [] [] [] []]; vm_compute; intros H;
    first [reflexivity | discriminate H].
Qed.

Lemma suffix_class_documented (c : ascii) :
  secret_suffix_class c = true -> documented_secret_class c = true.
Proof.
  destruct c as [[] [] [] [] [] [] [] []]; vm_compute; intros H;
    first [reflexivity | discriminate H].
Qed.

(** A suffix that passes the check is made of class characters, with one
    newline after them at most. *)
Lemma suffix_matches_core (s : list ascii) :
  suffix_matches s = true ->
  exists core,
    forallb secret_suffix_class core = true /\
    (s = core \/ (s = core ++ [newline] /\ last_char s = Some newline)).
Proof.
  unfold suffix_matches.
  destruct (rev s) as [|c before] eqn:E.
  - assert (s = []) as ->.
    { apply (f_equal (@rev ascii)) in E. rewrite rev_involutive in E. exact E. }
    discriminate.
  - assert (Hs : s = rev before ++ [c]).
    { apply (f_equal (@rev ascii)) in E. rewrite rev_involutive in E. exact E. }
    destruct (Ascii.eqb_spec c newline) as [-> | Hnl].
    + destruct (rev before) as [|a t] eqn:Eb; [discriminate|].
      intros Hall. exists (a :: t). split; [exact Hall|]. right.
      split; [exact Hs|]. unfold last_char. rewrite E. reflexivity.
    + destruct s as [|a t]; [discriminate|].
      intros Hall. exists (a :: t). split; [exact Hall | left; reflexivity].
Qed.

(** X6: a secret name that the sanitizer returns meets the requirements
    its docstring lists, but for one character: with a suffix of at most
    511 characters it has 1 to 512 characters; it neither starts nor ends
    with a forward slash nor contains two of them in a row; and its
    characters are letters, digits, hyphens, underscores, periods and
    forward slashes, except that a random suffix ending in a newline,
    which the suffix check lets through, leaves that newline as the last
    character of the name. *)
Theorem secret_name_meets_requirements (name random_suffix final : string) :
  _sanitize_secret_name name random_suffix = Ok final ->
  (String.length random_suffix <= 511)%nat ->
  (1 <= String.length final <= 512)%nat /\
  first_char (list_ascii_of_string final) <> Some "/"%char /\
  last_char (list_ascii_of_string final) <> Some "/"%char /\
  no_double "/" (list_ascii_of_string final) /\
  exists clean,
    forallb documented_secret_class clean = true /\
    (list_ascii_of_string final = clean \/
     (list_ascii_of_string final = clean ++ [newline] /\
      last_char (list_ascii_of_string random_suffix) = Some newline)).
Proof.
  unfold _sanitize_secret_name.
  destruct (secret_name_body (list_ascii_of_string name)
              (list_ascii_of_string random_suffix)) as [body|] eqn:Hbody;
    cbn [rbind]; [|discriminate].
  intros [= <-] Hlen.
  pose proof (secret_name_body_chars _ _ _ Hbody) as [_ Hfrom].
  apply secret_name_body_shape in Hbody.
  destruct Hbody as (Hsuffix & Hne & Hhead & Hnd & Hroom).
  pose proof (suffix_matches_core _ Hsuffix) as (core & Hcore & Hshape).
  apply suffix_matches_chars in Hsuffix. destruct Hsuffix as [Hsne Hsabs].
  set (suffix := list_ascii_of_string random_suffix) in *.
  assert (Hslen : len suffix = Z.of_nat (String.length random_suffix)).
  { unfold len, suffix.
    rewrite <- (string_of_list_ascii_of_string random_suffix) at 2.
    rewrite string_of_list_ascii_length. reflexivity. }
  assert (Hchars : list_ascii_of_string
                     (string_of_list_ascii body ++ "_" ++ random_suffix)%string
                   = body ++ "_"%char :: suffix).
  { rewrite !list_ascii_of_string_app, list_ascii_of_string_of_list_ascii.
    reflexivity. }
  rewrite Hchars.
  assert (Hflen : String.length (string_of_list_ascii body ++ "_" ++ random_suffix)%string
                  = List.length (body ++ "_"%char :: suffix)).
  { rewrite <- Hchars.
    rewrite <- (string_of_list_ascii_of_string
                  (string_of_list_ascii body ++ "_" ++ random_suffix)%string) at 1.
    apply string_of_list_ascii_length. }
  rewrite Hflen, length_app. cbn [List.length].
  split; [|split; [|split; [|split]]].
  - specialize (Hroom ltac:(lia)). unfold len in *. lia.
  - destruct body as [|a t]; [contradiction|]. exact Hhead.
  - destruct (nonempty_has_last suffix Hsne) as [z Hz].
    rewrite (last_char_app body ("_"%char :: suffix) z
               (last_char_app ["_"%char] suffix z Hz)).
    intros [= ->]. exact (Hsabs _ (last_char_In _ _ Hz) eq_refl).
  - apply no_double_join; [exact Hnd | discriminate | exact Hsabs].
  - exists (body ++ "_"%char :: core). split.
    + rewrite forallb_app. apply andb_true_iff. split.
      * apply forallb_forall. intros c Hc. apply body_class_documented.
        eapply replace_disallowed_class. apply Hfrom. exact Hc.
      * cbn [forallb]. apply andb_true_iff. split; [reflexivity|].
        apply forallb_forall. intros c Hc. apply suffix_class_documented.
        rewrite forallb_forall in Hcore. apply Hcore. exact Hc.
    + destruct Hshape as [-> | [-> Hlast]]; [left; reflexivity|].
      right. split; [|exact Hlast].
      rewrite <- app_assoc. reflexivity.
Qed.

Lemma secret_name_meets_requirements_witness :
  (1 <= String.length "zenml_my_endpoint/x_a1b2c3d4" <= 512)%nat /\
  first_char (list_ascii_of_string "zenml_my_endpoint/x_a1b2c3d4") <> Some "/"%char /\
  last_char (list_ascii_of_string "zenml_my_endpoint/x_a1b2c3d4") <> Some "/"%char /\
  no_double "/" (list_ascii_of_string "zenml_my_endpoint/x_a1b2c3d4") /\
  exists clean,
    forallb documented_secret_class clean = true /\
    (list_ascii_of_string "zenml_my_endpoint/x_a1b2c3d4" = clean \/
     (list_ascii_of_string "zenml_my_endpoint/x_a1b2c3d4" = clean ++ [newline] /\
      last_char (list_ascii_of_string "a1b2c3d4") = Some newline)).
Proof.
  apply (secret_name_meets_requirements "zenml-my-endpoint//x/" "a1b2c3d4").
  - vm_compute. reflexivity.
  - cbn. lia.
Defined.

(** ** ResourceMapper: what the converters always give *)

(** X7: whatever is requested, the selected (cpu, memory) pair is one of
    the eleven combinations of the list: a request that no tier meets, or
    no request at all, still yields a combination App Runner accepts. *)
Theorem selected_combination_is_supported (rs : ResourceSettings) :
  exists t, In t valid_combinations /\
            _convert_resource_settings_to_aws_format rs = labels t.
Proof.
  unfold _convert_resource_settings_to_aws_format.
  destruct (select_loop_result (cpu_count rs) (memory_gb rs)) as [[-> ->] | Hsel].
  - eexists. split; [left; reflexivity | reflexivity].
  - rewrite Hsel.
    assert (Hinv : select_inv (cpu_count rs) (memory_gb rs) ([] ++ valid_combinations)
              (fold_left (select_step (cpu_count rs) (memory_gb rs))
                         valid_combinations (None, None))).
    { apply select_fold_inv. left. split; [reflexivity | intros x []]. }
    rewrite app_nil_l in Hinv.
    destruct Hinv as [[-> _] | (i & t & Hi & -> & _)].
    + eexists. split; [do 10 right; left; reflexivity | reflexivity].
    + exists t. split; [eapply nth_error_In; exact Hi | reflexivity].
Qed.

(** X8: the normalized scaling triple is a fixed point: normalizing
    settings that ask for exactly the triple returns the triple again. *)
Theorem scaling_normalization_idempotent (rs : ResourceSettings) :
  let r := _convert_scaling_settings_to_aws_format rs in
  _convert_scaling_settings_to_aws_format
    {| cpu_count := cpu_count rs; memory_gb := memory_gb rs;
       min_replicas := Some (scaling_min r);
       max_replicas := Some (scaling_max r);
       max_concurrency := Some (scaling_concurrency r) |}
  = r.
Proof.
  cbn zeta. rewrite !scaling_unfold.
  unfold scaling_min, scaling_max, scaling_concurrency.
  destruct rs as [c g mn mx mc]; cbn.
  f_equal; [f_equal|].
  - destruct mn; lia.
  - destruct mx as [m|]; [|reflexivity].
    destruct (Z.eqb_spec m 0); [reflexivity|].
    destruct (Z.eqb_spec (Z.min m 1000) 0); lia.
  - destruct mc; lia.
Qed.

(** X9: for the values the settings type admits (replica counts not
    negative, concurrency positive), every normalized value lies between
    1 and its ceiling, except that the minimum has no ceiling. *)
Theorem scaling_normalized_positive (rs : ResourceSettings) :
  (forall m, max_replicas rs = Some m -> 0 <= m) ->
  (forall m, max_concurrency rs = Some m -> 1 <= m) ->
  let r := _convert_scaling_settings_to_aws_format rs in
  1 <= scaling_min r /\
  1 <= scaling_max r <= AWS_APP_RUNNER_MAX_SIZE /\
  1 <= scaling_concurrency r <= AWS_APP_RUNNER_MAX_CONCURRENCY.
Proof.
  intros Hmax Hconc. cbn zeta. rewrite scaling_unfold.
  unfold scaling_min, scaling_max, scaling_concurrency,
    AWS_APP_RUNNER_MAX_SIZE, AWS_APP_RUNNER_MAX_CONCURRENCY.
  destruct rs as [c g mn mx mc]; cbn in *.
  split; [destruct mn; lia|]. split.
  - destruct mx as [m|]; [|lia]. specialize (Hmax m eq_refl).
    destruct (Z.eqb_spec m 0); lia.
  - destruct mc as [m|]; [|lia]. specialize (Hconc m eq_refl). lia.
Qed.

Lemma scaling_normalized_positive_witness :
  let r := _convert_scaling_settings_to_aws_format
             {| cpu_count := None; memory_gb := None; min_replicas := Some 0;
                max_replicas := Some 0; max_concurrency := Some 5000 |} in
  1 <= scaling_min r /\
  1 <= scaling_max r <= AWS_APP_RUNNER_MAX_SIZE /\
  1 <= scaling_concurrency r <= AWS_APP_RUNNER_MAX_CONCURRENCY.
Proof.
  apply (scaling_normalized_positive
           {| cpu_count := None; memory_gb := None; min_replicas := Some 0;
              max_replicas := Some 0; max_concurrency := Some 5000 |}).
  - intros m [= <-]. lia.
  - intros m [= <-]. lia.
Defined.

(** ** Remote behaviour of the secret and scaling-policy managers *)

Lemma calls_since_same {W} (s s' : St W) :
  trace s' = trace s -> calls_since s s' = [].
Proof.
  intros H. apply calls_since_app. rewrite H, app_nil_r. reflexivity.
Qed.

Ltac split_runs_eq :=
  repeat (run_monad;
          match goal with
          | |- context [match ?x with _ => _ end] =>
              lazymatch x with
              | context [match _ with _ => _ end] => fail
              | _ => destruct x eqn:?
              end
          end).

Lemma py_item_raises (v : pyval) (key : string) (e : exn) :
  py_item v key = Raise e -> e = KeyError \/ e = TypeError.
Proof.
  destruct v as [| | | | |d]; cbn; try (intros [= <-]; right; reflexivity).
  destruct (d !! key); [discriminate|]. intros [= <-]. left. reflexivity.
Qed.

Lemma py_get_raises (v : pyval) (key : string) (default : pyval) (e : exn) :
  py_get v key default = Raise e -> e = AttributeError.
Proof. destruct v; cbn; try discriminate; intros [= <-]; reflexivity. Qed.

(* a dict access never raises a client error *)
Ltac absurd_item :=
  match goal with
  | H : py_item _ _ = Raise (ClientError _) |- _ =>
      apply py_item_raises in H; destruct H; discriminate
  | H : py_item _ _ = Raise BotoCoreError |- _ =>
      apply py_item_raises in H; destruct H; discriminate
  | H : py_get _ _ _ = Raise (ClientError _) |- _ =>
      apply py_get_raises in H; discriminate
  | H : py_get _ _ _ = Raise BotoCoreError |- _ =>
      apply py_get_raises in H; discriminate
  end.

Ltac resolve_calls :=
  cbn [fst snd world trace log];
  first [ rewrite calls_since_same by reflexivity
        | erewrite calls_since_app
            by (cbn [trace]; rewrite <- ?app_assoc; reflexivity) ].

Section RemoteBehaviour.

Variable World : Type.
Variable remote : call -> World -> result pyval * World.
Variable deployer_name deployer_id : string.

(** X10: ensuring the scaling policy never deletes a policy and never
    changes one in place.  The calls it makes are exactly: one look-up of
    the recorded policy when the endpoint has one recorded (none
    otherwise), followed by at most one creation, which carries exactly
    the requested name and values; so there is at most one look-up and at
    most one write.  A [ClientError] or [BotoCoreError] never leaves the
    method unwrapped. *)
Theorem scaling_policy_ensure_calls
    (config_name : string) (min_size max_size max_concurrency : Z)
    (endpoint : PipelineEndpointResponse) (s : St World) :
  let run :=
    _create_or_update_auto_scaling_config World remote deployer_name deployer_id
      config_name min_size max_size max_concurrency endpoint s in
  (exists created,
     calls_since s (snd run)
     = match nonempty (_get_auto_scaling_config_arn endpoint) with
       | Some arn => [describe_auto_scaling_configuration arn]
       | None => []
       end ++ created /\
     (created = [] \/
      created = [create_auto_scaling_configuration config_name
                   max_concurrency max_size min_size
                   (zenml_tags deployer_name deployer_id endpoint)])) /\
  (forall c, In c (calls_since s (snd run)) ->
     (exists arn, nonempty (_get_auto_scaling_config_arn endpoint) = Some arn /\
                  c = describe_auto_scaling_configuration arn) \/
     c = create_auto_scaling_configuration config_name
           max_concurrency max_size min_size
           (zenml_tags deployer_name deployer_id endpoint)) /\
  (List.length (List.filter is_write (calls_since s (snd run))) <= 1)%nat /\
  (forall e, fst run = Raise e -> is_client_or_botocore e = false).
Proof.
  cbn zeta.
  unfold _create_or_update_auto_scaling_config, reuse_existing_config.
  destruct (nonempty (_get_auto_scaling_config_arn endpoint)) as [arn|];
    split_runs_eq; resolve_calls;
    (split;
     [eexists; split;
      [reflexivity | first [left; reflexivity | right; reflexivity]]|]);
    (split; [|split]);
    try (intros c Hc; cbn in Hc;
         repeat (destruct Hc as [<- | Hc]; [eauto|]); contradiction);
    try (cbn; lia);
    try (intros raised [= <-]; first [reflexivity | assumption]);
    try (intros raised [=]).
Qed.

(** X11: storing a secret first tries to update it and creates it only when
    the update answers "resource not found"; both calls carry the given
    name and value; and a [ClientError] or [BotoCoreError] never leaves
    the method unwrapped. *)
Theorem secret_upsert_calls (secret_name : string)
    (secret_value : gmap string string) (endpoint : PipelineEndpointResponse)
    (s : St World) :
  let run :=
    _create_or_update_secret World remote deployer_name deployer_id
      secret_name secret_value endpoint s in
  calls_since s (snd run)
  = update_secret secret_name secret_value
    :: (if raises_not_found
             (fst (remote (update_secret secret_name secret_value) (world s)))
        then [create_secret secret_name secret_value
                ("ZenML pipeline endpoint secret for " ++ ep_name endpoint)
                (zenml_tags deployer_name deployer_id endpoint)]
        else []) /\
  (forall e, fst run = Raise e -> is_client_or_botocore e = false).
Proof.
  cbn zeta. unfold _create_or_update_secret, raises_not_found.
  split_runs_eq; try absurd_item; resolve_calls; cbn [fst];
    (split;
     [ first [ reflexivity
             | match goal with
               | H : (_ =? _)%string = _ |- _ => rewrite H; reflexivity
               end ]
     | first [ intros raised [= <-]; first [reflexivity | assumption]
             | intros raised [=] ] ]).
Qed.

(* with a platform that fails with client errors only, any other failure
   of a call is impossible *)
Ltac absurd_remote Honly :=
  match goal with
  | H : remote ?c ?w = (Raise ?e, _) |- _ =>
      let code := fresh "code" in
      let E := fresh "E" in
      destruct (Honly c w e) as [code E]; [rewrite H; reflexivity|];
      discriminate E
  end.

(** X12: resolving the recorded secret is a read: it makes no call when no
    secret is recorded and one [describe_secret] otherwise; whenever it
    returns, the result is absent or the recorded reference; and a
    [ClientError] of the platform, "not found" or any other, yields
    absent instead of an error. *)
Theorem secret_resolution_tolerates_client_errors
    (endpoint : PipelineEndpointResponse) (s : St World) :
  let run := _get_secret_arn World remote endpoint s in
  List.filter is_write (calls_since s (snd run)) = [] /\
  (forall md, endpoint_metadata endpoint = Some md ->
     (nonempty (secret_arn md) = None ->
        fst run = Ok None /\ calls_since s (snd run) = []) /\
     (forall arn, nonempty (secret_arn md) = Some arn ->
        calls_since s (snd run) = [describe_secret arn] /\
        (fst run = Ok (Some arn) \/ fst run = Ok None \/
         exists e, fst run = Raise e /\ (forall code, e <> ClientError code)) /\
        (forall code,
           fst (remote (describe_secret arn) (world s)) = Raise (ClientError code) ->
           fst run = Ok None))).
Proof.
  cbn zeta. unfold _get_secret_arn, from_endpoint. split.
  - split_runs_eq; resolve_calls; reflexivity.
  - intros md Hmd. rewrite Hmd. run_monad. split.
    + intros ->. run_monad. resolve_calls. split; reflexivity.
    + intros arn ->.
      split_runs_eq; resolve_calls; cbn [fst];
        (split; [reflexivity|]);
        (split;
         [ first [ left; reflexivity
                 | right; left; reflexivity
                 | right; right; eexists; split; [reflexivity|];
                   intros code0; discriminate ]
         | first [ intros code0 _; reflexivity | intros code0 [=] ] ]).
Qed.

(** X13: the clean-up of the auxiliary resources of an endpoint tolerates
    every [ClientError]: when the platform fails with client errors only
    ("not found" among them) and the endpoint metadata is valid, the
    clean-up returns normally. *)
Theorem cleanup_tolerates_client_errors
    (endpoint : PipelineEndpointResponse)
    (md : AppRunnerPipelineEndpointMetadata) (s : St World) :
  raises_only_client_errors remote ->
  endpoint_metadata endpoint = Some md ->
  fst (cleanup_auxiliary World remote endpoint s) = Ok tt.
Proof.
  intros Honly Hmd.
  unfold cleanup_auxiliary, _cleanup_endpoint_secrets, _get_secret_arn,
    _delete_secret, _cleanup_endpoint_auto_scaling_config,
    _get_auto_scaling_config_arn, from_endpoint.
  rewrite Hmd.
  split_runs_eq; cbn [fst]; first [reflexivity | absurd_remote Honly].
Qed.

End RemoteBehaviour.

Lemma cleanup_tolerates_client_errors_witness :
  fst (cleanup_auxiliary unit denying_remote provisioned_endpoint
         {| world := tt; trace := []; log := [] |}) = Ok tt.
Proof.
  apply (cleanup_tolerates_client_errors unit denying_remote provisioned_endpoint
           {| service_name := Some "zenml-my-endpoint-a1b2c3d4"%string;
              service_arn := Some "arn:aws:apprunner:service/zenml"%string;
              region := Some "eu-central-1"%string;
              secret_arn := Some old_secret_arn;
              auto_scaling_configuration_arn := Some fake_asc_arn |}).
  - intros c w e H. cbn in H. injection H as <-. eexists. reflexivity.
  - reflexivity.
Defined.

(** ** Inspecting an endpoint *)

Section Inspect.

Variable World : Type.
Variable remote : call -> World -> result pyval * World.
Variable from_app_runner_service : pyval -> string -> pyval -> result pyval.

(** X14: inspecting an endpoint only reads: it makes no write call.  When no
    service ARN is recorded it raises [PipelineEndpointNotFoundError]
    without any call, when the platform answers "not found" it raises the
    same error, and when no region is recorded it never returns a
    state. *)
Theorem inspect_reads_only_and_reports_missing
    (endpoint : PipelineEndpointResponse) (s : St World) :
  let run :=
    do_get_pipeline_endpoint World remote from_app_runner_service endpoint s in
  List.filter is_write (calls_since s (snd run)) = [] /\
  (forall md, endpoint_metadata endpoint = Some md ->
     (nonempty (service_arn md) = None ->
        fst run = Raise PipelineEndpointNotFoundError /\
        calls_since s (snd run) = []) /\
     (forall arn, nonempty (service_arn md) = Some arn ->
        raises_not_found (fst (remote (describe_service arn) (world s))) = true ->
        fst run = Raise PipelineEndpointNotFoundError) /\
     (nonempty (region md) = None -> forall st, fst run <> Ok st)).
Proof.
  cbn zeta.
  unfold do_get_pipeline_endpoint, _get_app_runner_service, _get_secret_arn,
    from_endpoint, raises_not_found.
  split.
  - split_runs_eq; resolve_calls; reflexivity.
  - intros md Hmd. rewrite Hmd. run_monad. split; [|split].
    + intros ->. run_monad. resolve_calls. split; reflexivity.
    + intros arn ->. run_monad.
      destruct (remote (describe_service arn) (world s)) as [[response|e] w1];
        cbn [fst]; [intros Hnf; discriminate Hnf|].
      destruct e; try (intros Hnf; discriminate Hnf).
      intros Hnf. rewrite Hnf. reflexivity.
    + intros Hregion. rewrite Hregion.
      split_runs_eq; cbn [fst]; intros st; discriminate.
Qed.

End Inspect.

(** ** Log retrieval: order, tail and errors *)

Lemma insert_line_perm (x : string) (l : list string) :
  Permutation (x :: l) (insert_line x l).
Proof.
  induction l as [|y rest IH]; cbn [insert_line]; [apply Permutation_refl|].
  destruct (String.leb x y); [apply Permutation_refl|].
  eapply perm_trans; [apply perm_swap|]. apply perm_skip. exact IH.
Qed.

Lemma insert_line_sorted (x : string) (l : list string) :
  Sorted line_le l -> Sorted line_le (insert_line x l).
Proof.
  induction 1 as [|y rest Hs IH Hhd]; cbn [insert_line].
  - constructor; constructor.
  - destruct (String.leb x y) eqn:E.
    + constructor; [constructor; assumption | constructor; exact E].
    + constructor; [exact IH|].
      assert (Hyx : line_le y x).
      { destruct (String.leb_total x y) as [H | H]; [congruence | exact H]. }
      destruct rest as [|z rest']; cbn [insert_line].
      * constructor. exact Hyx.
      * destruct (String.leb x z); constructor; [exact Hyx|].
        inversion Hhd; assumption.
Qed.

Lemma sort_lines_sorted (l : list string) : Sorted line_le (sort_lines l).
Proof.
  induction l as [|x rest IH]; cbn; [constructor|].
  apply insert_line_sorted. exact IH.
Qed.

Lemma sort_lines_perm (l : list string) : Permutation l (sort_lines l).
Proof.
  induction l as [|x rest IH]; cbn; [constructor|].
  eapply perm_trans; [apply perm_skip; exact IH | apply insert_line_perm].
Qed.

Lemma sorted_skipn (n : nat) (l : list string) :
  Sorted line_le l -> Sorted line_le (skipn n l).
Proof.
  revert l. induction n as [|n IH]; intros l H; [exact H|].
  destruct l as [|x rest]; [exact H|]. cbn. apply IH.
  inversion H; assumption.
Qed.

Lemma apply_tail_sorted (tail : option Z) (l : list string) :
  Sorted line_le l -> Sorted line_le (apply_tail tail l).
Proof.
  intros H. unfold apply_tail. destruct tail as [t|]; [|exact H].
  destruct (0 <? t); [apply sorted_skipn|]; exact H.
Qed.

Lemma apply_tail_suffix (tail : option Z) (l : list string) :
  exists dropped,
    l = dropped ++ apply_tail tail l /\
    List.length (apply_tail tail l)
    = match tail with
      | Some t => if 0 <? t then Nat.min (Z.to_nat t) (List.length l)
                  else List.length l
      | None => List.length l
      end.
Proof.
  unfold apply_tail. destruct tail as [t|]; [|exists []; split; reflexivity].
  destruct (0 <? t); [|exists []; split; reflexivity].
  exists (firstn (List.length l - Z.to_nat t) l). split.
  - symmetry. apply firstn_skipn.
  - rewrite length_skipn. lia.
Qed.

Section Logs.

Variable World : Type.
Variable remote : call -> World -> result pyval * World.
Variable format_log_line : pyval -> pyval -> result string.

(** Collecting the events only reads. *)
Lemma collect_log_lines_reads (log_group_name : string) (streams : list pyval)
    (s : St World) :
  exists calls,
    trace (snd (collect_log_lines World remote format_log_line
                  log_group_name streams s)) = trace s ++ calls /\
    List.filter is_write calls = [].
Proof.
  revert s. induction streams as [|stream rest IH]; intros s.
  - exists []. cbn. rewrite app_nil_r. split; reflexivity.
  - cbn [collect_log_lines]. run_monad.
    destruct (py_item stream "logStreamName") as [name|e];
      [|exists []; cbn; rewrite app_nil_r; split; reflexivity].
    destruct name as [| | |stream_name| |];
      try (exists []; cbn; rewrite app_nil_r; split; reflexivity).
    run_monad.
    destruct (remote (get_log_events log_group_name stream_name) (world s))
      as [[events_response|e] w];
      [|eexists; cbn; split; reflexivity].
    destruct (py_get events_response "events" (PList [])) as [events_value|e];
      [|eexists; cbn; split; reflexivity].
    destruct (py_iter events_value) as [events|e];
      [|eexists; cbn; split; reflexivity].
    destruct (format_events format_log_line events) as [lines|e];
      [|eexists; cbn; split; reflexivity].
    match goal with
    | |- context [collect_log_lines World remote format_log_line log_group_name rest ?s1] =>
        destruct (IH s1) as (calls & Htrace & Hread);
        destruct (collect_log_lines World remote format_log_line
                    log_group_name rest s1) as [[more|e] s2]
    end; cbn [fst snd trace] in *;
      (exists (get_log_events log_group_name stream_name :: calls);
       split; [rewrite Htrace, <- app_assoc; reflexivity | exact Hread]).
Qed.

End Logs.


Section LogRetrieval.

Variable World : Type.
Variable remote : call -> World -> result pyval * World.
Variable format_log_line : pyval -> pyval -> result string.

(** The tail limit only cuts the list that the retrieval without a limit
    computes: same calls, same errors. *)
Lemma logs_body_tail (endpoint : PipelineEndpointResponse) (follow : bool)
    (tail : option Z) (s : St World) :
  logs_body World remote format_log_line endpoint follow tail s
  = match logs_body World remote format_log_line endpoint follow None s with
    | (Ok all, s') => (Ok (apply_tail tail all), s')
    | (Raise e, s') => (Raise e, s')
    end.
Proof.
  unfold logs_body, _get_app_runner_service, from_endpoint.
  split_runs; reflexivity.
Qed.

Lemma logs_body_sorted (endpoint : PipelineEndpointResponse) (follow : bool)
    (s s' : St World) (all : list string) :
  logs_body World remote format_log_line endpoint follow None s = (Ok all, s') ->
  Sorted line_le all.
Proof.
  unfold logs_body, _get_app_runner_service, from_endpoint.
  split_runs; intros [= <- <-] || (intros; discriminate);
    apply sort_lines_sorted.
Qed.

(** X15: iterating the logs makes no write call, and once the service
    look-up has answered, the only exceptions that leave the iteration
    are [PipelineEndpointNotFoundError], [PipelineLogsNotFoundError] and
    [DeployerError]: a [RuntimeError], [ClientError] or [BotoCoreError]
    is never raised as such. *)
Theorem logs_read_only_and_wrap_errors
    (endpoint : PipelineEndpointResponse) (tail : option Z) (s : St World) :
  let run := logs_body World remote format_log_line endpoint false tail s in
  List.filter is_write (calls_since s (snd run)) = [] /\
  (forall service e,
     fst (_get_app_runner_service World remote endpoint s) = Ok service ->
     fst run = Raise e -> is_log_error e = true).
Proof.
  cbn zeta. unfold logs_body, _get_app_runner_service, from_endpoint. split.
  - split_runs_eq;
      try match goal with
          | H : collect_log_lines _ _ _ ?g ?l ?s1 = (_, _) |- _ =>
              destruct (collect_log_lines_reads World remote format_log_line
                          g l s1) as (calls & Htrace & Hreads);
              rewrite H in Htrace; cbn [snd trace] in Htrace
          end.
    all: cbn [fst snd world trace log].
    all: first [ rewrite calls_since_same by reflexivity; reflexivity
               | erewrite calls_since_app
                   by (first [rewrite Htrace|idtac]; cbn [trace];
                       rewrite <- ?app_assoc; reflexivity) ].
    all: rewrite ?List.filter_app; cbn [List.filter is_write app];
         first [reflexivity | exact Hreads].
  - intros service e.
    split_runs_eq; cbn [fst]; intros Hservice Hrun;
      first [discriminate Hservice | discriminate Hrun
            | injection Hrun as <-; reflexivity].
Qed.

(** X16: a log group that does not exist is reported as a plain
    [DeployerError]: the [PipelineLogsNotFoundError] raised for the
    "not found" answer of [describe_log_streams] is raised inside the
    outer [try] and caught by its [except Exception] clause. *)
Theorem missing_log_group_raises_deployer_error
    (endpoint : PipelineEndpointResponse) (tail : option Z)
    (md : AppRunnerPipelineEndpointMetadata) (name : string)
    (service : pyval) (s s1 : St World) :
  endpoint_metadata endpoint = Some md ->
  nonempty (service_name md) = Some name ->
  _get_app_runner_service World remote endpoint s = (Ok service, s1) ->
  is_none service = false ->
  raises_not_found
    (fst (remote (describe_log_streams
                    ("/aws/apprunner/" ++ name ++ "/service")%string)
            (world s1))) = true ->
  fst (logs_body World remote format_log_line endpoint false tail s)
  = Raise DeployerError.
Proof.
  intros Hmd Hname Hservice Hsome Hmissing.
  unfold logs_body. run_monad. rewrite Hservice, Hsome.
  unfold from_endpoint. rewrite Hmd. run_monad. rewrite Hname. run_monad.
  unfold raises_not_found in Hmissing.
  destruct (remote (describe_log_streams
                      ("/aws/apprunner/" ++ name ++ "/service")%string)
              (world s1)) as [[response|e] w1];
    cbn [fst] in Hmissing; [discriminate Hmissing|].
  destruct e; try discriminate Hmissing.
  rewrite Hmissing. reflexivity.
Qed.

(** X17: the lines yielded are in ascending order, and a tail limit [t > 0]
    yields exactly the last [min t n] of the [n] lines that the same
    retrieval yields without a limit; a limit that is [None], zero or
    negative yields all of them. *)
Theorem logs_tail_keeps_last_lines
    (endpoint : PipelineEndpointResponse) (tail : option Z)
    (s s' : St World) (lines : list string) :
  logs_body World remote format_log_line endpoint false tail s = (Ok lines, s') ->
  Sorted line_le lines /\
  exists all dropped,
    logs_body World remote format_log_line endpoint false None s = (Ok all, s') /\
    Sorted line_le all /\
    all = dropped ++ lines /\
    List.length lines
    = match tail with
      | Some t => if 0 <? t then Nat.min (Z.to_nat t) (List.length all)
                  else List.length all
      | None => List.length all
      end.
Proof.
  rewrite logs_body_tail.
  destruct (logs_body World remote format_log_line endpoint false None s)
    as [[all|e] s0] eqn:Hall; [|discriminate].
  intros [= <- <-].
  pose proof (logs_body_sorted _ _ _ _ _ Hall) as Hsorted.
  split; [apply apply_tail_sorted; exact Hsorted|].
  destruct (apply_tail_suffix tail all) as (dropped & Hsplit & Hlen).
  exists all, dropped. repeat split; assumption.
Qed.

End LogRetrieval.

Lemma missing_log_group_raises_deployer_error_witness :
  fst (logs_body bool logging_remote message_only_line provisioned_endpoint
         false None (logging_state false))
  = Raise DeployerError.
Proof.
  eapply (missing_log_group_raises_deployer_error bool logging_remote
            message_only_line provisioned_endpoint None);
    [reflexivity | reflexivity | reflexivity | reflexivity | reflexivity].
Defined.

Lemma logs_tail_keeps_last_lines_witness :
  let run :=
    logs_body bool logging_remote message_only_line provisioned_endpoint
      false (Some 2) (logging_state true) in
  fst run = Ok ["line 3"; "line 4"]%string /\
  (Sorted line_le ["line 3"; "line 4"]%string /\
   exists all dropped,
     logs_body bool logging_remote message_only_line provisioned_endpoint
       false None (logging_state true) = (Ok all, snd run) /\
     Sorted line_le all /\
     all = dropped ++ ["line 3"; "line 4"]%string /\
     List.length ["line 3"; "line 4"]%string
     = Nat.min (Z.to_nat 2) (List.length all)).
Proof.
  cbn zeta. split; [vm_compute; reflexivity|].
  apply (logs_tail_keeps_last_lines bool logging_remote message_only_line
           provisioned_endpoint (Some 2) (logging_state true)).
  vm_compute. reflexivity.
Defined.


(** ** Preparing the environment of a service *)

Section Environment.

Variable World : Type.
Variable remote : call -> World -> result pyval * World.
Variable deployer_name deployer_id : string.

(** X18: every secret is handed to the service in exactly one of two ways.
    Either no reference is produced, no secret is active and the secrets
    sit in the plain environment, where they take precedence over the
    environment passed in, which takes precedence over the one of the
    settings; or the secrets manager is in use, the plain environment is
    the merge of the two environments only, and the references are keyed
    by the secrets' keys, each pointing at that key of the one active
    secret. *)
Theorem secrets_delivered_one_way
    (endpoint : PipelineEndpointResponse)
    (environment secrets : gmap string string) (settings : AWSDeployerSettings)
    (s s' : St World)
    (env : gmap string string) (refs : gmap string secret_ref) (active : pyval) :
  _prepare_environment_variables World remote deployer_name deployer_id
    endpoint environment secrets settings s = (Ok (env, refs, active), s') ->
  (refs = ∅ /\ active = PNone /\
   env = secrets ∪ (environment ∪ environment_variables settings))
  \/
  (use_secrets_manager settings = true /\ secrets <> ∅ /\
   env = environment ∪ environment_variables settings /\
   forall key,
     refs !! key
     = (fun _ => {| ref_secret_arn := active; ref_key := key |})
         <$> secrets !! key).
Proof.
  unfold _prepare_environment_variables.
  destruct (bool_decide (secrets = ∅)) eqn:Hempty.
  { apply bool_decide_eq_true in Hempty. subst secrets.
    intros [= <- <- <- <-]. left. rewrite (left_id ∅ (∪)).
    repeat split; reflexivity. }
  apply bool_decide_eq_false in Hempty.
  destruct (use_secrets_manager settings) eqn:Huse;
    [|run_monad; intros [= <- <- <- <-]; left; repeat split; reflexivity].
  split_runs_eq; intros Hrun; try discriminate Hrun;
    injection Hrun as <- <- <- <-;
    first [ left; repeat split; reflexivity
          | right; repeat split; try assumption; try reflexivity;
            intros key; rewrite map_lookup_imap;
            destruct (secrets !! key); reflexivity ].
Qed.

(* the calls of the three secret methods *)
Lemma upsert_never_deletes (secret_name : string)
    (secret_value : gmap string string) (endpoint : PipelineEndpointResponse)
    (s : St World) :
  exists calls,
    trace (snd (_create_or_update_secret World remote deployer_name deployer_id
                  secret_name secret_value endpoint s)) = trace s ++ calls /\
    forall arn, ~ In (delete_secret arn) calls.
Proof.
  unfold _create_or_update_secret.
  split_runs; cbn [fst snd world trace log]; rewrite <- ?app_assoc;
    (eexists; split; [reflexivity|]); cbn; intros arn H;
    repeat (destruct H as [H|H]; [discriminate H|]); exact H.
Qed.

Lemma secret_lookup_never_deletes (endpoint : PipelineEndpointResponse)
    (s : St World) :
  let run := _get_secret_arn World remote endpoint s in
  (exists calls,
     trace (snd run) = trace s ++ calls /\
     forall arn, ~ In (delete_secret arn) calls) /\
  (forall arn, fst run = Ok (Some arn) ->
     exists md, endpoint_metadata endpoint = Some md /\
                nonempty (secret_arn md) = Some arn).
Proof.
  cbn zeta. unfold _get_secret_arn, from_endpoint. split.
  - split_runs; cbn [fst snd world trace log];
      first [ exists []; split; [rewrite app_nil_r; reflexivity|]
            | eexists; split; [reflexivity|] ]; cbn; intros arn H;
      repeat (destruct H as [H|H]; [discriminate H|]); exact H.
  - intros arn. split_runs_eq; cbn [fst]; intros [= <-] || intros [=];
      eexists; split; [reflexivity | assumption].
Qed.

Lemma delete_secret_trace (secret_arn : string) (s : St World) :
  trace (snd (_delete_secret World remote secret_arn s))
  = trace s ++ [delete_secret secret_arn].
Proof. unfold _delete_secret. split_runs; reflexivity. Qed.

Lemma py_eq_optstr_refl (a : string) : py_eq_optstr (PStr a) (Some a) = true.
Proof. cbn. apply String.eqb_refl. Qed.

(** X19: preparing the environment deletes a secret only when it is the one
    recorded for the endpoint and another one (or none) has become
    active, so the secret that the returned references point at is never
    deleted; and without secrets, or with the secrets manager switched
    off, it makes no remote call at all and does not fail. *)
Theorem old_secret_deleted_only_when_replaced
    (endpoint : PipelineEndpointResponse)
    (environment secrets : gmap string string) (settings : AWSDeployerSettings)
    (s : St World) :
  let run :=
    _prepare_environment_variables World remote deployer_name deployer_id
      endpoint environment secrets settings s in
  (secrets = ∅ \/ use_secrets_manager settings = false ->
   calls_since s (snd run) = [] /\ exists prepared, fst run = Ok prepared) /\
  (forall arn, In (delete_secret arn) (calls_since s (snd run)) ->
     (exists md, endpoint_metadata endpoint = Some md /\
                 nonempty (secret_arn md) = Some arn) /\
     forall env refs active,
       fst run = Ok (env, refs, active) -> active <> PStr arn).
Proof.
  cbn zeta. unfold _prepare_environment_variables.
  destruct (bool_decide (secrets = ∅)) eqn:Hempty.
  { run_monad. rewrite calls_since_same by reflexivity.
    split; [intros _; split; [reflexivity | eexists; reflexivity]|].
    intros arn []. }
  apply bool_decide_eq_false in Hempty.
  destruct (use_secrets_manager settings) eqn:Huse.
  2: { run_monad. rewrite calls_since_same by reflexivity.
       split; [intros _; split; [reflexivity | eexists; reflexivity]|].
       intros arn []. }
  split; [intros [H|H]; [contradiction | discriminate H]|].
  intros arn. run_monad.
  destruct (_get_secret_name (ep_name endpoint) (ep_id endpoint)
              (secret_name_prefix settings)) as [secret_name|e];
    [|cbn [snd]; rewrite calls_since_same by reflexivity; intros []].
  destruct (upsert_never_deletes secret_name secrets endpoint s)
    as (stored & Hstored & Hnodel1).
  destruct (_create_or_update_secret World remote deployer_name deployer_id
              secret_name secrets endpoint s) as [[secret_arn|e] s1];
    cbn [fst snd world trace log] in *.
  all: match goal with
       | |- context [_get_secret_arn _ _ ?ep ?st] =>
           destruct (secret_lookup_never_deletes ep st)
             as ((looked & Hlooked & Hnodel2) & Hrecorded);
           cbn zeta in Hlooked, Hrecorded;
           destruct (_get_secret_arn World remote ep st)
             as [[existing|e'] s2]
       end; cbn [fst snd world trace log] in *.
  all: try (erewrite calls_since_app
              by (rewrite Hlooked, Hstored, <- app_assoc; reflexivity);
            intros Hin; apply in_app_or in Hin; destruct Hin as [Hin|Hin];
            [destruct (Hnodel1 _ Hin) | destruct (Hnodel2 _ Hin)]).
  all: destruct existing as [existing|]; cbn [nonempty].
  all: try destruct (String.eqb existing "") eqn:Hblank.
  all: cbn [snd].
  all: try match goal with
           | |- context [negb ?b] => destruct b eqn:Hsame; cbn [negb]
           end.
  all: cbn [fst snd].
  all: try (erewrite calls_since_app
              by (rewrite Hlooked, Hstored, <- app_assoc; reflexivity);
            intros Hin; apply in_app_or in Hin; destruct Hin as [Hin|Hin];
            [destruct (Hnodel1 _ Hin) | destruct (Hnodel2 _ Hin)]).
  all: pose proof (delete_secret_trace existing s2) as Hdeleted;
       destruct (_delete_secret World remote existing s2) as [[[]|e''] s3];
       cbn [fst snd] in *.
  all: erewrite calls_since_app
         by (rewrite Hdeleted, Hlooked, Hstored, <- !app_assoc; reflexivity).
  all: intros Hin; apply in_app_or in Hin; destruct Hin as [Hin|Hin];
       [destruct (Hnodel1 _ Hin)|];
       apply in_app_or in Hin; destruct Hin as [Hin|Hin];
       [destruct (Hnodel2 _ Hin)|];
       destruct Hin as [[= <-]|[]].
  all: (split; [apply Hrecorded; reflexivity|]).
  all: intros env refs active Hrun; try discriminate Hrun;
       injection Hrun as <- <- <-; intros Heq; try discriminate Heq;
       rewrite Heq, py_eq_optstr_refl in Hsame; discriminate Hsame.
Qed.

End Environment.

Lemma secrets_delivered_one_way_witness :
  let endpoint := example_endpoint (Some old_secret_arn) None in
  let environment : gmap string string := {[ "STAGE"%string := "prod"%string ]} in
  let run :=
    _prepare_environment_variables FakeWorld fake_remote
      "aws-deployer" "deployer-0001" endpoint environment api_key_secret
      (plain_settings true) deletion_completes in
  let refs : gmap string secret_ref :=
    {[ "API_KEY"%string :=
         {| ref_secret_arn := PStr fake_secret_arn; ref_key := "API_KEY" |} ]} in
  fst run = Ok (environment, refs, PStr fake_secret_arn) /\
  ((refs = ∅ /\ PStr fake_secret_arn = PNone /\
    environment
    = api_key_secret ∪ (environment ∪ environment_variables (plain_settings true)))
   \/
   (use_secrets_manager (plain_settings true) = true /\ api_key_secret <> ∅ /\
    environment = environment ∪ environment_variables (plain_settings true) /\
    forall key,
      refs !! key
      = (fun _ => {| ref_secret_arn := PStr fake_secret_arn; ref_key := key |})
          <$> api_key_secret !! key)).
Proof.
  cbn zeta. split; [vm_compute; reflexivity|].
  apply (secrets_delivered_one_way FakeWorld fake_remote
           "aws-deployer" "deployer-0001"
           (example_endpoint (Some old_secret_arn) None)
           {[ "STAGE"%string := "prod"%string ]} api_key_secret
           (plain_settings true) deletion_completes
           (snd (_prepare_environment_variables FakeWorld fake_remote
                   "aws-deployer" "deployer-0001"
                   (example_endpoint (Some old_secret_arn) None)
                   {[ "STAGE"%string := "prod"%string ]} api_key_secret
                   (plain_settings true) deletion_completes))).
  vm_compute. reflexivity.
Defined.

Lemma old_secret_deleted_only_when_replaced_witness :
  let endpoint := example_endpoint (Some old_secret_arn) None in
  let run :=
    _prepare_environment_variables FakeWorld fake_remote
      "aws-deployer" "deployer-0001" endpoint ∅ api_key_secret
      (plain_settings true) deletion_completes in
  In (delete_secret old_secret_arn) (calls_since deletion_completes (snd run)) /\
  fst run = Ok (∅, {[ "API_KEY"%string :=
                        {| ref_secret_arn := PStr fake_secret_arn;
                           ref_key := "API_KEY" |} ]}, PStr fake_secret_arn) /\
  (exists md, endpoint_metadata endpoint = Some md /\
              nonempty (secret_arn md) = Some old_secret_arn) /\
  PStr fake_secret_arn <> PStr old_secret_arn.
Proof.
  cbn zeta.
  assert (Hin : In (delete_secret old_secret_arn)
                  (calls_since deletion_completes
                     (snd (_prepare_environment_variables FakeWorld fake_remote
                             "aws-deployer" "deployer-0001"
                             (example_endpoint (Some old_secret_arn) None)
                             ∅ api_key_secret (plain_settings true)
                             deletion_completes)))).
  { vm_compute. right. right. left. reflexivity. }
  assert (Hrun : fst (_prepare_environment_variables FakeWorld fake_remote
                        "aws-deployer" "deployer-0001"
                        (example_endpoint (Some old_secret_arn) None)
                        ∅ api_key_secret (plain_settings true)
                        deletion_completes)
                 = Ok (∅, {[ "API_KEY"%string :=
                               {| ref_secret_arn := PStr fake_secret_arn;
                                  ref_key := "API_KEY" |} ]},
                       PStr fake_secret_arn)).
  { vm_compute. reflexivity. }
  destruct (proj2 (old_secret_deleted_only_when_replaced FakeWorld fake_remote
                     "aws-deployer" "deployer-0001"
                     (example_endpoint (Some old_secret_arn) None)
                     ∅ api_key_secret (plain_settings true) deletion_completes)
              old_secret_arn Hin) as [Hrecorded Hdiffers].
  split; [exact Hin|]. split; [exact Hrun|]. split; [exact Hrecorded|].
  exact (Hdiffers _ _ _ Hrun).
Defined.


(** ** Serving runtime: life cycle of a request *)

(** X20: data put in memory during a request is read back as it was put,
    other URIs are not touched, and the recorded outputs and parameters
    stay as they were; outside a request a put is dropped, a read gives
    [None] and nothing is reported present. *)
Theorem in_memory_data_round_trip (uri other : string) (data : pyval)
    (rt : Runtime) :
  (is_active rt = true ->
   get_in_memory_data uri (put_in_memory_data uri data rt) = data /\
   has_in_memory_data uri (put_in_memory_data uri data rt) = true /\
   (other <> uri ->
    get_in_memory_data other (put_in_memory_data uri data rt)
    = get_in_memory_data other rt /\
    has_in_memory_data other (put_in_memory_data uri data rt)
    = has_in_memory_data other rt) /\
   recorded_outputs (put_in_memory_data uri data rt) = recorded_outputs rt /\
   get_parameter_override other (put_in_memory_data uri data rt)
   = get_parameter_override other rt) /\
  (is_active rt = false ->
   put_in_memory_data uri data rt = rt /\
   get_in_memory_data uri rt = PNone /\
   has_in_memory_data uri rt = false).
Proof.
  unfold get_in_memory_data, has_in_memory_data, put_in_memory_data,
    get_parameter_override, recorded_outputs, is_active.
  split; intros Hactive; rewrite Hactive; cbn; rewrite ?Hactive.
  - rewrite lookup_insert_eq. split; [reflexivity|].
    split; [apply bool_decide_eq_true; eauto|].
    split; [|split; reflexivity].
    intros Hother. rewrite lookup_insert_ne by congruence.
    split; reflexivity.
  - repeat split; reflexivity.
Qed.

Lemma snapshot_empty (st : Store) (a : positive) :
  read_outer st a = ∅ -> snapshot st a = ∅.
Proof. intros H. unfold snapshot. rewrite H. apply fmap_empty. Qed.

(** X21: a request starts from a clean state and ends in one, whatever the
    runtime held before.  After [start] the request is active, no output
    is recorded, no in-memory data is present, the in-memory mode is the
    one asked for and a parameter override is the parameter passed in
    ([None] when it was not passed).  After [stop] the request is not
    active, nothing recorded is left, every query answers [None] or
    [False], and outputs or in-memory data offered afterwards are
    dropped. *)
Theorem start_and_stop_reset_the_request
    (request_id snapshot_id : string) (parameters : gmap string pyval)
    (use_in_memory : bool) (name uri step : string)
    (new_outputs : gmap string pyval) (data : pyval) (rt : Runtime) :
  let started := start request_id snapshot_id parameters use_in_memory rt in
  let stopped := stop rt in
  (is_active started = true /\
   recorded_outputs started = ∅ /\
   get_in_memory_data uri started = PNone /\
   has_in_memory_data uri started = false /\
   should_use_in_memory_mode started = use_in_memory /\
   get_parameter_override name started
   = match parameters !! name with Some v => v | None => PNone end) /\
  (is_active stopped = false /\
   recorded_outputs stopped = ∅ /\
   get_in_memory_data uri stopped = PNone /\
   has_in_memory_data uri stopped = false /\
   should_use_in_memory_mode stopped = false /\
   get_parameter_override name stopped = PNone /\
   record_step_outputs step new_outputs stopped = stopped /\
   put_in_memory_data uri data stopped = stopped).
Proof.
  cbn zeta. split.
  - unfold start, new_outer, recorded_outputs, get_in_memory_data,
      has_in_memory_data, should_use_in_memory_mode, get_parameter_override,
      is_active. cbn.
    repeat split.
    + apply snapshot_empty. apply read_outer_write_eq.
    + destruct (bool_decide (parameters = ∅)) eqn:Hempty; [|reflexivity].
      apply bool_decide_eq_true in Hempty. subst parameters.
      rewrite lookup_empty. reflexivity.
  - unfold stop, recorded_outputs, get_in_memory_data, has_in_memory_data,
      should_use_in_memory_mode, get_parameter_override, record_step_outputs,
      put_in_memory_data, is_active. cbn.
    repeat split. apply snapshot_empty. apply read_outer_write_eq.
Qed.

(** *** Recording outputs *)

Lemma read_outer_write_inner (st : Store) (b a : positive) (d : gmap string pyval) :
  read_outer (write_inner st b d) a = read_outer st a.
Proof. reflexivity. Qed.

Lemma read_inner_write_outer (st : Store) (a b : positive)
    (d : gmap string positive) :
  read_inner (write_outer st a d) b = read_inner st b.
Proof. reflexivity. Qed.

Lemma read_inner_write_eq (st : Store) (b : positive) (d : gmap string pyval) :
  read_inner (write_inner st b d) b = d.
Proof. unfold read_inner, write_inner. cbn. rewrite lookup_insert_eq. reflexivity. Qed.

Lemma read_inner_write_ne (st : Store) (b b' : positive) (d : gmap string pyval) :
  b <> b' -> read_inner (write_inner st b d) b' = read_inner st b'.
Proof.
  intros H. unfold read_inner, write_inner. cbn.
  rewrite lookup_insert_ne by exact H. reflexivity.
Qed.

Lemma separate_steps_empty (rt : Runtime) :
  read_outer (store rt) (outputs (context rt)) = ∅ -> separate_steps rt.
Proof.
  intros H step step' b Hb. rewrite H, lookup_empty in Hb. discriminate.
Qed.

Lemma separate_steps_record (step_name : string)
    (new_outputs : gmap string pyval) (rt : Runtime) :
  wf rt -> separate_steps rt ->
  separate_steps (record_step_outputs step_name new_outputs rt).
Proof.
  intros [Hroot Hinner] Hsep. unfold record_step_outputs.
  destruct (negb (active (context rt))); [exact Hsep|].
  destruct (bool_decide (dom new_outputs = ∅)); [exact Hsep|].
  destruct (read_outer (store rt) (outputs (context rt)) !! step_name)
    as [b|] eqn:Hstep.
  - exact Hsep.
  - unfold new_inner, separate_steps. cbn. intros step step' b.
    unfold read_outer. cbn. rewrite lookup_insert_eq.
    fold (read_outer (store rt) (outputs (context rt))).
    destruct (decide (step_name = step)) as [<-|Hs];
      destruct (decide (step_name = step')) as [<-|Hs'];
      rewrite ?lookup_insert_eq, ?lookup_insert_ne by assumption.
    + reflexivity.
    + intros [= <-] Hb. destruct (Hinner _ _ Hb) as [d Hd].
      rewrite fresh_inner_none in Hd. discriminate.
    + intros Hb [= <-]. destruct (Hinner _ _ Hb) as [d Hd].
      rewrite fresh_inner_none in Hd. discriminate.
    + apply Hsep.
Qed.

Lemma separate_steps_run_calls (calls : list api_call) (rt : Runtime) :
  wf rt -> separate_steps rt -> separate_steps (run_calls calls rt).
Proof.
  revert rt. induction calls as [|c calls IH]; intros rt Hwf Hsep; [exact Hsep|].
  cbn. destruct c; cbn.
  - apply IH; [apply wf_start|]. apply separate_steps_empty.
    unfold start, new_outer. cbn. apply read_outer_write_eq.
  - apply IH; [apply wf_stop|]. apply separate_steps_empty.
    unfold stop. cbn. apply read_outer_write_eq.
  - apply IH; [apply wf_record_step_outputs; exact Hwf|].
    apply separate_steps_record; assumption.
  - apply IH; [apply wf_get_outputs; exact Hwf|].
    pose proof (outputs_not_fresh rt Hwf) as Hne.
    unfold separate_steps, get_outputs, new_outer. cbn.
    rewrite read_outer_write_ne by exact Hne. exact Hsep.
Qed.

Lemma record_step_outputs_merges (step_name : string)
    (new_outputs : gmap string pyval) (rt : Runtime) :
  wf rt -> separate_steps rt -> is_active rt = true -> new_outputs <> ∅ ->
  recorded_outputs (record_step_outputs step_name new_outputs rt)
  = <[step_name :=
        new_outputs ∪ default ∅ (recorded_outputs rt !! step_name)]>
      (recorded_outputs rt).
Proof.
  intros [Hroot Hinner] Hsep Hactive Hne.
  unfold recorded_outputs, record_step_outputs, is_active in *.
  rewrite Hactive. cbn [negb].
  rewrite bool_decide_eq_false_2 by (rewrite dom_empty_iff_L; exact Hne).
  unfold snapshot at 2 3. rewrite lookup_fmap.
  destruct (read_outer (store rt) (outputs (context rt)) !! step_name)
    as [b|] eqn:Hstep; cbn [fmap option_fmap option_map default].
  - apply map_eq. intros step. unfold snapshot. cbn [store context].
    rewrite read_outer_write_inner, lookup_fmap.
    destruct (decide (step_name = step)) as [<-|Hs].
    + rewrite lookup_insert_eq, Hstep. cbn. f_equal.
      apply read_inner_write_eq.
    + rewrite lookup_insert_ne by exact Hs. rewrite lookup_fmap.
      destruct (read_outer (store rt) (outputs (context rt)) !! step)
        as [b'|] eqn:Hb'; [|reflexivity].
      cbn. f_equal. apply read_inner_write_ne.
      intros <-. apply Hs. eapply Hsep; eassumption.
  - apply map_eq. intros step. unfold snapshot, new_inner. cbn [store context].
    rewrite read_outer_write_inner, read_outer_write_eq, lookup_fmap.
    rewrite read_inner_write_outer, read_inner_write_eq.
    destruct (decide (step_name = step)) as [<-|Hs].
    + rewrite !lookup_insert_eq. cbn. f_equal. apply read_inner_write_eq.
    + rewrite !lookup_insert_ne by exact Hs. rewrite lookup_fmap.
      destruct (read_outer (store rt) (outputs (context rt)) !! step)
        as [b'|] eqn:Hb'; [|reflexivity].
      cbn. f_equal. destruct (Hinner _ _ Hb') as [d Hd].
      assert (Hfresh : fresh (dom (inners (store rt))) <> b').
      { intros Heq. rewrite <- Heq, fresh_inner_none in Hd. discriminate. }
      rewrite read_inner_write_ne by exact Hfresh.
      rewrite read_inner_write_outer.
      apply read_inner_write_ne. exact Hfresh.
Qed.

(** X22: recording the outputs of a step during a request merges them into
    what the step has recorded so far: the new values win, the other
    outputs of the step and all other steps keep theirs. *)
Theorem recording_merges_step_outputs (calls : list api_call)
    (step_name : string) (new_outputs : gmap string pyval) :
  let rt := run_calls calls initial_runtime in
  is_active rt = true -> new_outputs <> ∅ ->
  recorded_outputs (record_step_outputs step_name new_outputs rt)
  = <[step_name :=
        new_outputs ∪ default ∅ (recorded_outputs rt !! step_name)]>
      (recorded_outputs rt).
Proof.
  intros rt. apply record_step_outputs_merges.
  - apply wf_run_calls, wf_initial.
  - apply separate_steps_run_calls; [apply wf_initial|].
    apply separate_steps_empty. unfold initial_runtime, new_outer. cbn.
    apply read_outer_write_eq.
Qed.

Lemma recording_merges_step_outputs_witness :
  let rt := run_calls
              [Start "req-1" "snap-1" ∅ false;
               RecordStepOutputs "trainer" {[ "accuracy"%string := PInt 90 ]}]
              initial_runtime in
  let new_outputs : gmap string pyval :=
    {[ "accuracy"%string := PInt 95; "loss"%string := PInt 1 ]} in
  recorded_outputs (record_step_outputs "trainer" new_outputs rt)
  = <[ "trainer"%string :=
         new_outputs ∪ default ∅ (recorded_outputs rt !! "trainer"%string) ]>
      (recorded_outputs rt).
Proof.
  apply (recording_merges_step_outputs
           [Start "req-1" "snap-1" ∅ false;
            RecordStepOutputs "trainer" {[ "accuracy"%string := PInt 90 ]}]
           "trainer"
           {[ "accuracy"%string := PInt 95; "loss"%string := PInt 1 ]}).
  - reflexivity.
  - intros H. apply (f_equal (fun m => m !! "loss"%string)) in H.
    vm_compute in H. discriminate H.
Defined.

(** *** Outputs handed out to a caller *)

Lemma snapshot_kept (r : positive) (st st' : Store) :
  outers st' !! r = outers st !! r ->
  (forall step b, read_outer st r !! step = Some b ->
                  inners st' !! b = inners st !! b) ->
  snapshot st' r = snapshot st r.
Proof.
  intros Houter Hinner. unfold snapshot.
  assert (Hr : read_outer st' r = read_outer st r).
  { unfold read_outer. rewrite Houter. reflexivity. }
  rewrite Hr. apply map_fmap_ext. intros step b Hb.
  unfold read_inner. rewrite (Hinner step b Hb). reflexivity.
Qed.

Lemma existing_outer_not_fresh (st : Store) (r : positive) :
  is_Some (outers st !! r) -> fresh (dom (outers st)) <> r.
Proof. intros [d Hd] Heq. rewrite <- Heq, fresh_outer_none in Hd. discriminate. Qed.

Lemma existing_inner_not_fresh (st : Store) (b : positive) :
  is_Some (inners st !! b) -> fresh (dom (inners st)) <> b.
Proof. intros [d Hd] Heq. rewrite <- Heq, fresh_inner_none in Hd. discriminate. Qed.

(** A dict that shares nothing with the context stays so, and keeps its
    content, whatever the runtime is asked to do. *)
Lemma run_call_detached (c : api_call) (r : positive) (rt : Runtime) :
  wf rt -> detached r rt ->
  detached r (run_call rt c) /\
  snapshot (store (run_call rt c)) r = snapshot (store rt) r.
Proof.
  intros Hwf (Hne & Hr & Hsteps).
  pose proof (existing_outer_not_fresh _ _ Hr) as Hfresh.
  destruct c as [request_id snapshot_id parameters use_in_memory | |
                 step_name new_outputs | ]; cbn [run_call]; unfold detached.
  - (* start *)
    unfold start, new_outer. cbn [fst snd store context outputs].
    set (a1 := fresh (dom (outers (store rt)))) in *.
    set (st1 := write_outer (store rt) a1 ∅).
    assert (Hr1 : outers st1 !! r = outers (store rt) !! r).
    { subst st1. unfold write_outer. cbn.
      rewrite lookup_insert_ne by exact Hfresh. reflexivity. }
    assert (Hfresh2 : fresh (dom (outers st1)) <> r).
    { apply existing_outer_not_fresh. rewrite Hr1. exact Hr. }
    set (a2 := fresh (dom (outers st1))) in *.
    assert (Hr2 : outers (write_outer st1 a2 ∅) !! r = outers (store rt) !! r).
    { unfold write_outer at 1. cbn.
      rewrite lookup_insert_ne by exact Hfresh2. exact Hr1. }
    assert (Hread : read_outer (write_outer st1 a2 ∅) r = read_outer (store rt) r).
    { unfold read_outer. rewrite Hr2. reflexivity. }
    split.
    + split; [exact Hfresh2|]. split; [rewrite Hr2; exact Hr|].
      intros step b. rewrite Hread. intros Hb.
      split; [exact (proj1 (Hsteps _ _ Hb))|].
      intros step'. rewrite read_outer_write_eq, lookup_empty. discriminate.
    + apply snapshot_kept; [exact Hr2 | intros; reflexivity].
  - (* stop *)
    unfold stop. cbn [store context outputs].
    assert (Hr2 : outers (write_outer (store rt) (outputs (context rt)) ∅) !! r
                  = outers (store rt) !! r).
    { unfold write_outer. cbn. rewrite lookup_insert_ne by exact Hne. reflexivity. }
    split.
    + split; [exact Hne|]. split; [rewrite Hr2; exact Hr|].
      intros step b. rewrite read_outer_write_ne by exact Hne. intros Hb.
      split; [exact (proj1 (Hsteps _ _ Hb))|].
      intros step'. rewrite read_outer_write_eq, lookup_empty. discriminate.
    + apply snapshot_kept; [exact Hr2 | intros; reflexivity].
  - (* record_step_outputs *)
    unfold record_step_outputs.
    destruct (negb (active (context rt)));
      [split; [split; [|split]; assumption | reflexivity]|].
    destruct (bool_decide (dom new_outputs = ∅));
      [split; [split; [|split]; assumption | reflexivity]|].
    destruct (read_outer (store rt) (outputs (context rt)) !! step_name)
      as [b'|] eqn:Hstep; cbn [store context].
    + assert (Hother : forall step b, read_outer (store rt) r !! step = Some b ->
                                      b' <> b).
      { intros step b Hb <-. exact (proj2 (Hsteps _ _ Hb) _ Hstep). }
      split.
      * split; [exact Hne|]. split; [exact Hr|].
        intros step b. rewrite read_outer_write_inner. intros Hb.
        split.
        -- unfold write_inner. cbn.
           rewrite lookup_insert_ne by (eapply Hother; exact Hb).
           exact (proj1 (Hsteps _ _ Hb)).
        -- intros step'. rewrite read_outer_write_inner.
           exact (proj2 (Hsteps _ _ Hb) step').
      * apply snapshot_kept; [reflexivity|].
        intros step b Hb. unfold write_inner. cbn.
        rewrite lookup_insert_ne by (eapply Hother; exact Hb). reflexivity.
    + unfold new_inner. cbn [fst snd store context].
      set (b' := fresh (dom (inners (store rt)))).
      assert (Hother : forall step b, read_outer (store rt) r !! step = Some b ->
                                      b' <> b).
      { intros step b Hb. apply existing_inner_not_fresh.
        exact (proj1 (Hsteps _ _ Hb)). }
      split.
      * split; [exact Hne|]. split.
        { unfold write_inner, write_outer. cbn.
          rewrite lookup_insert_ne by exact Hne. exact Hr. }
        intros step b.
        rewrite read_outer_write_inner, read_outer_write_ne by exact Hne.
        rewrite read_outer_write_inner. intros Hb.
        split.
        -- unfold write_inner, write_outer. cbn.
           rewrite !lookup_insert_ne by (eapply Hother; exact Hb).
           exact (proj1 (Hsteps _ _ Hb)).
        -- intros step'.
           rewrite read_outer_write_inner, read_outer_write_eq.
           destruct (decide (step_name = step')) as [<-|Hs].
           ++ rewrite lookup_insert_eq. intros [= Heq].
              exact (Hother _ _ Hb Heq).
           ++ rewrite lookup_insert_ne by exact Hs.
              exact (proj2 (Hsteps _ _ Hb) step').
      * apply snapshot_kept.
        -- unfold write_inner, write_outer. cbn.
           rewrite lookup_insert_ne by exact Hne. reflexivity.
        -- intros step b Hb. unfold write_inner, write_outer. cbn.
           rewrite !lookup_insert_ne by (eapply Hother; exact Hb). reflexivity.
  - (* get_outputs *)
    pose proof (outputs_not_fresh rt Hwf) as Hctx.
    unfold get_outputs, new_outer. cbn [fst snd store context].
    assert (Hr2 : outers (write_outer (store rt) (fresh (dom (outers (store rt))))
                            (read_outer (store rt) (outputs (context rt)))) !! r
                  = outers (store rt) !! r).
    { unfold write_outer. cbn. rewrite lookup_insert_ne by exact Hfresh. reflexivity. }
    split.
    + split; [exact Hne|]. split; [rewrite Hr2; exact Hr|].
      intros step b. rewrite read_outer_write_ne by exact Hfresh. intros Hb.
      split; [exact (proj1 (Hsteps _ _ Hb))|].
      intros step'. rewrite read_outer_write_ne by exact Hctx.
      exact (proj2 (Hsteps _ _ Hb) step').
    + apply snapshot_kept; [exact Hr2 | intros; reflexivity].
Qed.

Lemma run_calls_detached (calls : list api_call) (r : positive) (rt : Runtime) :
  wf rt -> detached r rt ->
  snapshot (store (run_calls calls rt)) r = snapshot (store rt) r.
Proof.
  revert rt. induction calls as [|c calls IH]; intros rt Hwf Hdetached;
    [reflexivity|].
  cbn [run_calls fold_left].
  destruct (run_call_detached c r rt Hwf Hdetached) as [Hnext Hsame].
  rewrite <- Hsame. apply IH; [|exact Hnext].
  exact (wf_run_calls [c] rt Hwf).
Qed.

(* the copy handed out shares its inner dicts with the context until the
   request is reset *)
Lemma reset_detaches (first : api_call) (rt : Runtime) :
  wf rt -> is_reset first = true ->
  let r := fst (get_outputs rt) in
  let rt1 := snd (get_outputs rt) in
  detached r (run_call rt1 first) /\
  snapshot (store (run_call rt1 first)) r = recorded_outputs rt.
Proof.
  intros Hwf Hreset. cbn zeta.
  pose proof (outputs_not_fresh rt Hwf) as Hctx.
  destruct Hwf as [Hroot Hinner].
  unfold get_outputs, new_outer, recorded_outputs. cbn [fst snd].
  set (r := fresh (dom (outers (store rt)))) in *.
  set (st1 := write_outer (store rt) r
                (read_outer (store rt) (outputs (context rt)))).
  assert (Hr1 : read_outer st1 r = read_outer (store rt) (outputs (context rt))).
  { subst st1. apply read_outer_write_eq. }
  assert (Hex1 : is_Some (outers st1 !! r)).
  { subst st1. unfold write_outer. cbn. rewrite lookup_insert_eq. eauto. }
  destruct first as [request_id snapshot_id parameters use_in_memory | | | ];
    try discriminate Hreset; cbn [run_call]; unfold detached.
  - unfold start, new_outer. cbn [fst snd store context outputs].
    pose proof (existing_outer_not_fresh _ _ Hex1) as Hf1.
    set (a1 := fresh (dom (outers st1))) in *.
    set (st2 := write_outer st1 a1 ∅).
    assert (Hex2 : outers st2 !! r = outers st1 !! r).
    { subst st2. unfold write_outer. cbn.
      rewrite lookup_insert_ne by exact Hf1. reflexivity. }
    assert (Hf2 : fresh (dom (outers st2)) <> r).
    { apply existing_outer_not_fresh. rewrite Hex2. exact Hex1. }
    set (a2 := fresh (dom (outers st2))) in *.
    assert (Hex3 : outers (write_outer st2 a2 ∅) !! r = outers st1 !! r).
    { unfold write_outer at 1. cbn.
      rewrite lookup_insert_ne by exact Hf2. exact Hex2. }
    assert (Hread : read_outer (write_outer st2 a2 ∅) r
                    = read_outer (store rt) (outputs (context rt))).
    { unfold read_outer at 1. rewrite Hex3. exact Hr1. }
    split.
    + split; [exact Hf2|]. split; [rewrite Hex3; exact Hex1|].
      intros step b. rewrite Hread. intros Hb.
      split; [exact (Hinner _ _ Hb)|].
      intros step'. rewrite read_outer_write_eq, lookup_empty. discriminate.
    + unfold snapshot. rewrite Hread. reflexivity.
  - unfold stop. cbn [store context outputs].
    assert (Hne : outputs (context rt) <> r) by (intros Heq; apply Hctx; symmetry; exact Heq).
    assert (Hread : read_outer (write_outer st1 (outputs (context rt)) ∅) r
                    = read_outer (store rt) (outputs (context rt))).
    { rewrite read_outer_write_ne by exact Hne. exact Hr1. }
    split.
    + split; [exact Hne|]. split.
      { unfold write_outer at 1. cbn.
        rewrite lookup_insert_ne by exact Hne. exact Hex1. }
      intros step b. rewrite Hread. intros Hb.
      split; [exact (Hinner _ _ Hb)|].
      intros step'. rewrite read_outer_write_eq, lookup_empty. discriminate.
    + unfold snapshot. rewrite Hread. reflexivity.
Qed.

(** X23: the outputs handed out at the end of a request are not touched by
    what comes after: once the request has been stopped, or the next one
    started, the dict that [get_outputs] returned keeps what was
    recorded, whatever later requests start, record, fetch or stop. *)
Theorem handed_out_outputs_survive_later_requests
    (before later : list api_call) (first : api_call) :
  is_reset first = true ->
  let rt := run_calls before initial_runtime in
  let r := fst (get_outputs rt) in
  let rt1 := snd (get_outputs rt) in
  snapshot (store (run_calls (first :: later) rt1)) r = recorded_outputs rt.
Proof.
  intros Hreset rt r rt1.
  assert (Hwf : wf rt) by (apply wf_run_calls, wf_initial).
  destruct (reset_detaches first rt Hwf Hreset) as [Hdetached Hsame].
  cbn [run_calls fold_left]. fold (run_calls later (run_call rt1 first)).
  rewrite run_calls_detached; [exact Hsame | | exact Hdetached].
  apply (wf_run_calls [first]). apply wf_get_outputs. exact Hwf.
Qed.

Lemma handed_out_outputs_survive_later_requests_witness :
  let before :=
    [Start "req-1" "snap-1" ∅ false;
     RecordStepOutputs "trainer" {[ "accuracy"%string := PInt 90 ]}] in
  let later :=
    [Start "req-2" "snap-1" ∅ false;
     RecordStepOutputs "trainer" {[ "accuracy"%string := PInt 10 ]};
     GetOutputs; Stop] in
  let rt := run_calls before initial_runtime in
  let r := fst (get_outputs rt) in
  let rt1 := snd (get_outputs rt) in
  snapshot (store (run_calls (Stop :: later) rt1)) r = recorded_outputs rt.
Proof.
  apply (handed_out_outputs_survive_later_requests
           [Start "req-1" "snap-1" ∅ false;
            RecordStepOutputs "trainer" {[ "accuracy"%string := PInt 90 ]}]
           [Start "req-2" "snap-1" ∅ false;
            RecordStepOutputs "trainer" {[ "accuracy"%string := PInt 10 ]};
            GetOutputs; Stop]
           Stop).
  reflexivity.
Defined.


(** ** Deprovisioning: what is deleted *)

Section Deletion.

Variable World : Type.
Variable remote : call -> World -> result pyval * World.

(* every call in a concrete list of calls *)
Ltac each_call Hin :=
  cbn [In] in Hin;
  repeat (destruct Hin as [Hin|Hin]; [symmetry in Hin; subst|]);
  try contradiction.

(** X24: asking for the deletion of a service.  When the look-up finds no
    service the method raises [PipelineEndpointNotFoundError] without any
    write; when it finds one, the calls are that look-up and one
    [delete_service] of the recorded service, so the [RuntimeError] for a
    missing service ARN cannot occur; nothing else is ever written, and
    once the look-up has answered, the only errors are
    [PipelineEndpointNotFoundError], [PipelineEndpointDeprovisionError]
    and [DeployerError]. *)
Theorem deletion_request_calls_and_errors
    (endpoint : PipelineEndpointResponse) (s : St World) :
  let run := request_deletion World remote endpoint s in
  let calls := calls_since s (snd run) in
  (forall service,
     fst (_get_app_runner_service World remote endpoint s) = Ok service ->
     (is_none service = true ->
      fst run = Raise PipelineEndpointNotFoundError /\
      List.filter is_write calls = []) /\
     (is_none service = false ->
      exists md arn,
        endpoint_metadata endpoint = Some md /\
        nonempty (service_arn md) = Some arn /\
        calls = [describe_service arn; delete_service arn]) /\
     (forall e, fst run = Raise e ->
        e = PipelineEndpointNotFoundError \/
        e = PipelineEndpointDeprovisionError \/ e = DeployerError)) /\
  (forall c, In c calls -> is_write c = true ->
     exists md arn,
       endpoint_metadata endpoint = Some md /\
       nonempty (service_arn md) = Some arn /\ c = delete_service arn).
Proof.
  cbn zeta. unfold request_deletion, _get_app_runner_service, from_endpoint.
  split.
  - intros service.
    split_runs_eq; resolve_calls; cbn [fst]; intros Hservice;
      try discriminate Hservice; injection Hservice as <-;
      (split; [|split]);
      try (intros Hnone; try discriminate Hnone;
           first [ split; reflexivity
                 | congruence
                 | do 2 eexists; split; [reflexivity|];
                   split; [eassumption | reflexivity] ]);
      try (intros raised Hraised; try discriminate Hraised;
           injection Hraised as <-; tauto).
  - intros c.
    split_runs_eq; resolve_calls; intros Hin Hwrite; each_call Hin;
      try discriminate Hwrite;
      (do 2 eexists; split; [reflexivity|]; split; [eassumption | reflexivity]).
Qed.

(** X25: the clean-up after a deletion writes nothing but the deletion of
    the secret and of the scaling policy recorded for the endpoint; the
    only error it raises is [DeployerError], and when it does, the
    deletion of the scaling policy has not been requested. *)
Theorem cleanup_deletes_only_recorded_resources
    (endpoint : PipelineEndpointResponse) (s : St World) :
  let run := cleanup_auxiliary World remote endpoint s in
  let calls := calls_since s (snd run) in
  (forall c, In c calls -> is_write c = true ->
     exists md,
       endpoint_metadata endpoint = Some md /\
       ((exists arn, nonempty (secret_arn md) = Some arn /\
                     c = delete_secret arn) \/
        (exists arn, nonempty (auto_scaling_configuration_arn md) = Some arn /\
                     c = delete_auto_scaling_configuration arn))) /\
  (forall e, fst run = Raise e ->
     e = DeployerError /\
     forall arn, ~ In (delete_auto_scaling_configuration arn) calls).
Proof.
  cbn zeta.
  unfold cleanup_auxiliary, _cleanup_endpoint_secrets, _get_secret_arn,
    _delete_secret, _cleanup_endpoint_auto_scaling_config,
    _get_auto_scaling_config_arn, from_endpoint.
  split.
  - intros c.
    split_runs_eq; resolve_calls; intros Hin Hwrite; each_call Hin;
      try discriminate Hwrite;
      eexists; (split; [reflexivity|]);
      first [ left; eexists; split; [eassumption | reflexivity]
            | right; eexists; split; [eassumption | reflexivity] ].
  - intros e.
    split_runs_eq; resolve_calls; cbn [fst]; intros Hraised;
      try discriminate Hraised; injection Hraised as <-;
      (split; [reflexivity|]); intros arn Hin; cbn [In] in Hin;
      repeat (destruct Hin as [Hin|Hin]; [discriminate Hin|]); exact Hin.
Qed.

End Deletion.
